(** * The Perforce cgo bridge: session pool, callback adapter and retry loop

    A shallow embedding of [libs/go/p4lib/p4_cgo_bridge.cc] and
    [p4_cgo_bridge.h].  The Perforce client library ([p4/clientapi.h]) is an
    external collaborator: a [ClientApi] handle is modelled by the part of
    its state the bridge reads or writes, and everything the library does on
    its own (connecting, running a command, tearing down, the clock) is
    answered by a [Backend] over an abstract world. *)

From Stdlib Require Import ZArith List String Ascii Bool Lia.
Import ListNotations.
Local Open Scope string_scope.
Local Open Scope list_scope.
Local Open Scope Z_scope.

(* ------------------------------------------------------------------------- *)
(** ** Machine integers *)

(** [int] is 32 bits wide; a wider value stored into an [int] keeps its low
    32 bits, read as a signed number. *)
Definition INT_MAX : Z := 2147483647.

Definition wrap32 (z : Z) : Z := (z + 2 ^ 31) mod 2 ^ 32 - 2 ^ 31.

(** A value stored into a [char] keeps its low 8 bits, read as a signed
    number: plain [char] is signed where the bridge is built (x86-64, with GCC,
    Clang or MSVC). *)
Definition wrap8 (z : Z) : Z := (z + 2 ^ 7) mod 2 ^ 8 - 2 ^ 7.

(* ------------------------------------------------------------------------- *)
(** ** p4_cgo_bridge.h *)

(** [strview { const char* p; int len; }]: the [len] bytes found at [p]. *)
Definition strview : Type := string.

Definition sv_len (v : strview) : Z := Z.of_nat (String.length v).

(** [std::string::c_str()] as a callee that takes a [const char*] reads it:
    the bytes before the first NUL.  A [std::string] built from pointer and
    length can hold NUL bytes; its [c_str()] ends at the first. *)
Fixpoint c_str (s : string) : string :=
  match s with
  | EmptyString => EmptyString
  | String a r => if Ascii.eqb a zero then EmptyString else String a (c_str r)
  end.

(* ------------------------------------------------------------------------- *)
(** ** The consumed client library *)

(** [Error]: [Test()] tells whether it carries an error, [Fmt] renders it as
    text: the C string that [Text()] points to and [Length()] measures. *)
Record Error : Type := mkError { Test : bool; Fmt : string }.

(** [StrBuf]: the bytes counted by [Length()], and whether a NUL sits right
    after them.  [Append] adds bytes to the content and promises nothing about
    what follows them; [Terminate] puts the NUL there without counting it. *)
Record StrBuf : Type := mkStrBuf { sb_text : string; sb_terminated : bool }.

Definition StrBuf_Append (buf : StrBuf) (p : string) : StrBuf :=
  {| sb_text := (sb_text buf ++ p)%string; sb_terminated := false |}.

Definition StrBuf_Terminate (buf : StrBuf) : StrBuf :=
  {| sb_text := sb_text buf; sb_terminated := true |}.

(** [StrDict]: an ordered record of variables; [GetVar(i, var, val)] fetches
    the [i]-th pair and answers zero past the last one. *)
Definition StrDict : Type := list (string * string).

Definition GetVar (varList : StrDict) (i : nat) : option (string * string) :=
  nth_error varList i.

(** [P4Tag::v_specFormatted], a constant of the client library. *)
Definition v_specFormatted : string := "specFormatted".

(** A [ClientApi] handle, as far as the bridge can tell.  The library is
    taken to keep the user and the password as [SetUser] and [SetPassword]
    left them, to send and forget the unnamed variables at each [Run], and to
    change what [Dropped()] answers only while a command runs.

    [c_user] and [c_password] are the C strings [GetUser().Text()] and
    [GetPassword().Text()] point to; [SetUser] and [SetPassword] take a
    [const char*], so their callers pass what [c_str()] gives. *)
Record ClientApi : Type := mkClientApi {
  c_id : nat;                              (* which connection this is *)
  c_charset : option string;
  c_protocol : list (string * string);
  c_user : string;
  c_password : string;
  c_vars : list string;                    (* unnamed variables, oldest first *)
  c_dropped : bool;
  c_finalized : bool
}.

Definition new_ClientApi (id : nat) (env_user env_passwd : string) : ClientApi :=
  {| c_id := id; c_charset := None; c_protocol := [];
     c_user := env_user; c_password := env_passwd;
     c_vars := []; c_dropped := false; c_finalized := false |}.

Definition SetCharset (c : ClientApi) (cs : string) : ClientApi :=
  {| c_id := c_id c; c_charset := Some cs; c_protocol := c_protocol c;
     c_user := c_user c; c_password := c_password c; c_vars := c_vars c;
     c_dropped := c_dropped c; c_finalized := c_finalized c |}.

Definition SetProtocol (c : ClientApi) (p v : string) : ClientApi :=
  {| c_id := c_id c; c_charset := c_charset c;
     c_protocol := c_protocol c ++ [(p, v)];
     c_user := c_user c; c_password := c_password c; c_vars := c_vars c;
     c_dropped := c_dropped c; c_finalized := c_finalized c |}.

Definition GetUser (c : ClientApi) : string := c_user c.
Definition GetPassword (c : ClientApi) : string := c_password c.

Definition SetUser (c : ClientApi) (u : string) : ClientApi :=
  {| c_id := c_id c; c_charset := c_charset c; c_protocol := c_protocol c;
     c_user := u; c_password := c_password c; c_vars := c_vars c;
     c_dropped := c_dropped c; c_finalized := c_finalized c |}.

Definition SetPassword (c : ClientApi) (p : string) : ClientApi :=
  {| c_id := c_id c; c_charset := c_charset c; c_protocol := c_protocol c;
     c_user := c_user c; c_password := p; c_vars := c_vars c;
     c_dropped := c_dropped c; c_finalized := c_finalized c |}.

(** [SetVar(StrRef::Null(), value)]: one more unnamed variable. *)
Definition SetVar (c : ClientApi) (value : string) : ClientApi :=
  {| c_id := c_id c; c_charset := c_charset c; c_protocol := c_protocol c;
     c_user := c_user c; c_password := c_password c;
     c_vars := c_vars c ++ [value];
     c_dropped := c_dropped c; c_finalized := c_finalized c |}.

Definition Dropped (c : ClientApi) : bool := c_dropped c.

(** What is left of the handle when [Run] returns: the variables were sent,
    and the connection is dropped or not. *)
Definition after_Run (c : ClientApi) (dropped : bool) : ClientApi :=
  {| c_id := c_id c; c_charset := c_charset c; c_protocol := c_protocol c;
     c_user := c_user c; c_password := c_password c; c_vars := [];
     c_dropped := dropped; c_finalized := c_finalized c |}.

Definition after_Final (c : ClientApi) : ClientApi :=
  {| c_id := c_id c; c_charset := c_charset c; c_protocol := c_protocol c;
     c_user := c_user c; c_password := c_password c; c_vars := c_vars c;
     c_dropped := c_dropped c; c_finalized := true |}.

(** The calls the library makes on a [ClientUser] while a command runs. *)
Inductive SinkCall : Type :=
| CallHandleError (err : Error)
| CallOutputBinary (data : string) (length : Z)
| CallOutputText (data : string) (length : Z)
| CallOutputInfo (level : Z) (data : string)
| CallOutputStat (varList : StrDict)
| CallInputData (buf : StrBuf).

(** The library and the network behind it, over a world [W].  Clock
    readings are 64-bit tick counts; no run comes near their range, so they
    are plain integers here. *)
Record Backend (W : Type) : Type := mkBackend {
  (* std::chrono::high_resolution_clock::now(), in ticks of a nanosecond *)
  be_now : W -> Z * W;
  (* new ClientApi(): the handle and the user and password of its environment *)
  be_new : W -> (nat * string * string) * W;
  be_Init : ClientApi -> W -> Error * W;
  (* Run(cmd, ui): the calls made on ui, and whether the connection dropped *)
  be_Run : ClientApi -> string -> W -> (list SinkCall * bool) * W;
  be_Final : ClientApi -> W -> Error * W
}.

Arguments be_now {W}.
Arguments be_new {W}.
Arguments be_Init {W}.
Arguments be_Run {W}.
Arguments be_Final {W}.

(* ------------------------------------------------------------------------- *)
(** ** What the bridge does to the outside *)

(** The exported Go functions. *)
Inductive GoEvent : Type :=
| gop4apiHandleError (cbid : Z) (err : string) (len : Z)
| gop4apiOutputBinary (cbid : Z) (data : string) (len : Z)
| gop4apiOutputText (cbid : Z) (data : string) (len : Z)
| gop4apiOutputInfo (cbid : Z) (level : Z) (info : string)
| gop4apiOutputStat (cbid : Z) (count : Z) (key value : list strview)
| gop4apiRetry (cbid : Z) (context err : string) (len : Z).

Inductive Action : Type :=
| Go (e : GoEvent)
| Stderr (line : string)
| ApiInit (c : ClientApi) (err : Error)        (* a new handle and its Init *)
| Fresh (c : ClientApi) (timing : option (Z * Z))
                              (* *fresh = true; the start and stop readings *)
| RunBegin (c : ClientApi) (cmd : string)
| InputFilled (buf : StrBuf)                   (* what InputData left in buf *)
| RunEnd (c : ClientApi)
| ApiFinal (c : ClientApi) (err : Error)
| ApiDelete (c : ClientApi).

(* ------------------------------------------------------------------------- *)
(** ** class Pool: the critical sections *)

Definition kMaxClients : Z := 16.

Definition ClientQueue : Type := list ClientApi.

(** Under [mu_] in [Pool::Client]: take the front of [clients_], if any. *)
Definition take_front (clients_ : ClientQueue) : option ClientApi * ClientQueue :=
  match clients_ with
  | [] => (None, [])
  | c :: rest => (Some c, rest)
  end.

(** Under [mu_] in the deleter: queue [c] at the back, or tell the caller to
    delete it ([true]). *)
Definition give_back (clients_ : ClientQueue) (c : ClientApi) : ClientQueue * bool :=
  if negb (Dropped c) && (Z.of_nat (List.length clients_) <? kMaxClients)
  then (clients_ ++ [c], false)
  else (clients_, true).

(** A pool seen from outside: threads take and give in some order. *)
Inductive PoolOp : Type :=
| OpTake
| OpGive (c : ClientApi).

(** The idle queue, the sessions served from it and the sessions queued into
    it, both oldest first. *)
Record PoolRun : Type := mkPoolRun {
  pr_idle : ClientQueue;
  pr_served : list ClientApi;
  pr_queued : list ClientApi
}.

Definition pool_step (r : PoolRun) (op : PoolOp) : PoolRun :=
  match op with
  | OpTake =>
      match take_front (pr_idle r) with
      | (Some c, rest) =>
          {| pr_idle := rest; pr_served := pr_served r ++ [c];
             pr_queued := pr_queued r |}
      | (None, rest) =>
          {| pr_idle := rest; pr_served := pr_served r;
             pr_queued := pr_queued r |}
      end
  | OpGive c =>
      match give_back (pr_idle r) c with
      | (q, false) =>
          {| pr_idle := q; pr_served := pr_served r;
             pr_queued := pr_queued r ++ [c] |}
      | (q, true) =>
          {| pr_idle := q; pr_served := pr_served r;
             pr_queued := pr_queued r |}
      end
  end.

Definition pool_run (ops : list PoolOp) (r : PoolRun) : PoolRun :=
  fold_left pool_step ops r.

Definition pool_start : PoolRun :=
  {| pr_idle := []; pr_served := []; pr_queued := [] |}.

Definition pool_inv (clients_ : ClientQueue) : Prop :=
  (Z.of_nat (List.length clients_) <= kMaxClients) /\
  Forall (fun c => Dropped c = false) clients_.

(* ------------------------------------------------------------------------- *)
(** ** class ClientCb *)

Record ClientCb : Type := mkClientCb { cbid_ : Z; input_ : strview }.

Definition HandleError (cb : ClientCb) (err : Error) : list GoEvent :=
  if Test err
  then [gop4apiHandleError (cbid_ cb) (Fmt err) (Z.of_nat (String.length (Fmt err)))]
  else [].

Definition HandleError_msg (cb : ClientCb) (msg : string) : list GoEvent :=
  [gop4apiHandleError (cbid_ cb) msg (Z.of_nat (String.length msg))].

(** [Retry(context, err)]; [err] is a pointer and may be null. *)
Definition Retry (cb : ClientCb) (context : string) (err : option Error) : list GoEvent :=
  let msg := match err with Some e => Fmt e | None => "" end in
  [gop4apiRetry (cbid_ cb) context msg (Z.of_nat (String.length msg))].

Definition OutputBinary (cb : ClientCb) (data : string) (length : Z) : list GoEvent :=
  [gop4apiOutputBinary (cbid_ cb) data length].

Definition OutputText (cb : ClientCb) (data : string) (length : Z) : list GoEvent :=
  [gop4apiOutputText (cbid_ cb) data length].

(** [level] is a [char]; [level - '0'] is computed in [int] and handed to
    [gop4apiOutputInfo] as a [char] again. *)
Definition OutputInfo (cb : ClientCb) (level : Z) (data : string) : list GoEvent :=
  [gop4apiOutputInfo (cbid_ cb) (wrap8 (level - 48)) data].

(** The loop of [OutputStat]: [i] counts up until [GetVar] answers zero. *)
Fixpoint OutputStat_loop (fuel : nat) (varList : StrDict) (i : nat)
    (keys values : list strview) : list strview * list strview :=
  match fuel with
  | O => (keys, values)
  | S fuel' =>
      match GetVar varList i with
      | None => (keys, values)
      | Some (var, val) =>
          if String.eqb var "func" || String.eqb var v_specFormatted
          then OutputStat_loop fuel' varList (S i) keys values
          else OutputStat_loop fuel' varList (S i) (keys ++ [var]) (values ++ [val])
      end
  end.

Definition OutputStat (cb : ClientCb) (varList : StrDict) : list GoEvent :=
  let '(keys, values) :=
    OutputStat_loop (S (List.length varList)) varList 0 [] [] in
  [gop4apiOutputStat (cbid_ cb) (Z.of_nat (List.length keys)) keys values].

Definition InputData (cb : ClientCb) (buf : StrBuf) : StrBuf :=
  if 0 <? sv_len (input_ cb)
  then StrBuf_Terminate (StrBuf_Append buf (input_ cb))
  else buf.

(** One call of the library on the adapter, as seen from outside. *)
Definition sink (cb : ClientCb) (call : SinkCall) : list Action :=
  match call with
  | CallHandleError err => map Go (HandleError cb err)
  | CallOutputBinary data length => map Go (OutputBinary cb data length)
  | CallOutputText data length => map Go (OutputText cb data length)
  | CallOutputInfo level data => map Go (OutputInfo cb level data)
  | CallOutputStat varList => map Go (OutputStat cb varList)
  | CallInputData buf => [InputFilled (InputData cb buf)]
  end.

(* ------------------------------------------------------------------------- *)
(** ** Running against a backend *)

(** Both pools and the world behind the library. *)
Record State (W : Type) : Type := mkState {
  defaultPool : ClientQueue;
  tagPool : ClientQueue;
  world : W
}.

Arguments mkState {W}.
Arguments defaultPool {W}.
Arguments tagPool {W}.
Arguments world {W}.

(** A computation ends with a value, a new state and the actions it took, or
    it leaves defined behaviour (a read outside a buffer), or the model ran
    out of loop fuel. *)
Inductive Outcome (W A : Type) : Type :=
| Done (a : A) (s : State W) (tr : list Action)
| Undefined
| OutOfFuel.

Arguments Done {W A}.
Arguments Undefined {W A}.
Arguments OutOfFuel {W A}.

Definition M (W A : Type) : Type := State W -> Outcome W A.

Definition ret {W A : Type} (a : A) : M W A := fun s => Done a s [].

Definition bind {W A B : Type} (m : M W A) (k : A -> M W B) : M W B :=
  fun s =>
    match m s with
    | Done a s1 t1 =>
        match k a s1 with
        | Done b s2 t2 => Done b s2 (t1 ++ t2)
        | Undefined => Undefined
        | OutOfFuel => OutOfFuel
        end
    | Undefined => Undefined
    | OutOfFuel => OutOfFuel
    end.

Declare Scope bridge_scope.
Delimit Scope bridge_scope with bridge.

Notation "x <- m ;; k" := (bind m (fun x => k))
  (at level 100, m at next level, right associativity) : bridge_scope.
Notation "' p <- m ;; k" := (bind m (fun x => match x with p => k end))
  (at level 100, p pattern, m at next level, right associativity) : bridge_scope.
Notation "m ;;; k" := (bind m (fun _ => k))
  (at level 100, right associativity) : bridge_scope.

Local Open Scope bridge_scope.

Definition emit {W : Type} (tr : list Action) : M W unit :=
  fun s => Done tt s tr.

Definition undefined {W A : Type} : M W A := fun _ => Undefined.

Definition clients_ {W : Type} (tag : bool) (s : State W) : ClientQueue :=
  if tag then tagPool s else defaultPool s.

Definition set_clients {W : Type} (tag : bool) (q : ClientQueue) (s : State W)
    : State W :=
  {| defaultPool := if tag then defaultPool s else q;
     tagPool := if tag then q else tagPool s;
     world := world s |}.

Definition set_world {W : Type} (w : W) (s : State W) : State W :=
  {| defaultPool := defaultPool s; tagPool := tagPool s; world := w |}.

Definition empty (s : string) : bool :=
  match s with EmptyString => true | String _ _ => false end.

Section Bridge.

Context {W : Type} (B : Backend W).

Definition now : M W Z :=
  fun s =>
    let r := be_now B (world s) in
    Done (fst r) (set_world (snd r) s) [].

Definition api_new : M W ClientApi :=
  fun s =>
    let r := be_new B (world s) in
    Done (new_ClientApi (fst (fst (fst r))) (snd (fst (fst r))) (snd (fst r)))
         (set_world (snd r) s) [].

Definition api_Init (c : ClientApi) : M W Error :=
  fun s =>
    let r := be_Init B c (world s) in
    Done (fst r) (set_world (snd r) s) [ApiInit c (fst r)].

Definition api_Run (c : ClientApi) (cmd : string) (cb : ClientCb) : M W ClientApi :=
  fun s =>
    let r := be_Run B c cmd (world s) in
    let calls := fst (fst r) in
    let dropped := snd (fst r) in
    Done (after_Run c dropped) (set_world (snd r) s)
         ([RunBegin c cmd] ++ flat_map (sink cb) calls
            ++ [RunEnd (after_Run c dropped)]).

Definition api_Final (c : ClientApi) : M W (Error * ClientApi) :=
  fun s =>
    let r := be_Final B c (world s) in
    Done (fst r, after_Final c) (set_world (snd r) s) [ApiFinal c (fst r)].

(** [Pool::SetProtocol] does nothing; [TagPool] overrides it. *)
Definition Pool_SetProtocol (tag : bool) (c : ClientApi) : ClientApi :=
  if tag then SetProtocol c "tag" "" else c.

Definition locked_take (tag : bool) : M W (option ClientApi) :=
  fun s =>
    let r := take_front (clients_ tag s) in
    Done (fst r) (set_clients tag (snd r) s) [].

(** [Pool::Client(ns, error, fresh)] on the pool chosen by [tag].  The three
    pointers come back as the values they point to afterwards; [ns] and
    [error] may be null. *)
Definition Pool_Client (tag : bool) (ns : option Z) (error : option string)
    (fresh : bool)
    : M W (option ClientApi * option Z * option string * bool) :=
  start <- now ;;
  client <- locked_take tag ;;
  match client with
  | Some c => ret (Some c, ns, error, fresh)
  | None =>
      c0 <- api_new ;;
      let c := Pool_SetProtocol tag (SetCharset c0 "utf8") in
      err <- api_Init c ;;
      if Test err then
        let msg := Fmt err in
        match error with
        | Some _ =>
            emit [ApiDelete c] ;;;
            ret (None, ns, Some ("error initializing client: " ++ msg)%string, fresh)
        | None =>
            emit [Stderr ("error initializing client: " ++ msg)%string;
                  ApiDelete c] ;;;
            ret (None, ns, None, fresh)
        end
      else
        match ns with
        | Some n =>
            stop <- now ;;
            emit [Fresh c (Some (start, stop))] ;;;
            ret (Some c, Some (wrap32 (n + Z.quot (stop - start) 1000)),
                 error, true)
        | None =>
            emit [Fresh c None] ;;;
            ret (Some c, None, error, true)
        end
  end.

(** The deleter of the lease, run when the [shared_ptr] goes out of scope. *)
Definition deleter (tag : bool) (c : ClientApi) : M W unit :=
  fun s =>
    let r := give_back (clients_ tag s) c in
    Done tt (set_clients tag (fst r) s) (if snd r then [ApiDelete c] else []).

(** [StrRef(&joined.p[next], len)]: defined when it stays inside the view. *)
Definition StrRef (joined : strview) (next len : Z) : option string :=
  if (0 <=? next) && (0 <=? len) && (next + len <=? sv_len joined)
  then Some (substring (Z.to_nat next) (Z.to_nat len) joined)
  else None.

(** The argument loop, [n] rounds from index [i] on. *)
Fixpoint SetArgs (n : nat) (c : ClientApi) (joined : strview) (args : list Z)
    (i : nat) (next : Z) : option ClientApi :=
  match n with
  | O => Some c
  | S n' =>
      match nth_error args i with
      | None => None
      | Some len =>
          match StrRef joined next len with
          | None => None
          | Some v => SetArgs n' (SetVar c v) joined args (S i) (wrap32 (next + len))
          end
      end
  end.

Definition set_arguments (c : ClientApi) (joined : strview) (argc : Z)
    (argv : list Z) : M W ClientApi :=
  match SetArgs (Z.to_nat argc) c joined argv 0 0 with
  | Some c' => ret c'
  | None => undefined
  end.

Inductive Ctl : Type := CtlReturn | CtlBreak | CtlContinue.

(** The credential override is used when both strings are non-empty. *)
Definition override (userStr passwdStr : string) : bool :=
  negb (empty userStr) && negb (empty passwdStr).

(** The body of the loop from the lease on; gives back the handle as it is
    when the lease goes out of scope.  [userStr], [passwdStr] and [cmdstr] are
    built from pointer and length and reach the library through [c_str()].
    [origUser] and [origPasswd] are built from the C strings of the handle,
    which they hold whole, and so does their [c_str()]. *)
Definition lease_body (cb : ClientCb) (cmdstr userStr passwdStr : string)
    (joined : strview) (argc : Z) (argv : list Z) (c : ClientApi)
    : M W (Ctl * ClientApi) :=
  let override := override userStr passwdStr in
  let origUser := if override then GetUser c else "" in
  let origPasswd := if override then GetPassword c else "" in
  let c :=
    if override
    then SetPassword (SetUser c (c_str userStr)) (c_str passwdStr) else c in
  c <- set_arguments c joined argc argv ;;
  c <- api_Run c (c_str cmdstr) cb ;;
  if negb (Dropped c) then
    let c := if override then SetPassword (SetUser c origUser) origPasswd else c in
    ret (CtlBreak, c)
  else
    '(err, c) <- api_Final c ;;
    (if Test err
     then emit (map Go (Retry cb "p4 connection dropped: " (Some err)))
     else ret tt) ;;;
    ret (CtlContinue, c).

(** One round of [while (true)]: how it ends and the new [init_us]. *)
Definition iteration (cb : ClientCb) (cmdstr userStr passwdStr : string)
    (joined : strview) (argc : Z) (argv : list Z) (tag : bool) (init_us : Z)
    : M W (Ctl * Z) :=
  '(c, ns, errmsg, fresh) <- Pool_Client tag (Some init_us) (Some "") false ;;
  let init_us := match ns with Some n => n | None => init_us end in
  match c with
  | None =>
      emit (map Go (HandleError_msg cb
                      (match errmsg with Some m => m | None => "" end))) ;;;
      ret (CtlReturn, init_us)
  | Some c =>
      '(ctl, c') <- lease_body cb cmdstr userStr passwdStr joined argc argv c ;;
      deleter tag c' ;;;
      ret (ctl, init_us)
  end.

Fixpoint p4runcb_loop (fuel : nat) (cb : ClientCb)
    (cmdstr userStr passwdStr : string) (joined : strview) (argc : Z)
    (argv : list Z) (tag : bool) (init_us : Z) : M W Z :=
  match fuel with
  | O => fun _ => OutOfFuel
  | S fuel' =>
      '(ctl, init_us) <-
        iteration cb cmdstr userStr passwdStr joined argc argv tag init_us ;;
      match ctl with
      | CtlContinue =>
          p4runcb_loop fuel' cb cmdstr userStr passwdStr joined argc argv tag
            init_us
      | CtlBreak | CtlReturn => ret init_us
      end
  end.

Definition p4runcb (fuel : nat) (cmd user passwd input joined : strview)
    (argc : Z) (argv : list Z) (cbid : Z) (tag : bool) : M W Z :=
  let cb := {| cbid_ := cbid; input_ := input |} in
  p4runcb_loop fuel cb cmd user passwd joined argc argv tag 0.

End Bridge.

(* ------------------------------------------------------------------------- *)
(** ** Reading a trace *)

Definition is_retry (a : Action) : bool :=
  match a with Go (gop4apiRetry _ _ _ _) => true | _ => false end.

(** [Run] returned and left the connection dropped. *)
Definition is_drop (a : Action) : bool :=
  match a with RunEnd c => Dropped c | _ => false end.

Definition is_final (a : Action) : bool :=
  match a with ApiFinal _ _ => true | _ => false end.

Definition is_final_error (a : Action) : bool :=
  match a with ApiFinal _ err => Test err | _ => false end.

(** [Init] of a new handle failed. *)
Definition failed_init (a : Action) : bool :=
  match a with ApiInit _ err => Test err | _ => false end.

(** The state and the trace of a computation that ended. *)
Definition state_of {W A : Type} (o : Outcome W A) (otherwise : State W) : State W :=
  match o with Done _ s _ => s | _ => otherwise end.

Definition trace_of {W A : Type} (o : Outcome W A) : list Action :=
  match o with Done _ _ tr => tr | _ => [] end.

Definition count (p : Action -> bool) (tr : list Action) : nat :=
  List.length (filter p tr).

Definition go_events (tr : list Action) : list GoEvent :=
  flat_map (fun a => match a with Go e => [e] | _ => [] end) tr.

(** The microseconds [Pool::Client] added for each fresh session of a trace. *)
Definition fresh_us (tr : list Action) : list Z :=
  flat_map (fun a => match a with
                     | Fresh _ (Some (start, stop)) => [Z.quot (stop - start) 1000]
                     | _ => []
                     end) tr.

Definition is_fresh (a : Action) : bool :=
  match a with Fresh _ _ => true | _ => false end.

(** The actions that can come out of the adapter while a command runs. *)
Definition from_sink (a : Action) : bool :=
  match a with
  | Go (gop4apiRetry _ _ _ _) => false
  | Go _ => true
  | InputFilled _ => true
  | _ => false
  end.

Definition sum_Z (l : list Z) : Z := fold_right Z.add 0 l.

(** The sessions a trace constructed, as they were when marked fresh. *)
Definition fresh_sessions (tr : list Action) : list ClientApi :=
  flat_map (fun a => match a with Fresh c _ => [c] | _ => [] end) tr.

(** The arguments told by a packed buffer and its length table: the [i]-th
    starts where the first [i] lengths end. *)
Definition arg_slice (joined : strview) (argv : list Z) (i : nat) : string :=
  substring (Z.to_nat (sum_Z (firstn i argv))) (Z.to_nat (nth i argv 0)) joined.

Definition arg_slices (joined : strview) (argv : list Z) (argc : Z) : list string :=
  map (arg_slice joined argv) (seq 0 (Z.to_nat argc)).

(** The pairs of a stat record that are forwarded. *)
Definition forwarded (kv : string * string) : bool :=
  negb (String.eqb (fst kv) "func" || String.eqb (fst kv) v_specFormatted).

Definition pool_from (q : ClientQueue) : PoolRun :=
  {| pr_idle := q; pr_served := []; pr_queued := [] |}.

Definition creds (c : ClientApi) : string * string := (c_user c, c_password c).

(** The handle [Run] is called on, given the handle leased: the override,
    if any, then some unnamed variables. *)
Definition run_handle (userStr passwdStr : string) (c crun : ClientApi) : Prop :=
  exists vs,
    crun = fold_left SetVar vs
             (if override userStr passwdStr
              then SetPassword (SetUser c (c_str userStr)) (c_str passwdStr) else c).

(** The callback id a Go event is tagged with. *)
Definition event_cbid (e : GoEvent) : Z :=
  match e with
  | gop4apiHandleError cbid _ _ => cbid
  | gop4apiOutputBinary cbid _ _ => cbid
  | gop4apiOutputText cbid _ _ => cbid
  | gop4apiOutputInfo cbid _ _ => cbid
  | gop4apiOutputStat cbid _ _ _ => cbid
  | gop4apiRetry cbid _ _ _ => cbid
  end.

(** The Go events one call of the library on the adapter comes to. *)
Definition forward (cb : ClientCb) (call : SinkCall) : list GoEvent :=
  match call with
  | CallHandleError err => HandleError cb err
  | CallOutputBinary data length => OutputBinary cb data length
  | CallOutputText data length => OutputText cb data length
  | CallOutputInfo level data => OutputInfo cb level data
  | CallOutputStat varList => OutputStat cb varList
  | CallInputData _ => []
  end.

Definition is_init (a : Action) : bool :=
  match a with ApiInit _ _ => true | _ => false end.

Definition is_delete (a : Action) : bool :=
  match a with ApiDelete _ => true | _ => false end.

Definition is_run_begin (a : Action) : bool :=
  match a with RunBegin _ _ => true | _ => false end.

(** A handle set up for one of the two pools: the charset every pool sets,
    and the protocol only [TagPool] sets. *)
Definition of_variant (tag : bool) (c : ClientApi) : Prop :=
  c_charset c = Some "utf8" /\
  c_protocol c = if tag then [("tag", "")] else [].

(* ------------------------------------------------------------------------- *)
(** ** tools/shaderpacker/shaderpacker.cpp

    The string helpers of [shader_packer_util] and the file names [main]
    derives from its arguments. *)

(** [tolower] of the "C" locale, where it is known: the 7-bit characters. *)
Definition tolower_C (c : ascii) : Z :=
  let n := Z.of_nat (nat_of_ascii c) in
  if (65 <=? n) && (n <=? 90) then n + 32 else n.

Definition is_7bit (c : ascii) : bool := (nat_of_ascii c <? 128)%nat.

Fixpoint all_7bit (s : string) : bool :=
  match s with
  | EmptyString => true
  | String c r => is_7bit c && all_7bit r
  end.

(** The enum of [shader_header_generated.h], which is generated and not among
    the sources: the six enumerators the packer names, and
    [ShaderType_Other] for any other value of the type. *)
Inductive ShaderType : Type :=
| ShaderType_Vertex
| ShaderType_Pixel
| ShaderType_Geometry
| ShaderType_Hull
| ShaderType_Domain
| ShaderType_Compute
| ShaderType_Other (value : Z).

(** What a function with an [assert] comes to: a value, or the failed
    assertion that aborts the program. *)
Inductive Asserted (A : Type) : Type :=
| Value (a : A)
| AssertionFailed (message : string).

Arguments Value {A}.
Arguments AssertionFailed {A}.

(** [assert(false && message); k]: with [NDEBUG] the assertion is compiled
    out and [k] runs. *)
Definition assert_false {A : Type} (NDEBUG : bool) (message : string)
    (k : Asserted A) : Asserted A :=
  if NDEBUG then k else AssertionFailed message.

Section ShaderPacker.

(** The C library's [tolower], as the lambda of [CompareString] calls it. *)
Variable tolower : ascii -> Z.

(** [std::equal(str1.begin(), str1.end(), str2.begin(), pred)]; it is only
    called on strings of one size, so [str2] does not end first. *)
Fixpoint equal_tolower (str1 str2 : string) : bool :=
  match str1, str2 with
  | EmptyString, _ => true
  | String a r1, String b r2 => (tolower a =? tolower b) && equal_tolower r1 r2
  | String _ _, EmptyString => false
  end.

Definition CompareString (str1 str2 : string) : bool :=
  (String.length str1 =? String.length str2)%nat && equal_tolower str1 str2.

Definition GetShaderType (NDEBUG : bool) (inType : string) : Asserted ShaderType :=
  if CompareString inType "vertex" then Value ShaderType_Vertex
  else if CompareString inType "pixel" then Value ShaderType_Pixel
  else if CompareString inType "geometry" then Value ShaderType_Geometry
  else if CompareString inType "hull" then Value ShaderType_Hull
  else if CompareString inType "domain" then Value ShaderType_Domain
  else if CompareString inType "compute" then Value ShaderType_Compute
  else assert_false NDEBUG "Unsupported shader type!!!" (Value ShaderType_Vertex).

End ShaderPacker.

Definition GetTargetProfile (NDEBUG : bool) (type : ShaderType) : Asserted string :=
  match type with
  | ShaderType_Vertex => Value "vs_6_0"
  | ShaderType_Pixel => Value "ps_6_0"
  | ShaderType_Geometry => Value "gs_6_0"
  | ShaderType_Hull => Value "hs_6_0"
  | ShaderType_Domain => Value "ds_6_0"
  | ShaderType_Compute => Value "cs_6_0"
  | ShaderType_Other _ =>
      assert_false NDEBUG "Unsupported shader type!!!" (Value "Unknown")
  end.

(** [main] takes the type of an entry from its name and compiles the entry
    for the profile of that type. *)
Definition entry_profile (tolower : ascii -> Z) (NDEBUG : bool) (sh_type : string)
    : Asserted string :=
  match GetShaderType tolower NDEBUG sh_type with
  | Value type => GetTargetProfile NDEBUG type
  | AssertionFailed message => AssertionFailed message
  end.

(** The name [GetShaderType] reads for a type. *)
Definition type_name (type : ShaderType) : option string :=
  match type with
  | ShaderType_Vertex => Some "vertex"
  | ShaderType_Pixel => Some "pixel"
  | ShaderType_Geometry => Some "geometry"
  | ShaderType_Hull => Some "hull"
  | ShaderType_Domain => Some "domain"
  | ShaderType_Compute => Some "compute"
  | ShaderType_Other _ => None
  end.

(** The character codes of a string with its ASCII capitals made small. *)
Fixpoint lower_string (s : string) : list Z :=
  match s with
  | EmptyString => []
  | String c r => tolower_C c :: lower_string r
  end.

Fixpoint tolower_string (tolower : ascii -> Z) (s : string) : list Z :=
  match s with
  | EmptyString => []
  | String c r => tolower c :: tolower_string tolower r
  end.

(** [std::string]: [find_last_of(chars)] is the last position holding one of
    [chars], [None] for [npos]; [substr(pos, n)] throws [std::out_of_range]
    ([None]) when [pos] is past the size, and stops at the end. *)
Fixpoint mem_char (a : ascii) (chars : string) : bool :=
  match chars with
  | EmptyString => false
  | String b r => Ascii.eqb a b || mem_char a r
  end.

Fixpoint find_last_of (s chars : string) : option nat :=
  match s with
  | EmptyString => None
  | String a r =>
      match find_last_of r chars with
      | Some i => Some (S i)
      | None => if mem_char a chars then Some O else None
      end
  end.

Definition substr (s : string) (pos n : nat) : option string :=
  if (pos <=? String.length s)%nat then Some (substring pos n s) else None.

(** The names [main] derives from the shader file argument:
    [shader_name_no_ext], [shader_path] and [shader_name], or the exception
    out of [substr]. *)
Definition shader_names (shader_path_file_name : string)
    : option (string * string * string) :=
  let lastdot := find_last_of shader_path_file_name "." in
  match (match lastdot with
         | None => Some shader_path_file_name
         | Some i => substr shader_path_file_name 0 i
         end) with
  | None => None
  | Some shader_name_no_ext =>
      let lastslash := find_last_of shader_path_file_name "\/" in
      match (match lastslash with
             | None => Some shader_path_file_name
             | Some j => substr shader_path_file_name 0 j
             end) with
      | None => None
      | Some shader_path =>
          match (match lastslash with
                 | None => Some shader_name_no_ext
                 | Some j =>
                     substr shader_name_no_ext (j + 1)
                       (String.length shader_name_no_ext)
                 end) with
          | None => None
          | Some shader_name =>
              Some (shader_name_no_ext, shader_path, shader_name)
          end
      end
  end.

(** [output_path], from the output file argument. *)
Definition output_path_of (output_path_file_name : string) : option string :=
  match find_last_of output_path_file_name "\/" with
  | None => Some output_path_file_name
  | Some j => substr output_path_file_name 0 j
  end.

(* ------------------------------------------------------------------------- *)
(** ** A scripted backend

    The world is a script: the clock readings, the results of [Init], [Run]
    and [Final] still to come, and the next handle.  An exhausted script
    answers with no error and no drop. *)

Record Script : Type := mkScript {
  sc_clock : list Z;
  sc_next_id : nat;
  sc_inits : list Error;
  sc_runs : list (list SinkCall * bool);
  sc_finals : list Error
}.

Definition no_error : Error := {| Test := false; Fmt := "" |}.

Definition scripted : Backend Script := {|
  be_now := fun w =>
    (hd 0 (sc_clock w),
     {| sc_clock := tl (sc_clock w); sc_next_id := sc_next_id w;
        sc_inits := sc_inits w; sc_runs := sc_runs w; sc_finals := sc_finals w |});
  be_new := fun w =>
    ((sc_next_id w, "builder", "hunter2"),
     {| sc_clock := sc_clock w; sc_next_id := S (sc_next_id w);
        sc_inits := sc_inits w; sc_runs := sc_runs w; sc_finals := sc_finals w |});
  be_Init := fun _ w =>
    (hd no_error (sc_inits w),
     {| sc_clock := sc_clock w; sc_next_id := sc_next_id w;
        sc_inits := tl (sc_inits w); sc_runs := sc_runs w; sc_finals := sc_finals w |});
  be_Run := fun _ _ w =>
    (hd ([], false) (sc_runs w),
     {| sc_clock := sc_clock w; sc_next_id := sc_next_id w;
        sc_inits := sc_inits w; sc_runs := tl (sc_runs w); sc_finals := sc_finals w |});
  be_Final := fun _ w =>
    (hd no_error (sc_finals w),
     {| sc_clock := sc_clock w; sc_next_id := sc_next_id w;
        sc_inits := sc_inits w; sc_runs := sc_runs w; sc_finals := tl (sc_finals w) |})
|}.

Definition start_state (w : Script) : State Script :=
  {| defaultPool := []; tagPool := []; world := w |}.

(** A healthy idle session, and sixteen of them. *)
Definition idle_session (id : nat) : ClientApi :=
  Pool_SetProtocol false (SetCharset (new_ClientApi id "builder" "hunter2") "utf8").

Definition full_queue : ClientQueue := map idle_session (seq 0 16).

(** One drop whose [Final] reports nothing, then a clean run. *)
Definition quiet_drop : Script :=
  {| sc_clock := [1000; 5000; 7000; 12000]; sc_next_id := 1;
     sc_inits := []; sc_runs := [([], true); ([CallOutputText "ok" 2], false)];
     sc_finals := [no_error] |}.

(** One drop whose [Final] fails, then a clean run. *)
Definition loud_drop : Script :=
  {| sc_clock := [1000; 5000; 7000; 12000]; sc_next_id := 1;
     sc_inits := []; sc_runs := [([], true); ([CallOutputText "ok" 2], false)];
     sc_finals := [{| Test := true; Fmt := "TCP send failed" |}] |}.

(** A backend whose [Init] fails. *)
Definition init_fails : Script :=
  {| sc_clock := [1000]; sc_next_id := 1;
     sc_inits := [{| Test := true; Fmt := "Connect to server failed" |}];
     sc_runs := []; sc_finals := [] |}.

(** An override as Go can hand it over: lengths count the bytes, NUL or not. *)
Definition user_with_nul : string := "al" ++ String zero "ice".
Definition passwd_with_nul : string := "pw" ++ String zero "d".

(** A construction that takes fifty minutes, then a clean run. *)
Definition slow_init : Script :=
  {| sc_clock := [0; 3000000000000]; sc_next_id := 1;
     sc_inits := []; sc_runs := [([], false)]; sc_finals := [] |}.

(** A clean run on the first try. *)
Definition clean_run : Script :=
  {| sc_clock := [1000; 2501999]; sc_next_id := 1;
     sc_inits := []; sc_runs := [([CallOutputText "ok" 2], false)];
     sc_finals := [] |}.

(* ========================================================================= *)
(** * Properties *)

(* ------------------------------------------------------------------------- *)
(** ** Integers and lists *)

Lemma wrap32_small (z : Z) : - 2 ^ 31 <= z <= INT_MAX -> wrap32 z = z.
Proof.
  unfold wrap32, INT_MAX. intros H.
  rewrite Z.mod_small; lia.
Qed.

Lemma wrap32_add_l (a b : Z) : wrap32 (wrap32 a + b) = wrap32 (a + b).
Proof.
  unfold wrap32.
  replace ((a + 2 ^ 31) mod 2 ^ 32 - 2 ^ 31 + b + 2 ^ 31)
    with ((a + 2 ^ 31) mod 2 ^ 32 + b) by lia.
  rewrite Zplus_mod_idemp_l.
  replace (a + 2 ^ 31 + b) with (a + b + 2 ^ 31) by lia.
  reflexivity.
Qed.

Lemma sum_Z_app (l1 l2 : list Z) : sum_Z (l1 ++ l2) = sum_Z l1 + sum_Z l2.
Proof.
  induction l1 as [|x l1 IH]; simpl; [reflexivity | rewrite IH; lia].
Qed.

Lemma nth_error_skipn {A : Type} (l : list A) (i : nat) (x : A) :
  nth_error l i = Some x -> skipn i l = x :: skipn (S i) l.
Proof.
  revert i. induction l as [|y l IH]; intros [|i] H; simpl in *; try discriminate.
  - congruence.
  - apply IH in H. destruct l; exact H.
Qed.

Lemma firstn_succ_nth {A : Type} (l : list A) (i : nat) (x : A) :
  nth_error l i = Some x -> firstn (S i) l = firstn i l ++ [x].
Proof.
  revert i. induction l as [|y l IH]; intros [|i] H; simpl in *; try discriminate.
  - congruence.
  - f_equal. apply IH, H.
Qed.

Lemma count_app (p : Action -> bool) (t1 t2 : list Action) :
  count p (t1 ++ t2) = (count p t1 + count p t2)%nat.
Proof. unfold count. rewrite filter_app, length_app. reflexivity. Qed.

(* ------------------------------------------------------------------------- *)
(** ** The callback adapter *)

Lemma OutputStat_loop_filter (varList : StrDict) :
  forall (fuel i : nat) (keys values : list strview),
    (List.length varList < i + fuel)%nat ->
    OutputStat_loop fuel varList i keys values =
    (keys ++ map fst (filter forwarded (skipn i varList)),
     values ++ map snd (filter forwarded (skipn i varList))).
Proof.
  induction fuel as [|fuel IH]; intros i keys values Hfuel.
  - rewrite skipn_all2 by lia. simpl. now rewrite !app_nil_r.
  - simpl. unfold GetVar. destruct (nth_error varList i) as [[var val]|] eqn:Hi.
    + rewrite (nth_error_skipn _ _ _ Hi), IH, IH by lia.
      generalize (skipn (S i) varList) as rest. intros rest.
      cbn [filter].
      replace (forwarded (var, val))
        with (negb (String.eqb var "func" || String.eqb var v_specFormatted))
        by reflexivity.
      destruct (String.eqb var "func" || String.eqb var v_specFormatted);
        cbn [negb map fst snd]; [reflexivity|].
      now rewrite <- !app_assoc.
    + apply nth_error_None in Hi. rewrite skipn_all2 by lia.
      simpl. now rewrite !app_nil_r.
Qed.

(** C6. [OutputStat] forwards one stat event holding, in the order of the
    record, the keys and the values of exactly the pairs whose key is neither
    "func" nor the specFormatted marker; the two sequences have the same
    length, which is the count passed along.  The record with keys func,
    specFormatted and client forwards the client pair alone. *)
Theorem OutputStat_forwards_unreserved_pairs :
  forall (cb : ClientCb) (varList : StrDict),
    let kept := filter forwarded varList in
    OutputStat cb varList =
      [gop4apiOutputStat (cbid_ cb) (Z.of_nat (List.length kept))
         (map fst kept) (map snd kept)] /\
    List.length (map fst kept) = List.length (map snd kept) /\
    (forall k v, In (k, v) kept <->
                 In (k, v) varList /\ k <> "func" /\ k <> v_specFormatted) /\
    OutputStat cb [("func", "x"); ("specFormatted", "y"); ("client", "z")] =
      [gop4apiOutputStat (cbid_ cb) 1 ["client"] ["z"]].
Proof.
  intros cb varList kept. repeat split.
  - unfold OutputStat. rewrite OutputStat_loop_filter by lia.
    simpl skipn. simpl app. fold kept. now rewrite length_map.
  - now rewrite !length_map.
  - apply filter_In in H. tauto.
  - apply filter_In in H as [_ H]. unfold forwarded in H. simpl in H.
    intros ->. discriminate.
  - apply filter_In in H as [_ H]. unfold forwarded in H. simpl in H.
    intros ->. rewrite String.eqb_refl, orb_true_r in H. discriminate.
  - intros (Hin & Hf & Hs). apply filter_In. split; [exact Hin|].
    unfold forwarded. simpl.
    apply String.eqb_neq in Hf. apply String.eqb_neq in Hs.
    now rewrite Hf, Hs.
Qed.

(** C9. [InputData] with a non-empty input payload appends the payload to
    the buffer as it is and terminates the buffer; with an empty payload the
    buffer comes back unchanged. *)
Theorem InputData_appends_or_leaves :
  forall (cb : ClientCb) (buf : StrBuf),
    (input_ cb <> "" ->
     InputData cb buf =
       {| sb_text := (sb_text buf ++ input_ cb)%string; sb_terminated := true |}) /\
    (input_ cb = "" -> InputData cb buf = buf).
Proof.
  intros cb buf. unfold InputData, sv_len. split; intros H.
  - destruct (input_ cb) as [|a s]; [congruence|]. reflexivity.
  - rewrite H. reflexivity.
Qed.

Lemma InputData_appends_or_leaves_witness :
  InputData {| cbid_ := 7; input_ := "y" |}
            {| sb_text := "prompt:"; sb_terminated := true |} =
    {| sb_text := "prompt:y"; sb_terminated := true |} /\
  InputData {| cbid_ := 7; input_ := "" |}
            {| sb_text := "prompt:"; sb_terminated := false |} =
    {| sb_text := "prompt:"; sb_terminated := false |}.
Proof.
  split.
  - apply (proj1 (InputData_appends_or_leaves
                    {| cbid_ := 7; input_ := "y" |}
                    {| sb_text := "prompt:"; sb_terminated := true |})).
    discriminate.
  - apply (proj2 (InputData_appends_or_leaves
                    {| cbid_ := 7; input_ := "" |}
                    {| sb_text := "prompt:"; sb_terminated := false |})).
    reflexivity.
Defined.

(* ------------------------------------------------------------------------- *)
(** ** The argument loop *)

Lemma Forall_firstn_keeps {A : Type} (P : A -> Prop) (n : nat) (l : list A) :
  Forall P l -> Forall P (firstn n l).
Proof.
  intros H. revert n.
  induction H as [|x l Hx _ IH]; intros [|n]; simpl; auto.
Qed.

Lemma sum_Z_nonneg (l : list Z) : Forall (fun x => 0 <= x) l -> 0 <= sum_Z l.
Proof.
  induction 1 as [|x l Hx _ IH]; simpl; lia.
Qed.

Lemma sum_Z_firstn_le (l : list Z) (i j : nat) :
  Forall (fun x => 0 <= x) l -> (i <= j)%nat ->
  sum_Z (firstn i l) <= sum_Z (firstn j l).
Proof.
  intros Hl. revert i j.
  induction Hl as [|x l Hx Hl IH]; intros i j Hij.
  - now rewrite !firstn_nil.
  - destruct i as [|i]; destruct j as [|j]; simpl; try lia.
    + pose proof (sum_Z_nonneg (firstn j l) (Forall_firstn_keeps _ j l Hl)). lia.
    + specialize (IH i j). lia.
Qed.

Lemma SetArgs_slices (joined : strview) (argv : list Z) :
  Forall (fun len => 0 <= len) argv ->
  sum_Z argv <= sv_len joined ->
  sv_len joined <= INT_MAX ->
  forall (n i : nat) (c : ClientApi),
    (i + n <= List.length argv)%nat ->
    SetArgs n c joined argv i (sum_Z (firstn i argv)) =
    Some (fold_left SetVar (map (arg_slice joined argv) (seq i n)) c).
Proof.
  intros Hpos Hsum Hmax.
  assert (Hall : forall k, 0 <= sum_Z (firstn k argv) <= sv_len joined).
  { intros k. split.
    - apply sum_Z_nonneg, Forall_firstn_keeps, Hpos.
    - destruct (Nat.le_ge_cases k (List.length argv)) as [Hk|Hk].
      + pose proof (sum_Z_firstn_le argv k (List.length argv) Hpos Hk) as H.
        rewrite firstn_all in H. lia.
      + rewrite firstn_all2 by exact Hk. exact Hsum. }
  induction n as [|n IH]; intros i c Hin; [reflexivity|].
  cbn [SetArgs seq map fold_left].
  destruct (nth_error argv i) as [len|] eqn:Hi.
  2:{ apply nth_error_None in Hi. lia. }
  assert (Hnext : sum_Z (firstn (S i) argv) = sum_Z (firstn i argv) + len).
  { rewrite (firstn_succ_nth _ _ _ Hi), sum_Z_app. simpl. lia. }
  assert (Hlen : 0 <= len).
  { eapply Forall_forall in Hpos; [exact Hpos|]. eapply nth_error_In, Hi. }
  pose proof (Hall i) as Hlo. pose proof (Hall (S i)) as Hhi.
  unfold StrRef.
  replace ((0 <=? sum_Z (firstn i argv)) && (0 <=? len)
           && (sum_Z (firstn i argv) + len <=? sv_len joined)) with true.
  2:{ symmetry. rewrite !andb_true_iff, !Z.leb_le. lia. }
  rewrite <- Hnext, wrap32_small by (unfold INT_MAX in *; lia).
  rewrite IH by lia.
  unfold arg_slice at 3. rewrite (nth_error_nth _ _ _ Hi). reflexivity.
Qed.

Lemma c_vars_fold_SetVar (vs : list string) :
  forall c : ClientApi, c_vars (fold_left SetVar vs c) = c_vars c ++ vs.
Proof.
  induction vs as [|v vs IH]; intros c; simpl.
  - now rewrite app_nil_r.
  - rewrite IH. simpl. now rewrite <- app_assoc.
Qed.

(** C5. With a length table of [argc] lengths, none negative, that stay
    inside the packed buffer (whose own length fits an [int]), the argument loop calls [SetVar] exactly
    [argc] times, the [i]-th time with the slice of the buffer that starts at
    the sum of the first [i] lengths and is as long as the [i]-th length, and
    the command (as [c_str()] gives it, up to its first NUL) then runs on the
    session holding these variables after the ones it had.  The buffer "foobarbaz" with lengths 3, 3, 3 sets "foo",
    "bar", "baz" in this order. *)
Theorem arguments_are_slices_of_packed_buffer :
  forall (W : Type) (B : Backend W) (cb : ClientCb)
         (cmdstr userStr passwdStr : string) (joined : strview) (argc : Z)
         (argv : list Z) (c : ClientApi) (s : State W),
    argc = Z.of_nat (List.length argv) ->
    Forall (fun len => 0 <= len) argv ->
    sum_Z argv <= sv_len joined ->
    sv_len joined <= INT_MAX ->
    SetArgs (Z.to_nat argc) c joined argv 0 0 =
      Some (fold_left SetVar (arg_slices joined argv argc) c) /\
    Z.of_nat (List.length (arg_slices joined argv argc)) = argc /\
    (exists crun ctl c' s' rest,
        lease_body B cb cmdstr userStr passwdStr joined argc argv c s =
          Done (ctl, c') s' (RunBegin crun (c_str cmdstr) :: rest) /\
        c_vars crun = c_vars c ++ arg_slices joined argv argc) /\
    arg_slices "foobarbaz" [3; 3; 3] 3 = ["foo"; "bar"; "baz"].
Proof.
  intros W B cb cmdstr userStr passwdStr joined argc argv c s
         Hargc Hpos Hsum Hmax.
  assert (Hset : forall c0, SetArgs (Z.to_nat argc) c0 joined argv 0 0 =
                   Some (fold_left SetVar (arg_slices joined argv argc) c0)).
  { intros c0.
    apply (SetArgs_slices joined argv Hpos Hsum Hmax (Z.to_nat argc) 0 c0). lia. }
  split; [apply Hset|]. split.
  { unfold arg_slices. rewrite length_map, length_seq. lia. }
  split; [|reflexivity].
  unfold lease_body, set_arguments, bind. rewrite Hset.
  unfold ret at 1. unfold api_Run.
  match goal with |- context [be_Run B ?x (c_str cmdstr) (world s)] =>
    set (crun := x); destruct (be_Run B crun (c_str cmdstr) (world s)) as [[calls d] w]
  end.
  assert (Hvars : c_vars crun = c_vars c ++ arg_slices joined argv argc).
  { subst crun. rewrite c_vars_fold_SetVar.
    destruct (override userStr passwdStr); reflexivity. }
  destruct d; cbn [Dropped after_Run c_dropped negb fst snd].
  - unfold api_Final. cbn [world set_world].
    match goal with |- context [Test ?e] => destruct (Test e) end;
      cbn; eauto 10.
  - cbn. eauto 10.
Qed.

Lemma arguments_are_slices_of_packed_buffer_witness :
  SetArgs 3 (idle_session 1) "foobarbaz" [3; 3; 3] 0 0 =
    Some (fold_left SetVar ["foo"; "bar"; "baz"] (idle_session 1)).
Proof.
  apply (proj1 (arguments_are_slices_of_packed_buffer Script scripted
                  {| cbid_ := 7; input_ := "" |} "sync" "" "" "foobarbaz" 3
                  [3; 3; 3] (idle_session 1) (start_state clean_run)
                  ltac:(simpl; lia)
                  ltac:(repeat constructor; lia)
                  ltac:(vm_compute; discriminate)
                  ltac:(vm_compute; discriminate))).
Defined.

(* ------------------------------------------------------------------------- *)
(** ** The pool *)

Lemma take_front_inv (q : ClientQueue) :
  pool_inv q -> pool_inv (snd (take_front q)).
Proof.
  unfold pool_inv. destruct q as [|c rest]; simpl; [tauto|].
  intros [Hlen Hall]. inversion Hall; subst. split; [lia | assumption].
Qed.

Lemma give_back_inv (q : ClientQueue) (c : ClientApi) :
  pool_inv q -> pool_inv (fst (give_back q c)).
Proof.
  unfold pool_inv, give_back, kMaxClients. intros [Hlen Hall].
  destruct (Dropped c) eqn:Hd; simpl; [tauto|].
  destruct (Z.of_nat (List.length q) <? 16) eqn:Hlt; simpl; [|tauto].
  apply Z.ltb_lt in Hlt. split.
  - rewrite length_app. simpl. lia.
  - apply Forall_app. split; [assumption | repeat constructor; assumption].
Qed.

Lemma pool_step_inv (r : PoolRun) (op : PoolOp) :
  pool_inv (pr_idle r) -> pool_inv (pr_idle (pool_step r op)).
Proof.
  intros H. destruct op as [|c]; simpl.
  - pose proof (take_front_inv _ H) as H'.
    destruct (take_front (pr_idle r)) as [[c|] rest]; exact H'.
  - pose proof (give_back_inv _ c H) as H'.
    destruct (give_back (pr_idle r) c) as [q [|]]; exact H'.
Qed.

Lemma pool_run_inv (ops : list PoolOp) :
  forall r : PoolRun, pool_inv (pr_idle r) -> pool_inv (pr_idle (pool_run ops r)).
Proof.
  unfold pool_run. induction ops as [|op ops IH]; intros r H; simpl; [exact H|].
  apply IH, pool_step_inv, H.
Qed.

Lemma pool_step_fifo (q0 : ClientQueue) (r : PoolRun) (op : PoolOp) :
  pr_served r ++ pr_idle r = q0 ++ pr_queued r ->
  pr_served (pool_step r op) ++ pr_idle (pool_step r op) =
  q0 ++ pr_queued (pool_step r op).
Proof.
  intros H. destruct op as [|c]; simpl.
  - destruct (pr_idle r) as [|c rest] eqn:Hq; simpl; [exact H|].
    rewrite <- app_assoc. exact H.
  - unfold give_back.
    destruct (negb (Dropped c) && (Z.of_nat (List.length (pr_idle r)) <? kMaxClients));
      simpl; [|exact H].
    now rewrite !app_assoc, H.
Qed.

Section PoolOfBridge.

Context {W : Type} (B : Backend W).

Lemma clients_set_clients (tag tg : bool) (q : ClientQueue) (s : State W) :
  clients_ tg (set_clients tag q s) = if Bool.eqb tg tag then q else clients_ tg s.
Proof. destruct tag, tg; reflexivity. Qed.

Lemma clients_set_world (tg : bool) (w : W) (s : State W) :
  clients_ tg (set_world w s) = clients_ tg s.
Proof. destruct tg; reflexivity. Qed.

(** What [Pool::Client] leaves in the two queues. *)
Lemma Pool_Client_clients (tag tg : bool) (ns : option Z) (error : option string)
    (fresh : bool) (s : State W) :
  exists r s' tr,
    Pool_Client B tag ns error fresh s = Done r s' tr /\
    clients_ tg s' =
      if Bool.eqb tg tag then snd (take_front (clients_ tag s)) else clients_ tg s.
Proof.
  unfold Pool_Client, bind, now, locked_take, api_new, api_Init, emit, ret.
  cbn [world set_world set_clients].
  rewrite clients_set_world.
  destruct (take_front (clients_ tag s)) as [[c|] rest] eqn:Htake; cbn [fst snd].
  - do 3 eexists. split; [reflexivity|].
    rewrite clients_set_clients, clients_set_world. reflexivity.
  - cbn [world set_world set_clients].
    match goal with |- context [Test ?e] => destruct (Test e) end.
    + destruct error; do 3 eexists; (split; [reflexivity|]);
        destruct tag, tg; reflexivity.
    + destruct ns; do 3 eexists; (split; [reflexivity|]);
        destruct tag, tg; reflexivity.
Qed.

Lemma deleter_clients (tag tg : bool) (c : ClientApi) (s : State W) :
  exists s' tr,
    deleter tag c s = Done tt s' tr /\
    clients_ tg s' =
      if Bool.eqb tg tag then fst (give_back (clients_ tag s) c) else clients_ tg s.
Proof.
  unfold deleter. do 2 eexists. split; [reflexivity|]. apply clients_set_clients.
Qed.

End PoolOfBridge.

(** C3. Whatever acquires and releases a pool goes through, starting empty
    or from any queue that satisfies it, its idle queue holds at most 16
    sessions and none of them is dropped; [Pool::Client] and the deleter keep
    this for both pools; and the deleter, given a healthy session while 16 are
    idle, deletes it and leaves the queue as it was. *)
Theorem idle_queue_bounded_and_healthy :
  (forall ops : list PoolOp, pool_inv (pr_idle (pool_run ops pool_start))) /\
  (forall (ops : list PoolOp) (q0 : ClientQueue),
      pool_inv q0 -> pool_inv (pr_idle (pool_run ops (pool_from q0)))) /\
  (forall (W : Type) (B : Backend W) (tag tg : bool) (ns : option Z)
          (error : option string) (fresh : bool) (s : State W),
      pool_inv (clients_ tg s) ->
      exists r s' tr,
        Pool_Client B tag ns error fresh s = Done r s' tr /\
        pool_inv (clients_ tg s')) /\
  (forall (W : Type) (tag tg : bool) (c : ClientApi) (s : State W),
      pool_inv (clients_ tg s) ->
      exists s' tr,
        deleter tag c s = Done tt s' tr /\ pool_inv (clients_ tg s')) /\
  (forall (q : ClientQueue) (c : ClientApi),
      Z.of_nat (List.length q) = kMaxClients -> Dropped c = false ->
      give_back q c = (q, true)) /\
  (forall (W : Type) (tag : bool) (c : ClientApi) (s : State W),
      Z.of_nat (List.length (clients_ tag s)) = kMaxClients ->
      Dropped c = false ->
      deleter tag c s = Done tt s [ApiDelete c]).
Proof.
  assert (Hfull : forall (q : ClientQueue) (c : ClientApi),
             Z.of_nat (List.length q) = kMaxClients -> Dropped c = false ->
             give_back q c = (q, true)).
  { intros q c Hlen Hd. unfold give_back. rewrite Hd, Hlen. reflexivity. }
  repeat split.
  - destruct (pool_run_inv ops pool_start) as [H _]; [|exact H].
    split; [unfold kMaxClients; simpl; lia | constructor].
  - destruct (pool_run_inv ops pool_start) as [_ H]; [|exact H].
    split; [unfold kMaxClients; simpl; lia | constructor].
  - apply (pool_run_inv ops (pool_from q0)), H.
  - apply (pool_run_inv ops (pool_from q0)), H.
  - intros W B tag tg ns error fresh s Hinv.
    destruct (Pool_Client_clients B tag tg ns error fresh s)
      as (r & s' & tr & Heq & Hq).
    exists r, s', tr. split; [exact Heq|]. rewrite Hq.
    destruct (Bool.eqb tg tag) eqn:E; [|exact Hinv].
    apply Bool.eqb_prop in E. subst tg. apply take_front_inv, Hinv.
  - intros W tag tg c s Hinv.
    destruct (deleter_clients tag tg c s) as (s' & tr & Heq & Hq).
    exists s', tr. split; [exact Heq|]. rewrite Hq.
    destruct (Bool.eqb tg tag) eqn:E; [|exact Hinv].
    apply Bool.eqb_prop in E. subst tg. apply give_back_inv, Hinv.
  - exact Hfull.
  - intros W tag c s Hlen Hd. unfold deleter. rewrite (Hfull _ _ Hlen Hd).
    destruct s as [dp tp w]; destruct tag; reflexivity.
Qed.

Lemma idle_queue_bounded_and_healthy_witness :
  pool_inv (pr_idle (pool_run [OpGive (idle_session 1); OpTake] (pool_from full_queue))) /\
  give_back full_queue (idle_session 17) = (full_queue, true).
Proof.
  split.
  - apply (proj1 (proj2 idle_queue_bounded_and_healthy)).
    split; [vm_compute; discriminate | repeat constructor].
  - apply (proj1 (proj2 (proj2 (proj2 (proj2 idle_queue_bounded_and_healthy)))));
      reflexivity.
Defined.

Lemma pool_run_fifo (q0 : ClientQueue) (ops : list PoolOp) :
  forall r : PoolRun,
    pr_served r ++ pr_idle r = q0 ++ pr_queued r ->
    pr_served (pool_run ops r) ++ pr_idle (pool_run ops r) =
    q0 ++ pr_queued (pool_run ops r).
Proof.
  unfold pool_run. induction ops as [|op ops IH]; intros r H; simpl; [exact H|].
  apply IH, pool_step_fifo, H.
Qed.

(** C7. The idle queue is first in, first out.  [Pool::Client] on a
    non-empty queue takes its front, constructs nothing, and leaves [*ns],
    [*error] and [*fresh] as the caller set them ([p4runcb] sets them to
    [init_us], the empty string and false); the deleter puts a healthy
    session at the back while fewer than 16 are idle; and along any sequence
    of takes and gives, the sessions served followed by the sessions still
    idle are the sessions the queue started with followed by the sessions
    queued, each in order. *)
Theorem idle_sessions_served_fifo :
  (forall (c : ClientApi) (rest : ClientQueue),
      take_front (c :: rest) = (Some c, rest)) /\
  (forall (W : Type) (B : Backend W) (tag : bool) (ns : option Z)
          (error : option string) (fresh : bool) (s : State W)
          (c : ClientApi) (rest : ClientQueue),
      clients_ tag s = c :: rest ->
      Pool_Client B tag ns error fresh s =
        Done (Some c, ns, error, fresh)
             (set_clients tag rest (set_world (snd (be_now B (world s))) s)) []) /\
  (forall (W : Type) (B : Backend W) (tag : bool) (init_us : Z) (s : State W)
          (c : ClientApi) (rest : ClientQueue),
      clients_ tag s = c :: rest ->
      exists s',
        Pool_Client B tag (Some init_us) (Some "") false s =
          Done (Some c, Some init_us, Some "", false) s' [] /\
        clients_ tag s' = rest) /\
  (forall (q : ClientQueue) (c : ClientApi),
      Dropped c = false -> Z.of_nat (List.length q) < kMaxClients ->
      give_back q c = (q ++ [c], false)) /\
  (forall (ops : list PoolOp) (q0 : ClientQueue),
      let r := pool_run ops (pool_from q0) in
      pr_served r ++ pr_idle r = q0 ++ pr_queued r).
Proof.
  assert (Hpop : forall (W : Type) (B : Backend W) (tag : bool) (ns : option Z)
          (error : option string) (fresh : bool) (s : State W)
          (c : ClientApi) (rest : ClientQueue),
      clients_ tag s = c :: rest ->
      Pool_Client B tag ns error fresh s =
        Done (Some c, ns, error, fresh)
             (set_clients tag rest (set_world (snd (be_now B (world s))) s)) []).
  { intros W B tag ns error fresh s c rest Hq.
    unfold Pool_Client, bind, now, locked_take, ret.
    rewrite clients_set_world, Hq. reflexivity. }
  split; [reflexivity|]. split; [exact Hpop|]. split; [|split].
  - intros W B tag init_us s c rest Hq. eexists. split; [apply Hpop, Hq|].
    destruct tag; reflexivity.
  - intros q c Hd Hlen. unfold give_back. rewrite Hd.
    apply Z.ltb_lt in Hlen. rewrite Hlen. reflexivity.
  - intros ops q0 r. apply pool_run_fifo. simpl. now rewrite app_nil_r.
Qed.

Lemma idle_sessions_served_fifo_witness :
  Pool_Client scripted false (Some 0) (Some "") false
    {| defaultPool := [idle_session 4; idle_session 9]; tagPool := [];
       world := clean_run |} =
    Done (Some (idle_session 4), Some 0, Some "", false)
         (set_clients false [idle_session 9]
            (set_world (snd (be_now scripted clean_run))
               {| defaultPool := [idle_session 4; idle_session 9]; tagPool := [];
                  world := clean_run |})) [] /\
  give_back [idle_session 9] (idle_session 4) =
    ([idle_session 9; idle_session 4], false).
Proof.
  split.
  - apply (proj1 (proj2 idle_sessions_served_fifo) Script scripted false
             (Some 0) (Some "") false
             {| defaultPool := [idle_session 4; idle_session 9]; tagPool := [];
                world := clean_run |} (idle_session 4) [idle_session 9]).
    reflexivity.
  - apply (proj1 (proj2 (proj2 (proj2 idle_sessions_served_fifo)))
             [idle_session 9] (idle_session 4)).
    + reflexivity.
    + reflexivity.
Defined.

(* ------------------------------------------------------------------------- *)
(** ** The retry loop *)

Lemma sink_from_sink (cb : ClientCb) (calls : list SinkCall) :
  Forall (fun a => from_sink a = true) (flat_map (sink cb) calls).
Proof.
  induction calls as [|call calls IH]; simpl; [constructor|].
  apply Forall_app. split; [|exact IH].
  destruct call; simpl; repeat constructor.
  - unfold HandleError. destruct (Test err); simpl; repeat constructor.
  - unfold OutputStat.
    destruct (OutputStat_loop _ _ _ _ _); simpl; repeat constructor.
Qed.

Lemma count_none (p : Action -> bool) (tr : list Action) :
  Forall (fun a => p a = false) tr -> count p tr = 0%nat.
Proof.
  unfold count. induction 1 as [|a tr Ha _ IH]; simpl; [reflexivity|].
  now rewrite Ha.
Qed.

Lemma count_sink (p : Action -> bool) (cb : ClientCb) (calls : list SinkCall) :
  (forall a, from_sink a = true -> p a = false) ->
  count p (flat_map (sink cb) calls) = 0%nat.
Proof.
  intros Hp. apply count_none.
  eapply Forall_impl; [|apply sink_from_sink]. exact Hp.
Qed.

Lemma SetArgs_sets_vars (joined : strview) (argv : list Z) :
  forall (n i : nat) (next : Z) (c c' : ClientApi),
    SetArgs n c joined argv i next = Some c' ->
    exists vs, c' = fold_left SetVar vs c /\ List.length vs = n.
Proof.
  induction n as [|n IH]; intros i next c c' H; simpl in H.
  - exists []. inversion H. split; reflexivity.
  - destruct (nth_error argv i) as [len|]; [|discriminate].
    destruct (StrRef joined next len) as [v|]; [|discriminate].
    apply IH in H as (vs & -> & Hlen). exists (v :: vs). split; [reflexivity|].
    simpl. now rewrite Hlen.
Qed.

Lemma creds_fold_SetVar (vs : list string) :
  forall c : ClientApi, creds (fold_left SetVar vs c) = creds c.
Proof.
  induction vs as [|v vs IH]; intros c; simpl; [reflexivity|]. now rewrite IH.
Qed.

Section Loop.

Context {W : Type} (B : Backend W).
Variables (cb : ClientCb) (cmdstr userStr passwdStr : string)
          (joined : strview) (argc : Z) (argv : list Z) (tag : bool).

Lemma Done_inj {A : Type} (a a' : A) (s s' : State W) (t t' : list Action) :
  Done a s t = Done a' s' t' -> a = a' /\ s = s' /\ t = t'.
Proof. intros H. inversion H. auto. Qed.

Lemma bind_Done {A C : Type} (m : M W A) (k : A -> M W C) (s s2 : State W)
    (b : C) (tr : list Action) :
  bind m k s = Done b s2 tr ->
  exists a s1 t1 t2,
    m s = Done a s1 t1 /\ k a s1 = Done b s2 t2 /\ tr = t1 ++ t2.
Proof.
  unfold bind. intros H.
  destruct (m s) as [a s1 t1| |]; try discriminate.
  destruct (k a s1) as [b' s2' t2| |] eqn:Hk; try discriminate.
  apply Done_inj in H as (<- & <- & <-). exists a, s1, t1, t2. auto.
Qed.

(** The three ways [Pool::Client] ends when [p4runcb] calls it. *)
Lemma Pool_Client_cases (n : Z) (s : State W) :
  exists s1,
    (forall tg, clients_ tg s1 =
       if Bool.eqb tg tag then snd (take_front (clients_ tag s)) else clients_ tg s) /\
    ((exists c rest,
         clients_ tag s = c :: rest /\
         Pool_Client B tag (Some n) (Some "") false s =
           Done (Some c, Some n, Some "", false) s1 []) \/
     (exists c err,
         clients_ tag s = [] /\ Test err = true /\
         Pool_Client B tag (Some n) (Some "") false s =
           Done (None, Some n,
                 Some ("error initializing client: " ++ Fmt err)%string, false)
                s1 [ApiInit c err; ApiDelete c]) \/
     (exists c err start stop,
         clients_ tag s = [] /\ Test err = false /\
         Pool_Client B tag (Some n) (Some "") false s =
           Done (Some c, Some (wrap32 (n + Z.quot (stop - start) 1000)),
                 Some "", true)
                s1 [ApiInit c err; Fresh c (Some (start, stop))])).
Proof.
  unfold Pool_Client, bind, now, locked_take, api_new, api_Init, emit, ret.
  cbn [world set_world set_clients].
  rewrite clients_set_world.
  destruct (clients_ tag s) as [|c rest] eqn:Hq; cbn [take_front fst snd].
  - cbn [world set_world set_clients].
    match goal with |- context [Test ?e] => destruct (Test e) eqn:Htest end.
    + eexists. split.
      2:{ right. left. do 2 eexists. split; [reflexivity|].
          split; [exact Htest | reflexivity]. }
      intros tg. destruct tag, tg; cbn; try reflexivity; exact Hq.
    + eexists. split.
      2:{ right. right. do 4 eexists. split; [reflexivity|].
          split; [exact Htest | reflexivity]. }
      intros tg. destruct tag, tg; cbn; try reflexivity; exact Hq.
  - eexists. split.
    2:{ left. do 2 eexists. split; reflexivity. }
    intros tg. destruct tag, tg; cbn; try reflexivity.
Qed.

(** The ways the body of the loop ends once a session is leased. *)
Lemma lease_body_cases (c : ClientApi) (s : State W) :
  lease_body B cb cmdstr userStr passwdStr joined argc argv c s = Undefined \/
  exists crun calls d s1,
    run_handle userStr passwdStr c crun /\
    defaultPool s1 = defaultPool s /\ tagPool s1 = tagPool s /\
    let cend := after_Run crun d in
    let run_tr := [RunBegin crun (c_str cmdstr)] ++ flat_map (sink cb) calls ++ [RunEnd cend] in
    (d = false /\
     lease_body B cb cmdstr userStr passwdStr joined argc argv c s =
       Done (CtlBreak,
             if override userStr passwdStr
             then SetPassword (SetUser cend (c_user c)) (c_password c)
             else cend) s1 run_tr) \/
    (d = true /\
     exists err,
       lease_body B cb cmdstr userStr passwdStr joined argc argv c s =
         Done (CtlContinue, after_Final cend) s1
              (run_tr ++ [ApiFinal cend err] ++
               (if Test err
                then map Go (Retry cb "p4 connection dropped: " (Some err))
                else []))).
Proof.
  unfold lease_body, set_arguments.
  destruct (SetArgs (Z.to_nat argc) _ joined argv 0 0) as [crun|] eqn:Hargs;
    [|left; reflexivity].
  right. apply SetArgs_sets_vars in Hargs as (vs & Hcrun & _).
  cbv beta iota zeta delta [bind ret api_Run].
  destruct (be_Run B crun (c_str cmdstr) (world s)) as [[calls d] w]. cbn [fst snd].
  exists crun, calls, d.
  destruct d; cbn [Dropped after_Run c_dropped negb].
  - cbv beta iota zeta delta [api_Final emit ret]. cbn [world set_world fst snd].
    set (fin := be_Final B (after_Run crun true) w).
    exists (set_world (snd fin) (set_world w s)).
    split; [exists vs; exact Hcrun|].
    split; [reflexivity|]. split; [reflexivity|].
    right. split; [reflexivity|]. exists (fst fin).
    destruct (Test (fst fin)); cbn [app]; rewrite ?app_nil_r, <- ?app_assoc;
      reflexivity.
  - exists (set_world w s).
    split; [exists vs; exact Hcrun|].
    split; [reflexivity|]. split; [reflexivity|].
    left. split; [reflexivity|].
    unfold GetUser, GetPassword.
    destruct (override userStr passwdStr); rewrite ?app_nil_r; reflexivity.
Qed.

(** One round of the loop, case by case: the behaviour is undefined (the
    argument table leads outside the buffer), or acquisition fails, or a
    session [c] is leased (from the idle queue or fresh), [Run] is called on
    [crun] with outcome [d] (dropped or not), and the handle [crel] goes to the
    deleter. *)
Lemma iteration_cases (init_us : Z) (s : State W) :
  let it := iteration B cb cmdstr userStr passwdStr joined argc argv tag init_us s in
  it = Undefined \/
  (exists c err s1,
      clients_ tag s = [] /\ Test err = true /\
      (forall tg, clients_ tg s1 = clients_ tg s) /\
      it = Done (CtlReturn, init_us) s1
             [ApiInit c err; ApiDelete c;
              Go (gop4apiHandleError (cbid_ cb)
                    ("error initializing client: " ++ Fmt err)%string
                    (Z.of_nat (String.length
                       ("error initializing client: " ++ Fmt err)%string)))]) \/
  (exists c u tacq crun calls d tfin s1,
      ((In c (clients_ tag s) /\ tacq = [] /\ u = init_us) \/
       (exists err start stop,
           clients_ tag s = [] /\ Test err = false /\
           tacq = [ApiInit c err; Fresh c (Some (start, stop))] /\
           u = wrap32 (init_us + Z.quot (stop - start) 1000))) /\
      run_handle userStr passwdStr c crun /\
      let cend := after_Run crun d in
      let crel :=
        if d then after_Final cend
        else if override userStr passwdStr
             then SetPassword (SetUser cend (c_user c)) (c_password c)
             else cend in
      let q1 := snd (take_front (clients_ tag s)) in
      (if d
       then exists err,
              tfin = [ApiFinal cend err] ++
                     (if Test err
                      then map Go (Retry cb "p4 connection dropped: " (Some err))
                      else [])
       else tfin = []) /\
      (forall tg, clients_ tg s1 =
         if Bool.eqb tg tag then fst (give_back q1 crel) else clients_ tg s) /\
      it = Done (if d then CtlContinue else CtlBreak, u) s1
             (tacq ++
              ([RunBegin crun (c_str cmdstr)] ++ flat_map (sink cb) calls ++ [RunEnd cend])
              ++ tfin ++
              (if snd (give_back q1 crel) then [ApiDelete crel] else []))).
Proof.
  intros it. subst it. unfold iteration.
  destruct (Pool_Client_cases init_us s) as (s0 & Hq0 & Hacq).
  destruct Hacq as [(c & rest & Hq & HPC) | [(c & err & Hq & Ht & HPC)
                      | (c & err & start & stop & Hq & Ht & HPC)]].
  2:{ right. left. exists c, err, s0. split; [exact Hq|]. split; [exact Ht|].
      split.
      - intros tg. rewrite Hq0, Hq. simpl. now destruct (Bool.eqb tg tag) eqn:E;
          [apply Bool.eqb_prop in E; subst|].
      - unfold bind. rewrite HPC. reflexivity. }
  all: unfold bind; rewrite HPC; cbv beta iota zeta;
    destruct (lease_body_cases c s0)
      as [Hund | (crun & calls & d & s1 & Hrun & Hdp & Htp & Hends)];
    [left; rewrite Hund; reflexivity|];
    right; right;
    assert (Hq1 : forall tg, clients_ tg s1 = clients_ tg s0)
      by (intros [|]; unfold clients_; congruence);
    cbv zeta in Hends;
    destruct Hends as [(-> & Hlb) | (-> & ferr & Hlb)].
  all: exists c; do 2 eexists; exists crun, calls;
    match goal with
    | _ : lease_body _ _ _ _ _ _ _ _ _ _ = Done (CtlBreak, _) _ _ |- _ => exists false
    | _ => exists true
    end; do 2 eexists;
    (split; [first [left; split; [rewrite Hq; left; reflexivity|split; reflexivity]
                   | right; do 3 eexists; split; [exact Hq|];
                     split; [exact Ht|]; split; reflexivity]|]);
    (split; [exact Hrun|]); cbv zeta;
    (split; [first [reflexivity | exists ferr; reflexivity]|]);
    rewrite Hlb; cbv beta iota zeta;
    unfold deleter, ret; rewrite Hq1, Hq0, Bool.eqb_reflx;
    (split; [|cbn [app]; rewrite ?app_nil_r, <- ?app_assoc; reflexivity]);
    intros tg; rewrite clients_set_clients;
    (destruct (Bool.eqb tg tag) eqn:E; [reflexivity|]); now rewrite Hq1, Hq0, E.
Qed.

Lemma p4runcb_loop_inv (fuel : nat) (init_us r : Z) (s s' : State W)
    (tr : list Action) :
  p4runcb_loop B (S fuel) cb cmdstr userStr passwdStr joined argc argv tag init_us s =
    Done r s' tr ->
  exists ctl u s1 t1,
    iteration B cb cmdstr userStr passwdStr joined argc argv tag init_us s =
      Done (ctl, u) s1 t1 /\
    ((ctl = CtlContinue /\
      exists t2,
        p4runcb_loop B fuel cb cmdstr userStr passwdStr joined argc argv tag u s1 =
          Done r s' t2 /\ tr = t1 ++ t2) \/
     (ctl <> CtlContinue /\ r = u /\ s' = s1 /\ tr = t1)).
Proof.
  cbn [p4runcb_loop]. intros H.
  apply bind_Done in H as ([ctl u] & s1 & t1 & t2 & Hit & Hk & ->).
  exists ctl, u, s1, t1. split; [exact Hit|].
  destruct ctl.
  - right. apply Done_inj in Hk as (<- & <- & <-). rewrite app_nil_r.
    repeat split; discriminate.
  - right. apply Done_inj in Hk as (<- & <- & <-). rewrite app_nil_r.
    repeat split; discriminate.
  - left. split; [reflexivity|]. exists t2. auto.
Qed.

(** In one round, retry notices match the failed [Final] calls, and [Final]
    calls match the drops. *)
Lemma iteration_counts (init_us u : Z) (s s1 : State W) (ctl : Ctl)
    (t1 : list Action) :
  iteration B cb cmdstr userStr passwdStr joined argc argv tag init_us s =
    Done (ctl, u) s1 t1 ->
  count is_retry t1 = count is_final_error t1 /\
  count is_final t1 = count is_drop t1.
Proof.
  intros H.
  destruct (iteration_cases init_us s)
    as [Hu | [(c & err & s2 & _ & _ & _ & Hit)
             | (c & u' & tacq & crun & calls & d & tfin & s2 & Hacq & _ & Hrest)]].
  - rewrite Hu in H. discriminate.
  - rewrite Hit in H. apply Done_inj in H as (_ & _ & <-). split; reflexivity.
  - cbv zeta in Hrest. destruct Hrest as (Hfin & _ & Hit).
    rewrite Hit in H. apply Done_inj in H as (_ & _ & <-). clear Hit.
    rewrite !count_app, !count_sink by (intros [[]| | | | | | | |]; simpl; congruence).
    assert (Hdel : forall (p : Action -> bool) (b : bool) (x : ClientApi),
               (forall y, p (ApiDelete y) = false) ->
               count p (if b then [ApiDelete x] else []) = 0%nat).
    { intros p [|] x Hp; unfold count; simpl; [rewrite Hp|]; reflexivity. }
    rewrite !Hdel by reflexivity.
    assert (Hacq0 : forall p : Action -> bool,
               (forall y e, p (ApiInit y e) = false) ->
               (forall y e, p (Fresh y e) = false) -> count p tacq = 0%nat).
    { intros p Hp1 Hp2.
      destruct Hacq as [(_ & -> & _) | (e & st & sp & _ & _ & -> & _)];
        unfold count; simpl; rewrite ?Hp1, ?Hp2; reflexivity. }
    rewrite !Hacq0 by reflexivity.
    destruct d.
    + destruct Hfin as (err & ->). unfold count. simpl.
      destruct (Test err); simpl; split; reflexivity.
    + subst tfin. split; reflexivity.
Qed.

(** Fuel only bounds the number of rounds: a loop that returned returns the
    same with more fuel, and fuel runs out only when every round found its
    session dropped. *)
Lemma p4runcb_loop_more_fuel (fuel : nat) :
  forall (init_us r : Z) (s s' : State W) (tr : list Action) (k : nat),
    p4runcb_loop B fuel cb cmdstr userStr passwdStr joined argc argv tag init_us s =
      Done r s' tr ->
    p4runcb_loop B (fuel + k) cb cmdstr userStr passwdStr joined argc argv tag
      init_us s = Done r s' tr.
Proof.
  induction fuel as [|fuel IH]; intros init_us r s s' tr k H; [discriminate|].
  apply p4runcb_loop_inv in H
    as (ctl & u & s1 & t1 & Hit & [(-> & t2 & Hloop & ->) | (Hctl & -> & -> & ->)]).
  - apply (IH _ _ _ _ _ k) in Hloop.
    cbn [Nat.add p4runcb_loop]. unfold bind. rewrite Hit. cbv beta iota.
    rewrite Hloop. reflexivity.
  - cbn [Nat.add p4runcb_loop]. unfold bind. rewrite Hit.
    destruct ctl; [| |congruence]; cbv beta iota; unfold ret;
      now rewrite app_nil_r.
Qed.

Lemma p4runcb_loop_out_of_fuel (fuel : nat) (init_us : Z) (s : State W) :
  p4runcb_loop B (S fuel) cb cmdstr userStr passwdStr joined argc argv tag
    init_us s = OutOfFuel ->
  exists u s1 t1,
    iteration B cb cmdstr userStr passwdStr joined argc argv tag init_us s =
      Done (CtlContinue, u) s1 t1 /\
    p4runcb_loop B fuel cb cmdstr userStr passwdStr joined argc argv tag u s1 =
      OutOfFuel.
Proof.
  cbn [p4runcb_loop]. unfold bind. intros H.
  destruct (iteration_cases init_us s)
    as [Hu | [(c & err & s2 & _ & _ & _ & Hit)
             | (c & u & tacq & crun & calls & d & tfin & s2 & _ & _ & Hrest)]].
  - rewrite Hu in H. discriminate.
  - rewrite Hit in H. discriminate.
  - cbv zeta in Hrest. destruct Hrest as (_ & _ & Hit). rewrite Hit in H.
    destruct d; cbv beta iota in H; [|discriminate].
    exists u, s2. eexists. split; [exact Hit|].
    destruct (p4runcb_loop B fuel cb cmdstr userStr passwdStr joined argc argv
                tag u s2); [discriminate|discriminate|reflexivity].
Qed.

Lemma loop_counts (fuel : nat) :
  forall (init_us r : Z) (s s' : State W) (tr : list Action),
    p4runcb_loop B fuel cb cmdstr userStr passwdStr joined argc argv tag init_us s =
      Done r s' tr ->
    count is_retry tr = count is_final_error tr /\
    count is_final tr = count is_drop tr.
Proof.
  induction fuel as [|fuel IH]; intros init_us r s s' tr H; [discriminate|].
  apply p4runcb_loop_inv in H
    as (ctl & u & s1 & t1 & Hit & [(_ & t2 & Hloop & ->) | (_ & _ & _ & ->)]).
  - apply iteration_counts in Hit as [H1 H2].
    apply IH in Hloop as [H3 H4]. rewrite !count_app. lia.
  - eapply iteration_counts, Hit.
Qed.

End Loop.

(* ------------------------------------------------------------------------- *)
(** ** Drops and retry notices *)

Lemma In_sink_from_sink (cb : ClientCb) (calls : list SinkCall) (a : Action) :
  In a (flat_map (sink cb) calls) -> from_sink a = true.
Proof.
  intros H. pose proof (sink_from_sink cb calls) as Hall.
  rewrite Forall_forall in Hall. apply Hall, H.
Qed.

(** A round that leaves the session dropped: what it does from there on. *)
Lemma dropped_round {W : Type} (B : Backend W) (cb : ClientCb)
    (cmdstr userStr passwdStr : string) (joined : strview) (argc : Z)
    (argv : list Z) (tag : bool) (init_us u : Z) (s s1 : State W) (ctl : Ctl)
    (t1 : list Action) (c : ClientApi) :
  iteration B cb cmdstr userStr passwdStr joined argc argv tag init_us s =
    Done (ctl, u) s1 t1 ->
  In (RunEnd c) t1 -> Dropped c = true ->
  ctl = CtlContinue /\
  (forall tg, clients_ tg s1 =
     if Bool.eqb tg tag then snd (take_front (clients_ tag s)) else clients_ tg s) /\
  exists pre err,
    count is_retry pre = 0%nat /\
    t1 = pre ++ [RunEnd c; ApiFinal c err] ++
         (if Test err
          then [Go (gop4apiRetry (cbid_ cb) "p4 connection dropped: " (Fmt err)
                      (Z.of_nat (String.length (Fmt err))))]
          else []) ++
         [ApiDelete (after_Final c)].
Proof.
  intros H Hin Hd.
  destruct (iteration_cases B cb cmdstr userStr passwdStr joined argc argv tag
              init_us s)
    as [Hu | [(c0 & err & s2 & _ & _ & _ & Hit)
             | (c0 & u' & tacq & crun & calls & d & tfin & s2 & Hacq & _ & Hrest)]].
  - rewrite Hu in H. discriminate.
  - rewrite Hit in H. apply Done_inj in H as (_ & _ & <-).
    cbn [In app] in Hin. intuition discriminate.
  - cbv zeta in Hrest. destruct Hrest as (Hfin & Hq & Hit).
    rewrite Hit in H. apply Done_inj in H as (Hctl & <- & <-). clear Hit.
    assert (Hc : c = after_Run crun d).
    { repeat (apply in_app_or in Hin as [Hin | Hin]).
      - destruct Hacq as [(_ & -> & _) | (e & st & sp & _ & _ & -> & _)];
          cbn [In app] in Hin; intuition discriminate.
      - cbn [In app] in Hin. intuition discriminate.
      - apply In_sink_from_sink in Hin. discriminate.
      - cbn [In app] in Hin. destruct Hin as [Hin|[]]. congruence.
      - destruct d.
        + destruct Hfin as (e & ->). apply in_app_or in Hin as [Hin|Hin].
          * cbn [In app] in Hin. intuition discriminate.
          * destruct (Test e); cbn [In app map Retry] in Hin; intuition discriminate.
        + subst tfin. destruct Hin.
      - destruct (snd (give_back _ _)); cbn [In app] in Hin; intuition discriminate. }
    subst c. cbn in Hd. subst d.
    injection Hctl as <- <-. split; [reflexivity|].
    destruct Hfin as (err & ->).
    assert (Hgb : forall q, give_back q (after_Final (after_Run crun true)) = (q, true))
      by reflexivity.
    split.
    { intros tg. rewrite Hq, Hgb. reflexivity. }
    exists (tacq ++ [RunBegin crun (c_str cmdstr)] ++ flat_map (sink cb) calls), err.
    split.
    + rewrite !count_app, count_sink by (intros [[]| | | | | | | |]; simpl; congruence).
      destruct Hacq as [(_ & -> & _) | (e & st & sp & _ & _ & -> & _)]; reflexivity.
    + rewrite Hgb. cbn [snd]. unfold Retry. cbn [map].
      rewrite <- !app_assoc. cbn [app]. reflexivity.
Qed.

(** C1 (as the code has it).  When a round finds the session dropped after
    [Run], it calls [Final] and emits a retry notice for the drop only if
    [Final] reports an error: then exactly one, with the context
    "p4 connection dropped: " and the text of that error, right after [Final];
    the session is then deleted, never queued, and the loop goes on to a new
    lease.  Over a whole call the retry notices are as many as the [Final]
    calls that reported an error, and the [Final] calls as many as the
    drops. *)
Theorem retry_notice_iff_final_fails :
  forall (W : Type) (B : Backend W),
    (forall (cb : ClientCb) (cmdstr userStr passwdStr : string)
            (joined : strview) (argc : Z) (argv : list Z) (tag : bool)
            (init_us u : Z) (s s1 : State W) (ctl : Ctl) (t1 : list Action)
            (c : ClientApi),
        iteration B cb cmdstr userStr passwdStr joined argc argv tag init_us s =
          Done (ctl, u) s1 t1 ->
        In (RunEnd c) t1 -> Dropped c = true ->
        ctl = CtlContinue /\
        (forall tg, clients_ tg s1 =
           if Bool.eqb tg tag then snd (take_front (clients_ tag s))
           else clients_ tg s) /\
        exists pre err,
          count is_retry pre = 0%nat /\
          t1 = pre ++ [RunEnd c; ApiFinal c err] ++
               (if Test err
                then [Go (gop4apiRetry (cbid_ cb) "p4 connection dropped: "
                            (Fmt err) (Z.of_nat (String.length (Fmt err))))]
                else []) ++
               [ApiDelete (after_Final c)]) /\
    (forall (fuel : nat) (cmd user passwd input joined : strview) (argc : Z)
            (argv : list Z) (cbid : Z) (tag : bool) (s s' : State W) (r : Z)
            (tr : list Action),
        p4runcb B fuel cmd user passwd input joined argc argv cbid tag s =
          Done r s' tr ->
        count is_retry tr = count is_final_error tr /\
        count is_final tr = count is_drop tr).
Proof.
  intros W B. split.
  - intros. eapply dropped_round; eassumption.
  - intros fuel cmd user passwd input joined argc argv cbid tag s s' r tr H.
    unfold p4runcb in H. eapply loop_counts, H.
Qed.

Lemma retry_notice_iff_final_fails_witness :
  exists r s' tr,
    p4runcb scripted 2 "sync" "" "" "" "" 0 [] 7 false (start_state loud_drop) =
      Done r s' tr /\
    count is_drop tr = 1%nat /\
    count is_final_error tr = 1%nat /\
    count is_retry tr = count is_final_error tr.
Proof.
  eexists _, _, _. split; [vm_compute; reflexivity|].
  split; [reflexivity|]. split; [reflexivity|].
  refine (proj1 (proj2 (retry_notice_iff_final_fails Script scripted)
                   2%nat "sync" "" "" "" "" 0 [] 7 false (start_state loud_drop)
                   _ _ _ _)).
  vm_compute. reflexivity.
Defined.

(** C1 as stated fails: one drop whose [Final] reports no error.  The call
    retries and succeeds, and no retry notice is emitted for the drop. *)
Lemma quiet_final_drop_has_no_retry_notice :
  exists r s' tr,
    p4runcb scripted 2 "sync" "" "" "" "" 0 [] 7 false (start_state quiet_drop) =
      Done r s' tr /\
    count is_drop tr = 1%nat /\
    count is_retry tr = 0%nat /\
    go_events tr = [gop4apiOutputText 7 "ok" 2].
Proof.
  eexists _, _, _. split; [vm_compute; reflexivity|].
  repeat split.
Qed.

(* ------------------------------------------------------------------------- *)
(** ** Acquisition failure *)

Lemma split_after_clean_prefix (p : Action -> bool) (t1 : list Action) :
  forall (t2 pre post : list Action) (a : Action),
    Forall (fun x => p x = false) t1 -> p a = true ->
    t1 ++ t2 = pre ++ a :: post ->
    exists pre', pre = t1 ++ pre' /\ t2 = pre' ++ a :: post.
Proof.
  induction t1 as [|x t1 IH]; intros t2 pre post a Hclean Ha Heq.
  - exists pre. auto.
  - inversion Hclean as [|? ? Hx Hrest]; subst.
    destruct pre as [|y pre]; simpl in Heq.
    + injection Heq as -> _. congruence.
    + injection Heq as -> Heq.
      destruct (IH _ _ _ _ Hrest Ha Heq) as (pre' & -> & ->).
      exists pre'. auto.
Qed.

Section Acquisition.

Context {W : Type} (B : Backend W).
Variables (cb : ClientCb) (cmdstr userStr passwdStr : string)
          (joined : strview) (argc : Z) (argv : list Z) (tag : bool).

(** A round either ends the call on a failed [Init], or has no failed
    [Init] in it. *)
Lemma iteration_failed_init (init_us u : Z) (s s1 : State W) (ctl : Ctl)
    (t1 : list Action) :
  iteration B cb cmdstr userStr passwdStr joined argc argv tag init_us s =
    Done (ctl, u) s1 t1 ->
  (ctl = CtlReturn /\ u = init_us /\
   (forall tg, clients_ tg s1 = clients_ tg s) /\
   exists c err,
     Test err = true /\
     t1 = [ApiInit c err; ApiDelete c] ++
          map Go (HandleError_msg cb ("error initializing client: " ++ Fmt err)%string)) \/
  (ctl <> CtlReturn /\ Forall (fun a => failed_init a = false) t1).
Proof.
  intros H.
  destruct (iteration_cases B cb cmdstr userStr passwdStr joined argc argv tag
              init_us s)
    as [Hu | [(c0 & err & s2 & _ & Ht & Hq & Hit)
             | (c0 & u' & tacq & crun & calls & d & tfin & s2 & Hacq & _ & Hrest)]].
  - rewrite Hu in H. discriminate.
  - rewrite Hit in H. apply Done_inj in H as (Hctl & <- & <-).
    left. injection Hctl as <- <-.
    split; [reflexivity|]. split; [reflexivity|]. split; [exact Hq|].
    exists c0, err. auto.
  - cbv zeta in Hrest. destruct Hrest as (Hfin & _ & Hit).
    rewrite Hit in H. apply Done_inj in H as (Hctl & _ & <-). clear Hit.
    right. split; [injection Hctl as <- _; destruct d; discriminate|].
    apply Forall_app; split; [|apply Forall_app; split;
      [apply Forall_app; split; [|apply Forall_app; split]
      |apply Forall_app; split]].
    + destruct Hacq as [(_ & -> & _) | (e & st & sp & _ & He & -> & _)];
        repeat constructor. exact He.
    + repeat constructor.
    + eapply Forall_impl; [|apply sink_from_sink].
      intros [[]| | | | | | | |]; simpl; congruence.
    + repeat constructor.
    + destruct d.
      * destruct Hfin as (e & ->). destruct (Test e); repeat constructor.
      * subst tfin. constructor.
    + destruct (snd (give_back _ _)); repeat constructor.
Qed.

(** When [Pool::Client] gives no session, the loop ends there. *)
Lemma loop_ends_on_failed_acquisition (fuel : nat) (init_us : Z) (s s0 : State W)
    (ns : option Z) (errmsg : option string) (fr : bool) (tacq : list Action) :
  Pool_Client B tag (Some init_us) (Some "") false s =
    Done (None, ns, errmsg, fr) s0 tacq ->
  exists c err,
    clients_ tag s = [] /\ Test err = true /\
    tacq = [ApiInit c err; ApiDelete c] /\
    errmsg = Some ("error initializing client: " ++ Fmt err)%string /\
    (forall tg, clients_ tg s0 = clients_ tg s) /\
    p4runcb_loop B (S fuel) cb cmdstr userStr passwdStr joined argc argv tag
      init_us s =
      Done init_us s0
        (tacq ++
         map Go (HandleError_msg cb ("error initializing client: " ++ Fmt err)%string)).
Proof.
  intros H.
  destruct (Pool_Client_cases B tag init_us s) as (s2 & Hq & Hacq).
  destruct Hacq as [(c & rest & _ & HPC) | [(c & err & Hempty & Ht & HPC)
                      | (c & err & start & stop & _ & _ & HPC)]].
  - rewrite HPC in H. apply Done_inj in H as (H & _). discriminate.
  - pose proof H as H0. rewrite HPC in H.
    apply Done_inj in H as (Hv & <- & <-).
    exists c, err. split; [exact Hempty|]. split; [exact Ht|].
    split; [reflexivity|]. split; [congruence|]. split.
    + intros tg. rewrite Hq, Hempty. simpl. now destruct (Bool.eqb tg tag) eqn:E;
        [apply Bool.eqb_prop in E; subst|].
    + cbn [p4runcb_loop]. unfold iteration, bind. rewrite HPC. reflexivity.
  - rewrite HPC in H. apply Done_inj in H as (H & _). discriminate.
Qed.

(** In the trace of a loop that returned, a failed [Init] is followed by the
    deletion of the handle, one error event, and nothing else. *)
Lemma loop_failed_init_is_last (fuel : nat) :
  forall (init_us r : Z) (s s' : State W) (tr pre post : list Action)
         (c : ClientApi) (err : Error),
    p4runcb_loop B fuel cb cmdstr userStr passwdStr joined argc argv tag init_us s =
      Done r s' tr ->
    tr = pre ++ ApiInit c err :: post -> Test err = true ->
    post = ApiDelete c ::
           map Go (HandleError_msg cb ("error initializing client: " ++ Fmt err)%string).
Proof.
  induction fuel as [|fuel IH];
    intros init_us r s s' tr pre post c err H Htr Hfail; [discriminate|].
  apply p4runcb_loop_inv in H
    as (ctl & u & s1 & t1 & Hit & [(-> & t2 & Hloop & ->) | (Hctl & _ & _ & ->)]).
  - apply iteration_failed_init in Hit as [(Hc & _) | (_ & Hclean)];
      [discriminate|].
    destruct (split_after_clean_prefix failed_init t1 t2 pre post (ApiInit c err)
                Hclean Hfail Htr) as (pre' & _ & Ht2).
    eapply IH; eassumption.
  - apply iteration_failed_init in Hit
      as [(_ & _ & _ & c0 & err0 & Ht0 & Ht1) | (_ & Hclean)].
    + rewrite Htr in Ht1. clear Htr.
      change (pre ++ ApiInit c err :: post =
              [ApiInit c0 err0; ApiDelete c0] ++ map Go (HandleError_msg cb
                 ((fun e => "error initializing client: " ++ Fmt e)%string err0)))
        in Ht1.
      change (post = ApiDelete c :: map Go (HandleError_msg cb
                 ((fun e => "error initializing client: " ++ Fmt e)%string err))).
      generalize dependent (fun e => "error initializing client: " ++ Fmt e)%string.
      intros msg Ht1.
      destruct pre as [|x [|y pre]]; simpl in Ht1.
      * injection Ht1 as -> -> ->. reflexivity.
      * injection Ht1 as _ Ht1. discriminate.
      * injection Ht1 as _ _ Ht1.
        assert (Hin : In (ApiInit c err) (pre ++ ApiInit c err :: post))
          by (apply in_or_app; right; left; reflexivity).
        rewrite Ht1 in Hin. destruct Hin as [Hin|[]]. discriminate.
    + exfalso. rewrite Htr in Hclean. apply Forall_app in Hclean as [_ Hclean].
      inversion Hclean as [|? ? Hx _]. cbn [failed_init] in Hx. congruence.
Qed.

End Acquisition.

(** C4. When acquisition fails (the idle queue is empty and [Init] of the
    new handle reports an error, so [Pool::Client] gives no session), the
    loop emits one error event carrying "error initializing client: " and the
    text of the error, and returns at once with [init_us] as it was: no retry
    notice, no further acquisition, no change to the idle queues.  In the
    trace of any call that returned, a failed [Init] is followed by the
    deletion of the handle, that one error event, and the end of the trace. *)
Theorem acquisition_failure_is_terminal :
  forall (W : Type) (B : Backend W),
    (forall (cb : ClientCb) (cmdstr userStr passwdStr : string)
            (joined : strview) (argc : Z) (argv : list Z) (tag : bool)
            (fuel : nat) (init_us : Z) (s s0 : State W) (ns : option Z)
            (errmsg : option string) (fr : bool) (tacq : list Action),
        Pool_Client B tag (Some init_us) (Some "") false s =
          Done (None, ns, errmsg, fr) s0 tacq ->
        exists c err tr,
          clients_ tag s = [] /\ Test err = true /\
          tacq = [ApiInit c err; ApiDelete c] /\
          p4runcb_loop B (S fuel) cb cmdstr userStr passwdStr joined argc argv
            tag init_us s = Done init_us s0 tr /\
          go_events tr =
            [gop4apiHandleError (cbid_ cb)
               ("error initializing client: " ++ Fmt err)%string
               (Z.of_nat (String.length
                  ("error initializing client: " ++ Fmt err)%string))] /\
          count is_retry tr = 0%nat /\
          count failed_init tr = 1%nat /\
          (forall tg, clients_ tg s0 = clients_ tg s)) /\
    (forall (fuel : nat) (cmd user passwd input joined : strview) (argc : Z)
            (argv : list Z) (cbid : Z) (tag : bool) (s s' : State W) (r : Z)
            (tr pre post : list Action) (c : ClientApi) (err : Error),
        p4runcb B fuel cmd user passwd input joined argc argv cbid tag s =
          Done r s' tr ->
        tr = pre ++ ApiInit c err :: post -> Test err = true ->
        post = [ApiDelete c;
                Go (gop4apiHandleError cbid
                      ("error initializing client: " ++ Fmt err)%string
                      (Z.of_nat (String.length
                         ("error initializing client: " ++ Fmt err)%string)))]).
Proof.
  intros W B. split.
  - intros cb cmdstr userStr passwdStr joined argc argv tag fuel init_us s s0
           ns errmsg fr tacq H.
    destruct (loop_ends_on_failed_acquisition B cb cmdstr userStr passwdStr
                joined argc argv tag fuel init_us s s0 ns errmsg fr tacq H)
      as (c & err & Hempty & Ht & -> & _ & Hq & Hloop).
    exists c, err. eexists. split; [exact Hempty|]. split; [exact Ht|].
    split; [reflexivity|]. split; [exact Hloop|].
    split; [reflexivity|]. split; [reflexivity|].
    split; [|exact Hq].
    unfold count. simpl. rewrite Ht. reflexivity.
  - intros fuel cmd user passwd input joined argc argv cbid tag s s' r tr pre
           post c err H Htr Hfail.
    unfold p4runcb in H.
    eapply (loop_failed_init_is_last B) in H; [|exact Htr|exact Hfail].
    exact H.
Qed.

Lemma acquisition_failure_is_terminal_witness :
  exists err tr s0,
    Test err = true /\
    p4runcb_loop scripted 3 {| cbid_ := 7; input_ := "" |} "sync" "alice" "pw" ""
      0 [] true 0 (start_state init_fails) = Done 0 s0 tr /\
    go_events tr =
      [gop4apiHandleError 7
         ("error initializing client: " ++ Fmt err)%string
         (Z.of_nat (String.length
            ("error initializing client: " ++ Fmt err)%string))] /\
    count is_retry tr = 0%nat /\
    count failed_init tr = 1%nat.
Proof.
  assert (Hacq :
    Pool_Client scripted true (Some 0) (Some "") false (start_state init_fails) =
      Done (None, Some 0,
            Some "error initializing client: Connect to server failed", false)
           (state_of (Pool_Client scripted true (Some 0) (Some "") false
                        (start_state init_fails)) (start_state init_fails))
           (trace_of (Pool_Client scripted true (Some 0) (Some "") false
                        (start_state init_fails))))
    by (vm_compute; reflexivity).
  destruct (proj1 (acquisition_failure_is_terminal Script scripted)
              {| cbid_ := 7; input_ := "" |} "sync" "alice" "pw" "" 0 []
              true 2%nat 0 _ _ _ _ _ _ Hacq)
    as (c & err & tr & _ & Ht & _ & Hloop & Hgo & Hretry & Hinit & _).
  exists err, tr. eexists. eauto 10.
Defined.

(* ------------------------------------------------------------------------- *)
(** ** Credentials *)

Lemma run_handle_facts (userStr passwdStr : string) (c crun : ClientApi) :
  run_handle userStr passwdStr c crun ->
  c_id crun = c_id c /\
  creds crun =
    if override userStr passwdStr then (c_str userStr, c_str passwdStr) else creds c.
Proof.
  intros (vs & ->). split.
  - assert (Hid : forall vs c0, c_id (fold_left SetVar vs c0) = c_id c0).
    { induction vs0 as [|v vs0 IH]; intros c0; simpl; [reflexivity|].
      now rewrite IH. }
    rewrite Hid. destruct (override userStr passwdStr); reflexivity.
  - rewrite creds_fold_SetVar.
    destruct (override userStr passwdStr); reflexivity.
Qed.

Lemma override_on (userStr passwdStr : string) :
  userStr <> "" -> passwdStr <> "" -> override userStr passwdStr = true.
Proof.
  intros Hu Hp. unfold override.
  destruct userStr; [congruence|]. destruct passwdStr; [congruence|]. reflexivity.
Qed.

Lemma In_fresh_sessions_app (t1 t2 : list Action) (c : ClientApi) :
  In c (fresh_sessions (t1 ++ t2)) <->
  In c (fresh_sessions t1) \/ In c (fresh_sessions t2).
Proof.
  unfold fresh_sessions. rewrite flat_map_app. apply in_app_iff.
Qed.

(** What a round that leased a session leaves behind: the session [c]
    leased, the handle [crun] that [Run] saw, the handle [crel] given to the
    deleter. *)
Lemma leased_round {W : Type} (B : Backend W) (cb : ClientCb)
    (cmdstr userStr passwdStr : string) (joined : strview) (argc : Z)
    (argv : list Z) (tag : bool) (init_us u : Z) (s s1 : State W) (ctl : Ctl)
    (t1 : list Action) :
  iteration B cb cmdstr userStr passwdStr joined argc argv tag init_us s =
    Done (ctl, u) s1 t1 ->
  ctl <> CtlReturn ->
  exists c crun crel,
    (In c (clients_ tag s) \/ In c (fresh_sessions t1)) /\
    In (RunBegin crun (c_str cmdstr)) t1 /\
    c_id crun = c_id c /\
    creds crun = (if override userStr passwdStr
                  then (c_str userStr, c_str passwdStr) else creds c) /\
    c_id crel = c_id c /\
    (Dropped crel = false -> creds crel = creds c) /\
    (Dropped crel = false <-> ctl = CtlBreak) /\
    (forall tg, clients_ tg s1 =
       if Bool.eqb tg tag
       then fst (give_back (snd (take_front (clients_ tag s))) crel)
       else clients_ tg s).
Proof.
  intros H Hctl.
  destruct (iteration_cases B cb cmdstr userStr passwdStr joined argc argv tag
              init_us s)
    as [Hu | [(c0 & err & s2 & _ & _ & _ & Hit)
             | (c & u' & tacq & crun & calls & d & tfin & s2 & Hacq & Hrun & Hrest)]].
  - rewrite Hu in H. discriminate.
  - rewrite Hit in H. apply Done_inj in H as (Hc & _). congruence.
  - cbv zeta in Hrest. destruct Hrest as (Hfin & Hq & Hit).
    rewrite Hit in H. apply Done_inj in H as (Hc & <- & <-). clear Hit.
    apply run_handle_facts in Hrun as (Hid & Hcreds).
    exists c, crun.
    eexists. split; [|split; [|split; [exact Hid|split; [exact Hcreds|
      split; [|split; [|split; [|exact Hq]]]]]]].
    + destruct Hacq as [(Hin & _) | (e & st & sp & _ & _ & -> & _)];
        [left; exact Hin | right; left; reflexivity].
    + apply in_or_app. right. apply in_or_app. left. left. reflexivity.
    + destruct d; [exact Hid|].
      destruct (override userStr passwdStr); exact Hid.
    + destruct d; [discriminate|]. intros _.
      destruct (override userStr passwdStr) eqn:Ho; [reflexivity|].
      exact Hcreds.
    + injection Hc as <- _. destruct d.
      * split; discriminate.
      * split; [reflexivity|]. intros _.
        destruct (override userStr passwdStr); reflexivity.
Qed.

(** C2. With a credential override (user and password both non-empty), a
    round that ends on a session that is not dropped runs the command under
    the override as the library reads it, each string up to its first NUL,
    and gives the deleter the same session with the user and the password it
    had when leased; what the queue then holds beyond what it held is that
    session alone, so a later lease of it sees the credentials from before
    the override. *)
Theorem override_restored_before_release :
  forall (W : Type) (B : Backend W) (cb : ClientCb)
         (cmdstr userStr passwdStr : string) (joined : strview) (argc : Z)
         (argv : list Z) (tag : bool) (init_us u : Z) (s s1 : State W)
         (t1 : list Action),
    userStr <> "" -> passwdStr <> "" ->
    iteration B cb cmdstr userStr passwdStr joined argc argv tag init_us s =
      Done (CtlBreak, u) s1 t1 ->
    exists c crun crel,
      (In c (clients_ tag s) \/ In c (fresh_sessions t1)) /\
      In (RunBegin crun (c_str cmdstr)) t1 /\
      c_id crun = c_id c /\ c_user crun = c_str userStr /\ c_password crun = c_str passwdStr /\
      Dropped crel = false /\
      c_id crel = c_id c /\ c_user crel = c_user c /\
      c_password crel = c_password c /\
      clients_ tag s1 = fst (give_back (snd (take_front (clients_ tag s))) crel) /\
      (forall x, In x (clients_ tag s1) ->
                 In x (snd (take_front (clients_ tag s))) \/ x = crel) /\
      (Z.of_nat (List.length (snd (take_front (clients_ tag s)))) < kMaxClients ->
       clients_ tag s1 = snd (take_front (clients_ tag s)) ++ [crel]).
Proof.
  intros W B cb cmdstr userStr passwdStr joined argc argv tag init_us u s s1 t1
         Hu Hp H.
  destruct (leased_round B cb cmdstr userStr passwdStr joined argc argv tag
              init_us u s s1 CtlBreak t1 H ltac:(discriminate))
    as (c & crun & crel & Hc & Hrun & Hid & Hcr & Hidr & Hrest & Hd & Hq).
  rewrite (override_on _ _ Hu Hp) in Hcr.
  assert (Hdr : Dropped crel = false) by (apply Hd; reflexivity).
  specialize (Hrest Hdr). unfold creds in Hcr, Hrest.
  injection Hcr as Hu1 Hp1. injection Hrest as Hu2 Hp2.
  specialize (Hq tag). rewrite Bool.eqb_reflx in Hq.
  exists c, crun, crel. repeat (split; [assumption|]). split.
  - intros x Hx. rewrite Hq in Hx. unfold give_back in Hx.
    destruct (negb (Dropped crel) && _); cbn [fst] in Hx; [|left; exact Hx].
    apply in_app_or in Hx as [Hx | [Hx | []]]; auto.
  - intros Hroom. rewrite Hq. unfold give_back. rewrite Hdr.
    apply Z.ltb_lt in Hroom. rewrite Hroom. reflexivity.
Qed.

Lemma override_restored_before_release_witness :
  exists c crun crel,
    c_user crun = "al" /\ c_password crun = "pw" /\
    c_user crel = c_user c /\ c_password crel = c_password c /\
    clients_ true
      (state_of (iteration scripted {| cbid_ := 7; input_ := "" |} "sync"
                   user_with_nul passwd_with_nul "" 0 [] true 0
                   (start_state clean_run))
                (start_state clean_run)) = [crel] /\
    creds crel = ("builder", "hunter2").
Proof.
  assert (Hit :
    iteration scripted {| cbid_ := 7; input_ := "" |} "sync" user_with_nul
      passwd_with_nul "" 0 [] true 0 (start_state clean_run) =
    Done (CtlBreak, 2500)
         (state_of (iteration scripted {| cbid_ := 7; input_ := "" |} "sync"
                      user_with_nul passwd_with_nul "" 0 [] true 0
                      (start_state clean_run))
                   (start_state clean_run))
         (trace_of (iteration scripted {| cbid_ := 7; input_ := "" |} "sync"
                      user_with_nul passwd_with_nul "" 0 [] true 0
                      (start_state clean_run))))
    by (vm_compute; reflexivity).
  destruct (override_restored_before_release Script scripted
              {| cbid_ := 7; input_ := "" |} "sync" user_with_nul
              passwd_with_nul "" 0 [] true 0
              2500 _ _ _ ltac:(discriminate) ltac:(discriminate) Hit)
    as (c & crun & crel & _ & _ & _ & Hu & Hp & _ & _ & Hu' & Hp' & Hq & _ & Hroom).
  exists c, crun, crel. repeat (split; [assumption|]).
  assert (Hq' : clients_ true
      (state_of (iteration scripted {| cbid_ := 7; input_ := "" |} "sync"
                   user_with_nul passwd_with_nul "" 0 [] true 0
                   (start_state clean_run))
                (start_state clean_run)) = [crel]).
  { apply Hroom. vm_compute. reflexivity. }
  split; [exact Hq'|].
  vm_compute in Hq'. injection Hq' as <-. reflexivity.
Defined.

(** Every session in the idle queues after a call has credentials that an
    idle session had before the call or that a session constructed during
    the call had when constructed. *)
Lemma loop_keeps_credentials {W : Type} (B : Backend W) (cb : ClientCb)
    (cmdstr userStr passwdStr : string) (joined : strview) (argc : Z)
    (argv : list Z) (tag : bool) (Q : string * string -> Prop) (fuel : nat) :
  forall (init_us r : Z) (s s' : State W) (tr : list Action),
    p4runcb_loop B fuel cb cmdstr userStr passwdStr joined argc argv tag init_us s =
      Done r s' tr ->
    (forall tg x, In x (clients_ tg s) -> Q (creds x)) ->
    (forall x, In x (fresh_sessions tr) -> Q (creds x)) ->
    forall tg x, In x (clients_ tg s') -> Q (creds x).
Proof.
  assert (Hround : forall init_us u s s1 ctl t1,
    iteration B cb cmdstr userStr passwdStr joined argc argv tag init_us s =
      Done (ctl, u) s1 t1 ->
    (forall tg x, In x (clients_ tg s) -> Q (creds x)) ->
    (forall x, In x (fresh_sessions t1) -> Q (creds x)) ->
    forall tg x, In x (clients_ tg s1) -> Q (creds x)).
  { intros init_us u s s1 ctl t1 Hit Hpool Hfresh tg x Hx.
    assert (Hsub : forall y, In y (snd (take_front (clients_ tag s))) ->
                             In y (clients_ tag s)).
    { intros y. destruct (clients_ tag s); simpl; auto. }
    destruct (iteration_failed_init B _ _ _ _ _ _ _ _ _ _ _ _ _ _ Hit)
      as [(_ & _ & Hq & _) | (Hctl & _)].
    - rewrite Hq in Hx. eapply Hpool, Hx.
    - destruct (leased_round B _ _ _ _ _ _ _ _ _ _ _ _ _ _ Hit Hctl)
        as (c & crun & crel & Hc & _ & _ & _ & _ & Hcreds & _ & Hq).
      rewrite Hq in Hx. destruct (Bool.eqb tg tag); [|eapply Hpool, Hx].
      unfold give_back in Hx.
      destruct (Dropped crel) eqn:Hd; cbn [negb andb fst] in Hx;
        [eapply Hpool, Hsub, Hx|].
      destruct (_ <? _); cbn [fst] in Hx; [|eapply Hpool, Hsub, Hx].
      apply in_app_or in Hx as [Hx | [<- | []]]; [eapply Hpool, Hsub, Hx|].
      rewrite (Hcreds eq_refl).
      destruct Hc as [Hc | Hc]; [eapply Hpool, Hc | apply Hfresh, Hc]. }
  induction fuel as [|fuel IH]; intros init_us r s s' tr H Hpool Hfresh;
    [discriminate|].
  apply p4runcb_loop_inv in H
    as (ctl & u & s1 & t1 & Hit & [(_ & t2 & Hloop & ->) | (_ & _ & -> & ->)]).
  - eapply IH; [exact Hloop| |].
    + eapply Hround; [exact Hit|exact Hpool|].
      intros x Hx. apply Hfresh, In_fresh_sessions_app. left. exact Hx.
    + intros x Hx. apply Hfresh, In_fresh_sessions_app. right. exact Hx.
  - eapply Hround; eassumption.
Qed.

(** C10. The deleter deletes a dropped session whatever the queue holds, so
    the dropped branch, which does not restore the credentials, never queues
    a session.  Hence over any call that returns, with or without an
    override, every session idle afterwards has the credentials of a session
    idle before or of a session constructed during the call as it was when
    constructed: either no override was put on it or the override was taken
    back.  In particular credentials that no idle or new session carries,
    such as the override, are carried by no idle session afterwards. *)
Theorem dropped_sessions_never_requeued :
  (forall (q : ClientQueue) (c : ClientApi),
      Dropped c = true -> give_back q c = (q, true)) /\
  (forall (W : Type) (tag : bool) (c : ClientApi) (s : State W),
      Dropped c = true -> deleter tag c s = Done tt s [ApiDelete c]) /\
  (forall (W : Type) (B : Backend W) (cb : ClientCb)
          (cmdstr userStr passwdStr : string) (joined : strview) (argc : Z)
          (argv : list Z) (tag : bool) (init_us u : Z) (s s1 : State W)
          (t1 : list Action),
      iteration B cb cmdstr userStr passwdStr joined argc argv tag init_us s =
        Done (CtlContinue, u) s1 t1 ->
      forall tg, clients_ tg s1 =
        if Bool.eqb tg tag then snd (take_front (clients_ tag s))
        else clients_ tg s) /\
  (forall (W : Type) (B : Backend W) (Q : string * string -> Prop) (fuel : nat)
          (cmd user passwd input joined : strview) (argc : Z) (argv : list Z)
          (cbid : Z) (tag : bool) (s s' : State W) (r : Z) (tr : list Action),
      p4runcb B fuel cmd user passwd input joined argc argv cbid tag s =
        Done r s' tr ->
      (forall tg x, In x (clients_ tg s) -> Q (creds x)) ->
      (forall x, In x (fresh_sessions tr) -> Q (creds x)) ->
      forall tg x, In x (clients_ tg s') -> Q (creds x)).
Proof.
  assert (Hgb : forall (q : ClientQueue) (c : ClientApi),
             Dropped c = true -> give_back q c = (q, true)).
  { intros q c Hd. unfold give_back. rewrite Hd. reflexivity. }
  split; [exact Hgb|]. split; [|split].
  - intros W tag c s Hd. unfold deleter. rewrite (Hgb _ _ Hd).
    destruct s as [dp tp w]; destruct tag; reflexivity.
  - intros W B cb cmdstr userStr passwdStr joined argc argv tag init_us u s s1
           t1 Hit tg.
    destruct (leased_round B _ _ _ _ _ _ _ _ _ _ _ _ _ _ Hit ltac:(discriminate))
      as (c & crun & crel & _ & _ & _ & _ & _ & _ & Hd & Hq).
    rewrite Hq. destruct (Bool.eqb tg tag); [|reflexivity].
    rewrite Hgb; [reflexivity|].
    destruct (Dropped crel); [reflexivity|].
    destruct Hd as [Hd _]. specialize (Hd eq_refl). discriminate.
  - intros W B Q fuel cmd user passwd input joined argc argv cbid tag s s' r tr H.
    unfold p4runcb in H. eapply loop_keeps_credentials, H.
Qed.

Lemma dropped_sessions_never_requeued_witness :
  Forall (fun x => creds x = ("builder", "hunter2"))
    (clients_ false
       (state_of (p4runcb scripted 2 "sync" "alice" "pw" "" "" 0 [] 7 false
                    (start_state loud_drop)) (start_state loud_drop))) /\
  give_back full_queue (after_Run (idle_session 1) true) = (full_queue, true) /\
  give_back [] (after_Run (idle_session 1) true) = ([], true).
Proof.
  assert (Hrun :
    p4runcb scripted 2 "sync" "alice" "pw" "" "" 0 [] 7 false
      (start_state loud_drop) =
    Done 9
      (state_of (p4runcb scripted 2 "sync" "alice" "pw" "" "" 0 [] 7 false
                   (start_state loud_drop)) (start_state loud_drop))
      (trace_of (p4runcb scripted 2 "sync" "alice" "pw" "" "" 0 [] 7 false
                   (start_state loud_drop))))
    by (vm_compute; reflexivity).
  split; [|split].
  - apply Forall_forall.
    apply (proj2 (proj2 (proj2 dropped_sessions_never_requeued)) Script scripted
             (fun cr => cr = ("builder", "hunter2")) 2%nat "sync" "alice" "pw" ""
             "" 0 [] 7 false _ _ _ _ Hrun).
    + intros [|] x [].
    + vm_compute. intros x [<- | [<- | []]]; reflexivity.
  - apply (proj1 dropped_sessions_never_requeued). reflexivity.
  - apply (proj1 dropped_sessions_never_requeued). reflexivity.
Defined.

(* ------------------------------------------------------------------------- *)
(** ** The returned construction time *)

Lemma flat_map_nothing {A C : Type} (f : A -> list C) (l : list A) :
  Forall (fun a => f a = []) l -> flat_map f l = [].
Proof.
  induction 1 as [|a l Ha _ IH]; simpl; [reflexivity|]. now rewrite Ha, IH.
Qed.

Lemma wrap32_idem (z : Z) : wrap32 (wrap32 z) = wrap32 z.
Proof.
  pose proof (wrap32_add_l z 0) as H. now rewrite !Z.add_0_r in H.
Qed.

Section Timing.

Context {W : Type} (B : Backend W).
Variables (cb : ClientCb) (cmdstr userStr passwdStr : string)
          (joined : strview) (argc : Z) (argv : list Z) (tag : bool).

(** A round constructs at most one session, and adds its microseconds. *)
Lemma iteration_time (init_us u : Z) (s s1 : State W) (ctl : Ctl)
    (t1 : list Action) :
  iteration B cb cmdstr userStr passwdStr joined argc argv tag init_us s =
    Done (ctl, u) s1 t1 ->
  (u = init_us /\ fresh_us t1 = [] /\ fresh_sessions t1 = []) \/
  (exists c e,
      fresh_us t1 = [e] /\ fresh_sessions t1 = [c] /\ u = wrap32 (init_us + e) /\
      clients_ tag s = []).
Proof.
  intros H.
  destruct (iteration_failed_init B _ _ _ _ _ _ _ _ _ _ _ _ _ _ H)
    as [(_ & -> & _ & c & err & _ & ->) | (Hctl & _)].
  { left. repeat split. }
  destruct (iteration_cases B cb cmdstr userStr passwdStr joined argc argv tag
              init_us s)
    as [Hu | [(c0 & err & s2 & _ & _ & _ & Hit)
             | (c & u' & tacq & crun & calls & d & tfin & s2 & Hacq & _ & Hrest)]].
  - rewrite Hu in H. discriminate.
  - rewrite Hit in H. apply Done_inj in H as (Hc & _). congruence.
  - cbv zeta in Hrest. destruct Hrest as (Hfin & _ & Hit).
    rewrite Hit in H. apply Done_inj in H as (Hc & _ & <-). clear Hit.
    injection Hc as _ <-.
    assert (Hrest : forall (C : Type) (f : Action -> list C),
               (forall a, is_fresh a = false -> f a = []) ->
               flat_map f
                 (tacq ++
                  ([RunBegin crun (c_str cmdstr)] ++ flat_map (sink cb) calls ++
                   [RunEnd (after_Run crun d)]) ++
                  tfin ++
                  (if snd (give_back (snd (take_front (clients_ tag s)))
                             (if d then after_Final (after_Run crun d)
                              else if override userStr passwdStr
                                   then SetPassword
                                          (SetUser (after_Run crun d) (c_user c))
                                          (c_password c)
                                   else after_Run crun d))
                   then [ApiDelete
                           (if d then after_Final (after_Run crun d)
                            else if override userStr passwdStr
                                 then SetPassword
                                        (SetUser (after_Run crun d) (c_user c))
                                        (c_password c)
                                 else after_Run crun d)]
                   else [])) =
               flat_map f tacq).
    { intros C f Hf. rewrite !flat_map_app.
      rewrite (flat_map_nothing f (flat_map (sink cb) calls)).
      2:{ eapply Forall_impl; [|apply sink_from_sink].
          intros [[]| | | | | | | |]; simpl; intros; try congruence;
            apply Hf; reflexivity. }
      assert (Hfin0 : flat_map f tfin = []).
      { destruct d.
        - destruct Hfin as (e & ->). rewrite flat_map_app.
          destruct (Test e); cbn [flat_map map Retry app];
            rewrite !Hf by reflexivity; reflexivity.
        - subst tfin. reflexivity. }
      rewrite Hfin0.
      destruct (snd (give_back _ _)); cbn [flat_map app];
        rewrite ?Hf by reflexivity; now rewrite ?app_nil_r. }
    unfold fresh_us, fresh_sessions. rewrite !Hrest.
    2:{ intros [| | |? ?| | | | |]; simpl; congruence. }
    2:{ intros [| | |? ?| | | | |]; simpl; congruence. }
    destruct Hacq as [(_ & -> & ->) | (e & st & sp & Hempty & _ & -> & ->)].
    + left. repeat split.
    + right. exists c, (Z.quot (sp - st) 1000). repeat split. exact Hempty.
Qed.

Lemma loop_time (fuel : nat) :
  forall (init_us r : Z) (s s' : State W) (tr : list Action),
    p4runcb_loop B fuel cb cmdstr userStr passwdStr joined argc argv tag init_us s =
      Done r s' tr ->
    wrap32 init_us = init_us ->
    r = wrap32 (init_us + sum_Z (fresh_us tr)) /\
    List.length (fresh_us tr) = List.length (fresh_sessions tr).
Proof.
  induction fuel as [|fuel IH]; intros init_us r s s' tr H Hrange; [discriminate|].
  apply p4runcb_loop_inv in H
    as (ctl & u & s1 & t1 & Hit & [(_ & t2 & Hloop & ->) | (_ & -> & _ & ->)]).
  - unfold fresh_us, fresh_sessions. rewrite !flat_map_app.
    fold (fresh_us t1) (fresh_us t2) (fresh_sessions t1) (fresh_sessions t2).
    rewrite sum_Z_app, !length_app.
    apply iteration_time in Hit
      as [(-> & -> & ->) | (c & e & -> & -> & -> & _)].
    + apply IH in Hloop as [-> Hlen]; [|exact Hrange].
      split; [reflexivity | simpl; lia].
    + apply IH in Hloop as [-> Hlen]; [|apply wrap32_idem].
      split; [|simpl; lia].
      rewrite wrap32_add_l. f_equal. simpl. lia.
  - apply iteration_time in Hit
      as [(-> & -> & ->) | (c & e & -> & -> & -> & _)].
    + split; [|reflexivity]. simpl. now rewrite Z.add_0_r, Hrange.
    + split; [|reflexivity]. simpl. now rewrite Z.add_0_r.
Qed.

(** [Pool::Client] on an empty queue, by the clock: [start] is read on
    entry, a handle is constructed and set up, [Init] runs, and only when it
    succeeds is [stop] read, in the world [Init] left. *)
Lemma Pool_Client_constructs (n : Z) (s : State W) :
  clients_ tag s = [] ->
  let start := fst (be_now B (world s)) in
  let made := be_new B (snd (be_now B (world s))) in
  let c := Pool_SetProtocol tag
             (SetCharset (new_ClientApi (fst (fst (fst made)))
                            (snd (fst (fst made))) (snd (fst made))) "utf8") in
  let init := be_Init B c (snd made) in
  let stop := fst (be_now B (snd init)) in
  exists s1,
    if Test (fst init)
    then exists msg,
           Pool_Client B tag (Some n) (Some "") false s =
             Done (None, Some n, Some msg, false) s1
                  [ApiInit c (fst init); ApiDelete c]
    else Pool_Client B tag (Some n) (Some "") false s =
           Done (Some c, Some (wrap32 (n + Z.quot (stop - start) 1000)),
                 Some "", true)
                s1 [ApiInit c (fst init); Fresh c (Some (start, stop))].
Proof.
  intros Hq. cbv zeta.
  unfold Pool_Client, bind, now, locked_take, api_new, api_Init, emit, ret.
  cbn [world set_world set_clients].
  rewrite clients_set_world, Hq. cbn [take_front fst snd].
  cbn [world set_world set_clients].
  match goal with |- context [Test ?e] => destruct (Test e) end.
  - eexists. eexists. reflexivity.
  - eexists. reflexivity.
Qed.

(** A round by the clock: it adds to [init_us] only when it found the queue
    empty and its [Init] succeeded, and then the microseconds between the
    reading on entry and the reading after [Init]. *)
Lemma iteration_clock (init_us u : Z) (s s1 : State W) (ctl : Ctl)
    (t1 : list Action) :
  iteration B cb cmdstr userStr passwdStr joined argc argv tag init_us s =
    Done (ctl, u) s1 t1 ->
  let start := fst (be_now B (world s)) in
  let made := be_new B (snd (be_now B (world s))) in
  let c := Pool_SetProtocol tag
             (SetCharset (new_ClientApi (fst (fst (fst made)))
                            (snd (fst (fst made))) (snd (fst made))) "utf8") in
  let init := be_Init B c (snd made) in
  let stop := fst (be_now B (snd init)) in
  match clients_ tag s with
  | [] =>
      if Test (fst init)
      then fresh_us t1 = [] /\ u = init_us
      else fresh_us t1 = [Z.quot (stop - start) 1000] /\
           u = wrap32 (init_us + Z.quot (stop - start) 1000)
  | _ :: _ => fresh_us t1 = [] /\ u = init_us
  end.
Proof.
  intros H. cbv zeta.
  pose proof (iteration_time _ _ _ _ _ _ H) as Htime.
  destruct (clients_ tag s) as [|c0 rest] eqn:Hq.
  2:{ destruct Htime as [(-> & -> & _) | (c & e & _ & _ & _ & Hempty)];
        [split; reflexivity | discriminate]. }
  destruct (Pool_Client_constructs init_us s Hq) as (s0 & HPC). cbv zeta in HPC.
  pose proof H as Hit. unfold iteration in H.
  apply bind_Done in H as ([[[oc ons] oerr] ofr] & s0' & tacq & t & HPC' & _ & Ht).
  match type of HPC with
  | if Test ?e then _ else _ => destruct (Test e) eqn:Htest
  end.
  - destruct HPC as (msg & HPC). rewrite HPC in HPC'.
    apply Done_inj in HPC' as (_ & _ & <-).
    destruct (iteration_failed_init B _ _ _ _ _ _ _ _ _ _ _ _ _ _ Hit)
      as [(_ & -> & _ & c' & err' & _ & Ht') | (_ & Hall)].
    + split; [|reflexivity]. rewrite Ht'. unfold fresh_us.
      cbn [flat_map app map HandleError_msg]. reflexivity.
    + rewrite Ht in Hall. cbn [app] in Hall. apply Forall_inv in Hall.
      cbn [failed_init] in Hall. congruence.
  - rewrite HPC in HPC'. apply Done_inj in HPC' as (_ & _ & <-).
    rewrite Ht. unfold fresh_us. cbn [flat_map app]. fold (fresh_us t).
    destruct Htime as [(_ & He & _) | (c & e & He & _ & -> & _)].
    + rewrite Ht in He. unfold fresh_us in He. cbn [flat_map app] in He.
      discriminate.
    + rewrite Ht in He. unfold fresh_us in He. cbn [flat_map app] in He.
      fold (fresh_us t) in He. injection He as <- ->. split; reflexivity.
Qed.

End Timing.

(** C8. The value [p4runcb] returns is [init_us], an [int] that starts at
    zero and to which only a successful construction adds: a round that
    found the queue empty and whose [Init] succeeded adds the microseconds
    (ticks divided by 1000) between the clock reading taken on entering
    [Pool::Client] and the reading taken after [Init]; a round served from
    the queue, or whose [Init] failed, adds nothing.  So the value is the
    sum of the construction times of the fresh sessions of the call whenever
    that sum fits an [int], and its low 32 bits read as a signed number in
    general.  It is zero when the call constructed no session, so a non-zero
    value means that at least one fresh session was constructed. *)
Theorem returned_time_is_construction_time :
  forall (W : Type) (B : Backend W),
    (forall (cb : ClientCb) (cmdstr userStr passwdStr : string)
            (joined : strview) (argc : Z) (argv : list Z) (tag : bool)
            (init_us u : Z) (s s1 : State W) (ctl : Ctl) (t1 : list Action),
        iteration B cb cmdstr userStr passwdStr joined argc argv tag init_us s =
          Done (ctl, u) s1 t1 ->
        let start := fst (be_now B (world s)) in
        let made := be_new B (snd (be_now B (world s))) in
        let c := Pool_SetProtocol tag
                   (SetCharset (new_ClientApi (fst (fst (fst made)))
                                  (snd (fst (fst made))) (snd (fst made)))
                      "utf8") in
        let init := be_Init B c (snd made) in
        let stop := fst (be_now B (snd init)) in
        match clients_ tag s with
        | [] =>
            if Test (fst init)
            then fresh_us t1 = [] /\ u = init_us
            else fresh_us t1 = [Z.quot (stop - start) 1000] /\
                 u = wrap32 (init_us + Z.quot (stop - start) 1000)
        | _ :: _ => fresh_us t1 = [] /\ u = init_us
        end) /\
    (forall (fuel : nat) (cmd user passwd input joined : strview) (argc : Z)
            (argv : list Z) (cbid : Z) (tag : bool) (s s' : State W) (r : Z)
            (tr : list Action),
        p4runcb B fuel cmd user passwd input joined argc argv cbid tag s =
          Done r s' tr ->
        r = wrap32 (sum_Z (fresh_us tr)) /\
        (- 2 ^ 31 <= sum_Z (fresh_us tr) <= INT_MAX -> r = sum_Z (fresh_us tr)) /\
        List.length (fresh_us tr) = List.length (fresh_sessions tr) /\
        (fresh_sessions tr = [] -> r = 0) /\
        (r <> 0 -> fresh_sessions tr <> [])).
Proof.
  intros W B. split.
  - intros cb cmdstr userStr passwdStr joined argc argv tag init_us u s s1 ctl
           t1 H.
    exact (iteration_clock B cb cmdstr userStr passwdStr joined argc argv tag
             init_us u s s1 ctl t1 H).
  - intros fuel cmd user passwd input joined argc argv cbid tag s s' r tr H.
    unfold p4runcb in H. apply loop_time in H as [Hr Hlen]; [|reflexivity].
    rewrite Z.add_0_l in Hr.
    assert (Hzero : fresh_sessions tr = [] -> r = 0).
    { intros Hnone. rewrite Hnone in Hlen.
      destruct (fresh_us tr); [|discriminate]. subst r. reflexivity. }
    split; [exact Hr|]. split; [|split; [exact Hlen|split; [exact Hzero|]]].
    + intros Hfit. rewrite Hr. apply wrap32_small, Hfit.
    + intros Hnz Hnone. apply Hnz, Hzero, Hnone.
Qed.

Lemma returned_time_is_construction_time_witness :
  (exists u s1 t1,
      iteration scripted {| cbid_ := 7; input_ := "" |} "sync" "" "" "" 0 []
        false 0 (start_state loud_drop) = Done (CtlContinue, u) s1 t1 /\
      fresh_us t1 = [Z.quot (5000 - 1000) 1000] /\ u = 4) /\
  (exists s' tr,
      p4runcb scripted 2 "sync" "" "" "" "" 0 [] 7 false (start_state loud_drop) =
        Done 9 s' tr /\
      fresh_us tr = [4; 5] /\
      9 = sum_Z (fresh_us tr)).
Proof.
  split.
  - eexists _, _, _. split; [vm_compute; reflexivity|].
    refine (proj1 (returned_time_is_construction_time Script scripted)
              {| cbid_ := 7; input_ := "" |} "sync" "" "" "" 0 [] false 0 _
              (start_state loud_drop) _ CtlContinue _ _).
    vm_compute. reflexivity.
  - eexists _, _. split; [vm_compute; reflexivity|].
    split; [reflexivity|].
    refine (proj1 (proj2 (proj2 (returned_time_is_construction_time Script
                                   scripted)
                            2%nat "sync" "" "" "" "" 0 [] 7 false
                            (start_state loud_drop) _ 9 _ _)) _).
    + vm_compute. reflexivity.
    + vm_compute. split; discriminate.
Defined.

(** C8 as stated fails: the value is an [int].  A construction that takes
    fifty minutes is 3000000000 microseconds, and the call returns
    -1294967296. *)
Lemma long_construction_wraps_returned_time :
  exists r s' tr,
    p4runcb scripted 1 "sync" "" "" "" "" 0 [] 7 false (start_state slow_init) =
      Done r s' tr /\
    fresh_us tr = [3000000000] /\
    sum_Z (fresh_us tr) = 3000000000 /\
    r = -1294967296 /\
    r <> sum_Z (fresh_us tr).
Proof.
  eexists _, _, _. split; [vm_compute; reflexivity|].
  split; [reflexivity|]. split; [reflexivity|]. split; [reflexivity|].
  discriminate.
Qed.

(* ========================================================================= *)
(** * Whole calls *)

(** The cases of a round, with the round's own result put in. *)
Ltac round_cases H :=
  match type of H with
  | iteration ?B ?cb ?cmd ?us ?pw ?j ?ac ?av ?tag ?i ?s = Done _ _ _ =>
      let Hu := fresh "Hu" in
      let Hit := fresh "Hit" in
      let Hrest := fresh "Hrest" in
      destruct (iteration_cases B cb cmd us pw j ac av tag i s)
        as [Hu | [(c0 & err0 & s2 & Hempty & Htest & Hq & Hit)
                 | (c0 & u0 & tacq & crun & calls & d & tfin & s2 & Hacq & Hrun
                    & Hrest)]];
      [ rewrite Hu in H; discriminate
      | rewrite Hit in H; apply Done_inj in H as (Hctl & Hs & Ht); clear Hit
      | cbv zeta in Hrest; destruct Hrest as (Hfin & Hq & Hit);
        rewrite Hit in H; apply Done_inj in H as (Hctl & Hs & Ht); clear Hit ]
  end.

Section Calls.

Context {W : Type} (B : Backend W).
Variables (cb : ClientCb) (cmdstr userStr passwdStr : string)
          (joined : strview) (argc : Z) (argv : list Z) (tag : bool).

(** A property of returned loops follows from what it says of a last round
    and of a round followed by a returned loop. *)
Lemma p4runcb_loop_rounds
    (P : Z -> State W -> Z -> State W -> list Action -> Prop) :
  (forall init_us s ctl u s1 t1,
      iteration B cb cmdstr userStr passwdStr joined argc argv tag init_us s =
        Done (ctl, u) s1 t1 ->
      ctl <> CtlContinue -> P init_us s u s1 t1) ->
  (forall init_us s u s1 t1 r s' t2,
      iteration B cb cmdstr userStr passwdStr joined argc argv tag init_us s =
        Done (CtlContinue, u) s1 t1 ->
      P u s1 r s' t2 -> P init_us s r s' (t1 ++ t2)) ->
  forall fuel init_us r s s' tr,
    p4runcb_loop B fuel cb cmdstr userStr passwdStr joined argc argv tag init_us s =
      Done r s' tr ->
    P init_us s r s' tr.
Proof.
  intros Hlast Hmore.
  induction fuel as [|fuel IH]; intros init_us r s s' tr H; [discriminate|].
  apply p4runcb_loop_inv in H
    as (ctl & u & s1 & t1 & Hit & [(-> & t2 & Hloop & ->) | (Hctl & -> & -> & ->)]).
  - eapply Hmore; [exact Hit|]. eapply IH, Hloop.
  - eapply Hlast; eassumption.
Qed.

Lemma go_events_app (t1 t2 : list Action) :
  go_events (t1 ++ t2) = go_events t1 ++ go_events t2.
Proof. unfold go_events. apply flat_map_app. Qed.

Lemma Forall_go_events (P : GoEvent -> Prop) (tr : list Action) :
  Forall (fun a => match a with Go e => P e | _ => True end) tr ->
  Forall P (go_events tr).
Proof.
  induction 1 as [|a tr Ha _ IH]; [constructor|].
  unfold go_events. cbn [flat_map]. apply Forall_app. split; [|exact IH].
  destruct a; repeat constructor. exact Ha.
Qed.

Lemma sink_cbid (calls : list SinkCall) :
  Forall (fun a => match a with Go e => event_cbid e = cbid_ cb | _ => True end)
         (flat_map (sink cb) calls).
Proof.
  induction calls as [|call calls IH]; [constructor|].
  cbn [flat_map]. apply Forall_app. split; [|exact IH].
  destruct call; cbn [sink]; try (repeat constructor).
  - unfold HandleError. destruct (Test err); repeat constructor.
  - unfold OutputStat. destruct (OutputStat_loop _ _ _ _ _). repeat constructor.
Qed.

Lemma round_cbid (init_us u : Z) (s s1 : State W) (ctl : Ctl) (t1 : list Action) :
  iteration B cb cmdstr userStr passwdStr joined argc argv tag init_us s =
    Done (ctl, u) s1 t1 ->
  Forall (fun e => event_cbid e = cbid_ cb) (go_events t1).
Proof.
  intros H. apply Forall_go_events. round_cases H; subst t1.
  - repeat constructor.
  - apply Forall_app; split; [|apply Forall_app; split;
      [apply Forall_app; split; [|apply Forall_app; split]
      |apply Forall_app; split]].
    + destruct Hacq as [(_ & -> & _) | (e & st & sp & _ & _ & -> & _)];
        repeat constructor.
    + repeat constructor.
    + apply sink_cbid.
    + repeat constructor.
    + destruct d.
      * destruct Hfin as (e & ->). destruct (Test e); repeat constructor.
      * subst tfin. constructor.
    + destruct (snd (give_back _ _)); repeat constructor.
Qed.

(** What a round leaves in the two queues. *)
Lemma round_queues (init_us u : Z) (s s1 : State W) (ctl : Ctl) (t1 : list Action) :
  iteration B cb cmdstr userStr passwdStr joined argc argv tag init_us s =
    Done (ctl, u) s1 t1 ->
  clients_ (negb tag) s1 = clients_ (negb tag) s /\
  ((ctl = CtlReturn /\ clients_ tag s1 = clients_ tag s) \/
   (ctl <> CtlReturn /\
    exists crel,
      clients_ tag s1 = fst (give_back (snd (take_front (clients_ tag s))) crel) /\
      (ctl = CtlBreak -> Dropped crel = false))).
Proof.
  intros H. round_cases H; subst s2.
  - split; [apply Hq|]. left. injection Hctl as <- _. split; [reflexivity|apply Hq].
  - split.
    + rewrite Hq. destruct tag; reflexivity.
    + right. injection Hctl as <- _.
      split; [destruct d; discriminate|]. eexists. split.
      * rewrite Hq, Bool.eqb_reflx. reflexivity.
      * destruct d; [discriminate|]. intros _.
        destruct (override userStr passwdStr); reflexivity.
Qed.

Lemma round_pool_inv (init_us u : Z) (s s1 : State W) (ctl : Ctl)
    (t1 : list Action) :
  iteration B cb cmdstr userStr passwdStr joined argc argv tag init_us s =
    Done (ctl, u) s1 t1 ->
  pool_inv (clients_ tag s) -> pool_inv (clients_ tag s1).
Proof.
  intros H Hinv.
  destruct (round_queues _ _ _ _ _ _ H) as (_ & [(_ & ->) | (_ & crel & -> & _)]);
    [exact Hinv|].
  apply give_back_inv, take_front_inv, Hinv.
Qed.

(** Counting over the trace of a round that leased a session. *)
Lemma count_leased_round (p : Action -> bool) (tacq tfin tdel : list Action)
    (crun cend : ClientApi) (calls : list SinkCall) :
  (forall a, from_sink a = true -> p a = false) ->
  count p (tacq ++
           ([RunBegin crun (c_str cmdstr)] ++ flat_map (sink cb) calls ++ [RunEnd cend]) ++
           tfin ++ tdel) =
  (count p tacq + count p [RunBegin crun (c_str cmdstr)] + count p [RunEnd cend] +
   count p tfin + count p tdel)%nat.
Proof.
  intros Hp. rewrite !count_app, count_sink by exact Hp. lia.
Qed.

(** Handles are conserved by a round: those idle before and those
    constructed are those idle after and those deleted. *)
Lemma round_handles (init_us u : Z) (s s1 : State W) (ctl : Ctl)
    (t1 : list Action) :
  iteration B cb cmdstr userStr passwdStr joined argc argv tag init_us s =
    Done (ctl, u) s1 t1 ->
  (List.length (clients_ tag s) + count is_init t1 =
   List.length (clients_ tag s1) + count is_delete t1)%nat.
Proof.
  intros H. round_cases H; subst s2 t1.
  - rewrite Hq. reflexivity.
  - rewrite !count_leased_round
      by (intros [[]| | | | | | | |]; simpl; congruence).
    rewrite Hq, Bool.eqb_reflx.
    assert (Hfin0 : count is_init tfin = 0%nat /\ count is_delete tfin = 0%nat).
    { destruct d.
      - destruct Hfin as (e & ->). destruct (Test e); split; reflexivity.
      - subst tfin. split; reflexivity. }
    destruct Hfin0 as [-> ->].
    assert (Hacq0 :
      (List.length (clients_ tag s) + count is_init tacq =
       S (List.length (snd (take_front (clients_ tag s)))))%nat /\
      count is_delete tacq = 0%nat).
    { destruct Hacq as [(Hin & -> & _) | (e & st & sp & -> & _ & -> & _)].
      - destruct (clients_ tag s); [destruct Hin|]. split; [|reflexivity].
        cbn. lia.
      - split; reflexivity. }
    destruct Hacq0 as [Hlen ->].
    unfold give_back.
    destruct (negb (Dropped _) && _); cbn [fst snd];
      rewrite ?length_app; cbn [count filter is_init is_delete List.length];
      lia.
Qed.

(** A round runs the command once unless acquisition fails, and only a
    round that finds the session dropped is followed by another. *)
Lemma round_runs (init_us u : Z) (s s1 : State W) (ctl : Ctl) (t1 : list Action) :
  iteration B cb cmdstr userStr passwdStr joined argc argv tag init_us s =
    Done (ctl, u) s1 t1 ->
  count is_run_begin t1 = match ctl with CtlReturn => 0 | _ => 1 end%nat /\
  count failed_init t1 = match ctl with CtlReturn => 1 | _ => 0 end%nat /\
  count is_drop t1 = match ctl with CtlContinue => 1 | _ => 0 end%nat.
Proof.
  intros H. round_cases H; subst t1.
  - injection Hctl as <- _. unfold count. cbn [filter failed_init is_run_begin
      is_drop app map HandleError_msg List.length]. rewrite Htest. repeat split.
  - injection Hctl as <- _.
    rewrite !count_leased_round
      by (intros [[]| | | | | | | |]; simpl; congruence).
    assert (Hfin0 : count is_run_begin tfin = 0%nat /\
                    count failed_init tfin = 0%nat /\ count is_drop tfin = 0%nat).
    { destruct d.
      - destruct Hfin as (e & ->). destruct (Test e); repeat split.
      - subst tfin. repeat split. }
    destruct Hfin0 as (-> & -> & ->).
    assert (Hdel : forall (p : Action -> bool) (b : bool) (x : ClientApi),
               (forall y, p (ApiDelete y) = false) ->
               count p (if b then [ApiDelete x] else []) = 0%nat).
    { intros p [|] x Hp; unfold count; cbn [filter]; [rewrite Hp|]; reflexivity. }
    rewrite !Hdel by reflexivity.
    assert (Hacq0 : count is_run_begin tacq = 0%nat /\
                    count failed_init tacq = 0%nat /\ count is_drop tacq = 0%nat).
    { destruct Hacq as [(_ & -> & _) | (e & st & sp & _ & He & -> & _)].
      - repeat split.
      - unfold count. cbn [filter failed_init is_run_begin is_drop].
        rewrite He. repeat split. }
    destruct Hacq0 as (-> & -> & ->).
    unfold count. cbn [filter failed_init is_run_begin is_drop Dropped
                       after_Run c_dropped].
    destruct d; repeat split.
Qed.

(** After a round that ended on a healthy session, that session is the last
    of its queue, provided the queue was within its bound. *)
Lemma round_requeues (init_us u : Z) (s s1 : State W) (t1 : list Action) :
  iteration B cb cmdstr userStr passwdStr joined argc argv tag init_us s =
    Done (CtlBreak, u) s1 t1 ->
  pool_inv (clients_ tag s) ->
  exists crel,
    clients_ tag s1 = snd (take_front (clients_ tag s)) ++ [crel] /\
    Dropped crel = false.
Proof.
  intros H [Hlen _].
  destruct (round_queues _ _ _ _ _ _ H)
    as (_ & [(Hc & _) | (_ & crel & Hq & Hd)]); [discriminate|].
  specialize (Hd eq_refl). exists crel. split; [|exact Hd].
  rewrite Hq. unfold give_back. rewrite Hd.
  replace (Z.of_nat (List.length (snd (take_front (clients_ tag s)))) <? kMaxClients)
    with true; [reflexivity|].
  symmetry. apply Z.ltb_lt. unfold kMaxClients in *.
  destruct (clients_ tag s); cbn [take_front snd List.length] in *; lia.
Qed.




End Calls.

(** X1.  Every event handed to Go during a call carries the callback id the call
    was given, whatever the backend does and however often the call retries. *)
Theorem events_carry_callback_id :
  forall (W : Type) (B : Backend W) (fuel : nat)
         (cmd user passwd input joined : strview) (argc : Z) (argv : list Z)
         (cbid : Z) (tag : bool) (s s' : State W) (r : Z) (tr : list Action),
    p4runcb B fuel cmd user passwd input joined argc argv cbid tag s =
      Done r s' tr ->
    Forall (fun e => event_cbid e = cbid) (go_events tr).
Proof.
  intros W B fuel cmd user passwd input joined argc argv cbid tag s s' r tr H.
  unfold p4runcb in H.
  apply (p4runcb_loop_rounds B _ _ _ _ _ _ _ _
           (fun _ _ _ _ tr => Forall (fun e => event_cbid e = cbid) (go_events tr)))
    in H; [exact H| |].
  - intros init_us s0 ctl u s1 t1 Hit _. apply (round_cbid B) in Hit. exact Hit.
  - intros init_us s0 u s1 t1 r0 s0' t2 Hit IH. rewrite go_events_app.
    apply Forall_app. split; [|exact IH]. apply (round_cbid B) in Hit. exact Hit.
Qed.

Lemma events_carry_callback_id_witness :
  exists r s' tr,
    p4runcb scripted 2 "sync" "alice" "pw" "" "" 0 [] 7 false
      (start_state loud_drop) =
      Done r s' tr /\
    Forall (fun e => event_cbid e = 7) (go_events tr).
Proof.
  eexists _, _, _. split; [vm_compute; reflexivity|].
  refine (events_carry_callback_id Script scripted 2%nat "sync" "alice" "pw" ""
            "" 0 [] 7 false (start_state loud_drop)
            _ _ _ _).
  vm_compute. reflexivity.
Defined.

(** X2.  A call leaves the idle queue of the other pool exactly as it was. *)
Theorem call_leaves_other_pool :
  forall (W : Type) (B : Backend W) (fuel : nat)
         (cmd user passwd input joined : strview) (argc : Z) (argv : list Z)
         (cbid : Z) (tag : bool) (s s' : State W) (r : Z) (tr : list Action),
    p4runcb B fuel cmd user passwd input joined argc argv cbid tag s =
      Done r s' tr ->
    clients_ (negb tag) s' = clients_ (negb tag) s.
Proof.
  intros W B fuel cmd user passwd input joined argc argv cbid tag s s' r tr H.
  unfold p4runcb in H.
  apply (p4runcb_loop_rounds B _ _ _ _ _ _ _ _
           (fun _ s _ s' _ => clients_ (negb tag) s' = clients_ (negb tag) s))
    in H; [exact H| |].
  - intros init_us s0 ctl u s1 t1 Hit _. eapply round_queues, Hit.
  - intros init_us s0 u s1 t1 r0 s0' t2 Hit IH. rewrite IH.
    eapply round_queues, Hit.
Qed.

Lemma call_leaves_other_pool_witness :
  exists r s' tr,
    p4runcb scripted 2 "sync" "alice" "pw" "" "" 0 [] 7 true
      {| defaultPool := [idle_session 4]; tagPool := []; world := loud_drop |} =
      Done r s' tr /\
    clients_ false s' = [idle_session 4].
Proof.
  eexists _, _, _. split; [vm_compute; reflexivity|].
  refine (call_leaves_other_pool Script scripted 2%nat "sync" "alice" "pw" "" ""
            0 [] 7 true
            {| defaultPool := [idle_session 4]; tagPool := []; world := loud_drop |}
            _ _ _ _).
  vm_compute. reflexivity.
Defined.

(** X3.  A call keeps both idle queues within their bound and free of dropped
    sessions. *)
Theorem call_keeps_pool_invariant :
  forall (W : Type) (B : Backend W) (fuel : nat)
         (cmd user passwd input joined : strview) (argc : Z) (argv : list Z)
         (cbid : Z) (tag : bool) (s s' : State W) (r : Z) (tr : list Action)
         (tg : bool),
    p4runcb B fuel cmd user passwd input joined argc argv cbid tag s =
      Done r s' tr ->
    pool_inv (clients_ tg s) -> pool_inv (clients_ tg s').
Proof.
  intros W B fuel cmd user passwd input joined argc argv cbid tag s s' r tr tg H.
  destruct (Bool.eqb tg tag) eqn:E.
  - apply Bool.eqb_prop in E. subst tg. unfold p4runcb in H.
    refine (p4runcb_loop_rounds B _ _ _ _ _ _ _ _
              (fun _ s _ s' _ => pool_inv (clients_ tag s) -> pool_inv (clients_ tag s'))
              _ _ _ _ _ _ _ _ H).
    + intros init_us s0 ctl u s1 t1 Hit _. eapply round_pool_inv, Hit.
    + intros init_us s0 u s1 t1 r0 s0' t2 Hit IH Hinv.
      apply IH. eapply round_pool_inv; eassumption.
  - assert (tg = negb tag) as -> by (destruct tg, tag; simpl in E; try discriminate; reflexivity).
    unfold p4runcb in H.
    apply (p4runcb_loop_rounds B _ _ _ _ _ _ _ _
             (fun _ s _ s' _ => clients_ (negb tag) s' = clients_ (negb tag) s))
      in H; [now rewrite H| |].
    + intros init_us s0 ctl u s1 t1 Hit _. eapply round_queues, Hit.
    + intros init_us s0 u s1 t1 r0 s0' t2 Hit IH. rewrite IH.
      eapply round_queues, Hit.
Qed.

Lemma call_keeps_pool_invariant_witness :
  exists r s' tr,
    p4runcb scripted 2 "sync" "alice" "pw" "" "" 0 [] 7 false
      {| defaultPool := full_queue; tagPool := []; world := loud_drop |} =
      Done r s' tr /\
    pool_inv (clients_ false s').
Proof.
  eexists _, _, _. split; [vm_compute; reflexivity|].
  refine (call_keeps_pool_invariant Script scripted 2%nat "sync" "alice" "pw" ""
            "" 0 [] 7 false
            {| defaultPool := full_queue; tagPool := []; world := loud_drop |}
            _ _ _ false _ _).
  - vm_compute. reflexivity.
  - split; [vm_compute; discriminate | repeat constructor].
Defined.

(** X4.  No handle is lost or made up by a call: the sessions idle in the pool
    before it and the handles it constructed are as many as the sessions
    idle after it and the handles it deleted. *)
Theorem call_conserves_handles :
  forall (W : Type) (B : Backend W) (fuel : nat)
         (cmd user passwd input joined : strview) (argc : Z) (argv : list Z)
         (cbid : Z) (tag : bool) (s s' : State W) (r : Z) (tr : list Action),
    p4runcb B fuel cmd user passwd input joined argc argv cbid tag s =
      Done r s' tr ->
    (List.length (clients_ tag s) + count is_init tr =
     List.length (clients_ tag s') + count is_delete tr)%nat.
Proof.
  intros W B fuel cmd user passwd input joined argc argv cbid tag s s' r tr H.
  unfold p4runcb in H.
  apply (p4runcb_loop_rounds B _ _ _ _ _ _ _ _
           (fun _ s _ s' tr =>
              (List.length (clients_ tag s) + count is_init tr =
               List.length (clients_ tag s') + count is_delete tr)%nat))
    in H; [exact H| |].
  - intros init_us s0 ctl u s1 t1 Hit _. eapply round_handles, Hit.
  - intros init_us s0 u s1 t1 r0 s0' t2 Hit IH. rewrite !count_app.
    apply (round_handles B) in Hit. lia.
Qed.

Lemma call_conserves_handles_witness :
  exists r s' tr,
    p4runcb scripted 2 "sync" "alice" "pw" "" "" 0 [] 7 false
      (start_state loud_drop) =
      Done r s' tr /\
    count is_init tr = 2%nat /\ count is_delete tr = 1%nat /\
    (List.length (clients_ false (start_state loud_drop)) + count is_init tr =
     List.length (clients_ false s') + count is_delete tr)%nat.
Proof.
  eexists _, _, _. split; [vm_compute; reflexivity|].
  split; [reflexivity|]. split; [reflexivity|].
  refine (call_conserves_handles Script scripted 2%nat "sync" "alice" "pw" ""
            "" 0 [] 7 false (start_state loud_drop)
            _ _ _ _).
  vm_compute. reflexivity.
Defined.

(** X5.  A call that returns ran the command once more than it found the session
    dropped, the clean run being the last; unless it ended on a failed
    acquisition, when it ran the command as often as it found the session
    dropped.  No call fails acquisition twice. *)
Theorem call_runs_once_per_attempt :
  forall (W : Type) (B : Backend W) (fuel : nat)
         (cmd user passwd input joined : strview) (argc : Z) (argv : list Z)
         (cbid : Z) (tag : bool) (s s' : State W) (r : Z) (tr : list Action),
    p4runcb B fuel cmd user passwd input joined argc argv cbid tag s =
      Done r s' tr ->
    (count failed_init tr = 0%nat /\
     count is_run_begin tr = S (count is_drop tr)) \/
    (count failed_init tr = 1%nat /\
     count is_run_begin tr = count is_drop tr).
Proof.
  intros W B fuel cmd user passwd input joined argc argv cbid tag s s' r tr H.
  unfold p4runcb in H.
  apply (p4runcb_loop_rounds B _ _ _ _ _ _ _ _
           (fun _ _ _ _ tr =>
              (count failed_init tr = 0%nat /\
               count is_run_begin tr = S (count is_drop tr)) \/
              (count failed_init tr = 1%nat /\
               count is_run_begin tr = count is_drop tr)))
    in H; [exact H| |].
  - intros init_us s0 ctl u s1 t1 Hit Hctl.
    apply (round_runs B) in Hit as (-> & -> & ->).
    destruct ctl; [right|left|congruence]; split; reflexivity.
  - intros init_us s0 u s1 t1 r0 s0' t2 Hit IH. rewrite !count_app.
    apply (round_runs B) in Hit as (-> & -> & ->). cbn [Nat.add].
    destruct IH as [[-> ->] | [-> ->]]; [left|right]; split; reflexivity.
Qed.

Lemma call_runs_once_per_attempt_witness :
  exists r s' tr,
    p4runcb scripted 2 "sync" "alice" "pw" "" "" 0 [] 7 false
      (start_state loud_drop) =
      Done r s' tr /\
    count is_drop tr = 1%nat /\
    ((count failed_init tr = 0%nat /\
      count is_run_begin tr = S (count is_drop tr)) \/
     (count failed_init tr = 1%nat /\
      count is_run_begin tr = count is_drop tr)).
Proof.
  eexists _, _, _. split; [vm_compute; reflexivity|].
  split; [reflexivity|].
  refine (call_runs_once_per_attempt Script scripted 2%nat "sync" "alice" "pw" ""
            "" 0 [] 7 false (start_state loud_drop)
            _ _ _ _).
  vm_compute. reflexivity.
Defined.



(* ------------------------------------------------------------------------- *)
(** ** What each attempt runs *)

Lemma SetArgs_are_slices (joined : strview) (argv : list Z) :
  sv_len joined <= INT_MAX ->
  forall (n i : nat) (c c' : ClientApi),
    SetArgs n c joined argv i (sum_Z (firstn i argv)) = Some c' ->
    c' = fold_left SetVar (map (arg_slice joined argv) (seq i n)) c.
Proof.
  intros Hmax. induction n as [|n IH]; intros i c c' H; cbn [SetArgs] in H.
  - injection H as <-. reflexivity.
  - destruct (nth_error argv i) as [len|] eqn:Hi; [|discriminate].
    unfold StrRef in H.
    destruct ((0 <=? sum_Z (firstn i argv)) && (0 <=? len)
              && (sum_Z (firstn i argv) + len <=? sv_len joined)) eqn:Hin;
      [|discriminate].
    rewrite !andb_true_iff, !Z.leb_le in Hin.
    assert (Hnext : sum_Z (firstn (S i) argv) = sum_Z (firstn i argv) + len).
    { rewrite (firstn_succ_nth _ _ _ Hi), sum_Z_app. simpl. lia. }
    rewrite <- Hnext, wrap32_small in H by (unfold INT_MAX in *; lia).
    apply IH in H. subst c'. cbn [seq map fold_left].
    f_equal. f_equal. unfold arg_slice. now rewrite (nth_error_nth _ _ _ Hi).
Qed.

Lemma fold_SetVar_static (vs : list string) :
  forall c : ClientApi,
    c_charset (fold_left SetVar vs c) = c_charset c /\
    c_protocol (fold_left SetVar vs c) = c_protocol c.
Proof.
  induction vs as [|v vs IH]; intros c; cbn [fold_left]; [split; reflexivity|].
  destruct (IH (SetVar c v)) as [-> ->]. split; reflexivity.
Qed.

Section Attempts.

Context {W : Type} (B : Backend W).
Variables (cb : ClientCb) (cmdstr userStr passwdStr : string)
          (joined : strview) (argc : Z) (argv : list Z) (tag : bool).

(** A round is an acquisition, then the body on the session acquired, then
    the deleter on the handle the body leaves. *)
Lemma iteration_inv (init_us u : Z) (s s1 : State W) (ctl : Ctl)
    (t1 : list Action) :
  iteration B cb cmdstr userStr passwdStr joined argc argv tag init_us s =
    Done (ctl, u) s1 t1 ->
  exists oc ons oerr ofr s0 tacq,
    Pool_Client B tag (Some init_us) (Some "") false s =
      Done (oc, ons, oerr, ofr) s0 tacq /\
    match oc with
    | None =>
        ctl = CtlReturn /\ s1 = s0 /\
        t1 = tacq ++ map Go (HandleError_msg cb
                               (match oerr with Some m => m | None => "" end))
    | Some c =>
        exists c' s2 t2 t3,
          lease_body B cb cmdstr userStr passwdStr joined argc argv c s0 =
            Done (ctl, c') s2 t2 /\
          deleter tag c' s2 = Done tt s1 t3 /\
          t1 = tacq ++ t2 ++ t3
    end.
Proof.
  unfold iteration. intros H.
  apply bind_Done in H as ([[[oc ons] oerr] ofr] & s0 & tacq & t & HPC & Hk & ->).
  exists oc, ons, oerr, ofr, s0, tacq. split; [exact HPC|].
  destruct oc as [c|].
  - apply bind_Done in Hk as ([ctl' c'] & s2 & t2 & t3' & Hlb & Hk & ->).
    apply bind_Done in Hk as ([] & s3 & t3 & t4 & Hdel & Hk & ->).
    unfold ret in Hk. apply Done_inj in Hk as (Hc & <- & <-).
    injection Hc as <- _.
    exists c', s2, t2, t3. rewrite app_nil_r. auto.
  - apply bind_Done in Hk as ([] & s3 & t3 & t4 & Hemit & Hk & ->).
    unfold emit in Hemit. unfold ret in Hk.
    apply Done_inj in Hemit as (_ & <- & <-).
    apply Done_inj in Hk as (Hc & <- & <-). injection Hc as <- _.
    rewrite app_nil_r. auto.
Qed.

(** The handles [Pool::Client] constructs are set up for its pool before
    [Init]; the session it gives is an idle one or such a handle. *)
Lemma Pool_Client_new_handles (ns : option Z) (error : option string)
    (fresh : bool) (s s0 : State W) (oc : option ClientApi) (ons : option Z)
    (oerr : option string) (ofr : bool) (tacq : list Action) :
  Pool_Client B tag ns error fresh s = Done (oc, ons, oerr, ofr) s0 tacq ->
  Forall (fun a => is_run_begin a = false /\
                   match a with
                   | ApiInit c _ =>
                       of_variant tag c /\ c_vars c = [] /\ Dropped c = false
                   | _ => True
                   end) tacq /\
  (forall c, oc = Some c ->
     In c (clients_ tag s) \/
     (of_variant tag c /\ c_vars c = [] /\ Dropped c = false)).
Proof.
  unfold Pool_Client, bind, now, locked_take, api_new, api_Init, emit, ret.
  cbn [world set_world set_clients].
  rewrite clients_set_world.
  assert (Hnew : forall id u p,
    let c := Pool_SetProtocol tag (SetCharset (new_ClientApi id u p) "utf8") in
    of_variant tag c /\ c_vars c = [] /\ Dropped c = false).
  { intros id u p. destruct tag; repeat split. }
  destruct (clients_ tag s) as [|c rest] eqn:Hq; cbn [take_front fst snd].
  - cbn [world set_world set_clients].
    match goal with |- context [Test ?e] => destruct (Test e) end.
    + destruct error; intros H; apply Done_inj in H as (Hv & _ & <-);
        injection Hv as <- _ _ _; (split; [|discriminate]);
        repeat constructor; apply Hnew.
    + destruct ns; intros H; apply Done_inj in H as (Hv & _ & <-);
        injection Hv as <- _ _ _;
        (split; [repeat constructor; apply Hnew|]);
        intros c Hc; injection Hc as <-; right; apply Hnew.
  - intros H. apply Done_inj in H as (Hv & _ & <-). injection Hv as <- _ _ _.
    split; [constructor|]. intros c0 Hc. injection Hc as <-. left. left.
    reflexivity.
Qed.

(** The body of a round that ended: the handle it ran on, what the library
    called back, and the handle it leaves. *)
Lemma lease_body_inv (c c' : ClientApi) (s s' : State W) (ctl : Ctl)
    (t : list Action) :
  lease_body B cb cmdstr userStr passwdStr joined argc argv c s =
    Done (ctl, c') s' t ->
  exists crun tfin,
    SetArgs (Z.to_nat argc)
      (if override userStr passwdStr
       then SetPassword (SetUser c (c_str userStr)) (c_str passwdStr) else c)
      joined argv 0 0 = Some crun /\
    let r := be_Run B crun (c_str cmdstr) (world s) in
    let d := snd (fst r) in
    t = [RunBegin crun (c_str cmdstr)] ++ flat_map (sink cb) (fst (fst r)) ++
        [RunEnd (after_Run crun d)] ++ tfin /\
    ctl = (if d then CtlContinue else CtlBreak) /\
    c' = (if d then after_Final (after_Run crun d)
          else if override userStr passwdStr
               then SetPassword (SetUser (after_Run crun d) (c_user c))
                                (c_password c)
               else after_Run crun d) /\
    (if d
     then exists err,
            tfin = ApiFinal (after_Run crun d) err ::
                   (if Test err
                    then map Go (Retry cb "p4 connection dropped: " (Some err))
                    else [])
     else tfin = []) /\
    (forall tg, clients_ tg s' = clients_ tg s).
Proof.
  unfold lease_body, set_arguments. intros H.
  destruct (SetArgs (Z.to_nat argc) _ joined argv 0 0) as [crun|] eqn:Hargs.
  2:{ unfold bind, undefined in H. discriminate. }
  exists crun. cbv beta iota zeta delta [bind ret api_Run] in H.
  cbn [Dropped after_Run c_dropped world set_world] in H.
  remember (be_Run B crun (c_str cmdstr) (world s)) as r eqn:Hr.
  destruct r as [[calls d] w]. cbn [fst snd] in *.
  destruct d; cbn [negb] in H.
  - cbv beta iota zeta delta [api_Final emit ret] in H.
    cbn [world set_world fst snd] in H.
    set (fin := be_Final B (after_Run crun true) w) in *.
    exists (ApiFinal (after_Run crun true) (fst fin) ::
            (if Test (fst fin)
             then map Go (Retry cb "p4 connection dropped: " (Some (fst fin)))
             else [])).
    split; [reflexivity|]. cbv zeta.
    destruct (Test (fst fin)) eqn:Ht;
      apply Done_inj in H as (Hv & <- & <-); injection Hv as <- <-;
      (split; [cbn [app]; rewrite ?app_nil_r, <- ?app_assoc; reflexivity|]);
      (split; [reflexivity|]); (split; [reflexivity|]);
      (split; [exists (fst fin); rewrite Ht; reflexivity|]);
      intros [|]; reflexivity.
  - exists []. split; [reflexivity|]. cbv zeta.
    apply Done_inj in H as (Hv & <- & <-). injection Hv as <- <-.
    split; [cbn [app]; rewrite ?app_nil_r, <- ?app_assoc; reflexivity|].
    split; [reflexivity|]. split; [|split; [reflexivity|intros [|]; reflexivity]].
    unfold GetUser, GetPassword.
    destruct (override userStr passwdStr); reflexivity.
Qed.

(** The trace of the body of a round, action by action: [Final] runs on the
    handle [Run] left dropped, in the world [Run] left, and the retry notice
    carries the error of that [Final]. *)
Lemma lease_body_trace (c c' : ClientApi) (s s' : State W) (ctl : Ctl)
    (t : list Action) :
  lease_body B cb cmdstr userStr passwdStr joined argc argv c s =
    Done (ctl, c') s' t ->
  exists crun,
    SetArgs (Z.to_nat argc)
      (if override userStr passwdStr
       then SetPassword (SetUser c (c_str userStr)) (c_str passwdStr) else c)
      joined argv 0 0 = Some crun /\
    let ran := be_Run B crun (c_str cmdstr) (world s) in
    let err := fst (be_Final B (after_Run crun true) (snd ran)) in
    ctl = (if snd (fst ran) then CtlContinue else CtlBreak) /\
    t = [RunBegin crun (c_str cmdstr)] ++ flat_map (sink cb) (fst (fst ran)) ++
        [RunEnd (after_Run crun (snd (fst ran)))] ++
        (if snd (fst ran)
         then ApiFinal (after_Run crun true) err ::
              (if Test err
               then map Go (Retry cb "p4 connection dropped: " (Some err))
               else [])
         else []).
Proof.
  unfold lease_body, set_arguments. intros H.
  destruct (SetArgs (Z.to_nat argc) _ joined argv 0 0) as [crun|] eqn:Hargs.
  2:{ unfold bind, undefined in H. discriminate. }
  exists crun. split; [reflexivity|].
  cbv beta iota zeta delta [bind ret api_Run] in H.
  cbn [Dropped after_Run c_dropped world set_world] in H.
  cbv zeta.
  destruct (be_Run B crun (c_str cmdstr) (world s)) as [[calls d] w].
  cbn [fst snd] in *.
  destruct d; cbn [negb] in H.
  - cbv beta iota zeta delta [api_Final emit ret] in H.
    cbn [world set_world fst snd] in H.
    set (fin := be_Final B (after_Run crun true) w) in *.
    destruct (Test (fst fin));
      apply Done_inj in H as (Hv & _ & <-); injection Hv as <- _;
      (split; [reflexivity|]);
      cbn [app]; rewrite ?app_nil_r, <- ?app_assoc; reflexivity.
  - apply Done_inj in H as (Hv & _ & <-). injection Hv as <- _.
    split; [reflexivity|]. cbn [app]. rewrite ?app_nil_r, <- ?app_assoc.
    reflexivity.
Qed.

Lemma give_back_In (q : ClientQueue) (c x : ClientApi) :
  In x (fst (give_back q c)) -> In x q \/ x = c.
Proof.
  unfold give_back. destruct (negb (Dropped c) && _); cbn [fst]; [|auto].
  intros Hx. apply in_app_or in Hx as [Hx | [Hx | []]]; auto.
Qed.

Lemma take_front_In (q : ClientQueue) (x : ClientApi) :
  In x (snd (take_front q)) -> In x q.
Proof. destruct q; cbn; auto. Qed.

Lemma In_sink_not (calls : list SinkCall) (a : Action) :
  from_sink a = false -> ~ In a (flat_map (sink cb) calls).
Proof.
  intros Ha Hin. apply In_sink_from_sink in Hin. congruence.
Qed.

(** One attempt: the session [c] acquired, the handle [crun] the command ran
    on, and the handle [c'] given to the deleter. *)
Lemma round_attempt (init_us u : Z) (s s1 : State W) (ctl : Ctl)
    (t1 : list Action) :
  iteration B cb cmdstr userStr passwdStr joined argc argv tag init_us s =
    Done (ctl, u) s1 t1 ->
  (forall c e, In (ApiInit c e) t1 ->
     of_variant tag c /\ c_vars c = [] /\ Dropped c = false) /\
  ((ctl = CtlReturn /\
    (forall crun cmd', ~ In (RunBegin crun cmd') t1) /\
    (forall x, In x (clients_ tag s1) -> In x (clients_ tag s))) \/
   (exists c crun c',
       (In c (clients_ tag s) \/
        (of_variant tag c /\ c_vars c = [] /\ Dropped c = false)) /\
       SetArgs (Z.to_nat argc)
         (if override userStr passwdStr
          then SetPassword (SetUser c (c_str userStr)) (c_str passwdStr) else c)
         joined argv 0 0 = Some crun /\
       (forall crun' cmd', In (RunBegin crun' cmd') t1 ->
                           crun' = crun /\ cmd' = c_str cmdstr) /\
       (c_charset crun = c_charset c /\ c_protocol crun = c_protocol c) /\
       c_charset c' = c_charset c /\ c_protocol c' = c_protocol c /\
       c_vars c' = [] /\
       (forall x, In x (clients_ tag s1) -> In x (clients_ tag s) \/ x = c'))).
Proof.
  intros H.
  apply iteration_inv in H
    as (oc & ons & oerr & ofr & s0 & tacq & HPC & Hrest).
  destruct (Pool_Client_new_handles _ _ _ _ _ _ _ _ _ _ HPC) as (Hacq & Hoc).
  rewrite Forall_forall in Hacq.
  assert (Hq0 : forall x, In x (clients_ tag s0) -> In x (clients_ tag s)).
  { destruct (Pool_Client_clients B tag tag (Some init_us) (Some "") false s)
      as (r' & s0' & tr' & HPC' & Hq).
    rewrite HPC in HPC'. apply Done_inj in HPC' as (_ & <- & _).
    rewrite Hq, Bool.eqb_reflx. apply take_front_In. }
  destruct oc as [c|].
  - destruct Hrest as (c' & s2 & t2 & t3 & Hlb & Hdel & ->).
    apply lease_body_inv in Hlb
      as (crun & tfin & Hargs & Ht2 & Hctl & Hc' & Hfin & Hq2).
    cbv zeta in Ht2, Hctl, Hc', Hfin.
    set (d := snd (fst (be_Run B crun (c_str cmdstr) (world s0)))) in *.
    unfold deleter in Hdel. apply Done_inj in Hdel as (_ & <- & <-).
    assert (Hstatic : c_charset crun = c_charset c /\ c_protocol crun = c_protocol c).
    { apply SetArgs_sets_vars in Hargs as (vs & -> & _).
      destruct (fold_SetVar_static vs
                  (if override userStr passwdStr
                   then SetPassword (SetUser c (c_str userStr)) (c_str passwdStr) else c))
        as [-> ->].
      destruct (override userStr passwdStr); split; reflexivity. }
    assert (Htfin : forall a, In a tfin ->
                      is_run_begin a = false /\ is_init a = false).
    { intros a Ha. destruct d.
      - destruct Hfin as (e & ->). destruct Ha as [<- | Ha]; [split; reflexivity|].
        destruct (Test e); [|destruct Ha].
        destruct Ha as [<- | []]. split; reflexivity.
      - subst tfin. destruct Ha. }
    assert (Htdel : forall a,
              In a (if snd (give_back (clients_ tag s2) c')
                    then [ApiDelete c'] else []) ->
              is_run_begin a = false /\ is_init a = false).
    { intros a Ha. destruct (snd (give_back _ _)); [|destruct Ha].
      destruct Ha as [<- | []]. split; reflexivity. }
    split.
    + intros c1 e Hin. apply in_app_or in Hin as [Hin | Hin].
      { apply Hacq in Hin. apply Hin. }
      apply in_app_or in Hin as [Hin | Hin].
      * subst t2. cbn [app] in Hin. destruct Hin as [Hin | Hin]; [discriminate|].
        apply in_app_or in Hin as [Hin | Hin];
          [exfalso; eapply In_sink_not; [|exact Hin]; reflexivity|].
        destruct Hin as [Hin | Hin]; [discriminate|].
        apply Htfin in Hin. destruct Hin as (_ & Hin). discriminate.
      * apply Htdel in Hin. destruct Hin as (_ & Hin). discriminate.
    + right. exists c, crun, c'. split; [apply Hoc; reflexivity|].
      split; [exact Hargs|]. split; [|split; [exact Hstatic|split; [|split; [|split]]]].
      * intros crun' cmd' Hin. apply in_app_or in Hin as [Hin | Hin].
        { apply Hacq in Hin. destruct Hin as (Hin & _). discriminate. }
        apply in_app_or in Hin as [Hin | Hin].
        -- subst t2. cbn [app] in Hin. destruct Hin as [Hin | Hin].
           { injection Hin as <- <-. split; reflexivity. }
           apply in_app_or in Hin as [Hin | Hin];
             [exfalso; eapply In_sink_not; [|exact Hin]; reflexivity|].
           destruct Hin as [Hin | Hin]; [discriminate|].
           apply Htfin in Hin. destruct Hin as (Hin & _). discriminate.
        -- apply Htdel in Hin. destruct Hin as (Hin & _). discriminate.
      * subst c'. destruct Hstatic as [<- _].
        destruct d; [|destruct (override userStr passwdStr)]; reflexivity.
      * subst c'. destruct Hstatic as [_ <-].
        destruct d; [|destruct (override userStr passwdStr)]; reflexivity.
      * subst c'.
        destruct d; [|destruct (override userStr passwdStr)]; reflexivity.
      * intros x Hx.
        change (In x (clients_ tag
                  (set_clients tag (fst (give_back (clients_ tag s2) c')) s2)))
          in Hx.
        rewrite clients_set_clients, Bool.eqb_reflx in Hx.
        apply give_back_In in Hx as [Hx | Hx]; [left|right; exact Hx].
        rewrite Hq2 in Hx. apply Hq0, Hx.
  - destruct Hrest as (-> & -> & ->). split.
    + intros c1 e Hin. apply in_app_or in Hin as [Hin | Hin].
      * apply Hacq in Hin. apply Hin.
      * destruct Hin as [Hin | []]. discriminate.
    + left. split; [reflexivity|]. split; [|exact Hq0].
      intros crun cmd' Hin. apply in_app_or in Hin as [Hin | Hin].
      * apply Hacq in Hin. destruct Hin as (Hin & _). discriminate.
      * destruct Hin as [Hin | []]. discriminate.
Qed.

End Attempts.

Lemma go_events_sink (cb : ClientCb) (calls : list SinkCall) :
  go_events (flat_map (sink cb) calls) = flat_map (forward cb) calls.
Proof.
  induction calls as [|call calls IH]; [reflexivity|].
  cbn [flat_map]. rewrite go_events_app, IH. f_equal.
  assert (Hgo : forall es, go_events (map Go es) = es).
  { induction es as [|e es IHes]; [reflexivity|].
    unfold go_events in *. cbn [map flat_map app]. now rewrite IHes. }
  destruct call; cbn [sink forward]; try apply Hgo. reflexivity.
Qed.

(** X7.  Each pool holds and runs only handles of its own variant: a call on a
    pool whose idle sessions have the charset and the protocol of the pool
    constructs handles that have them before [Init], runs the command on
    handles that have them, and leaves idle sessions that have them. *)
Theorem pools_keep_their_variant :
  forall (W : Type) (B : Backend W) (fuel : nat)
         (cmd user passwd input joined : strview) (argc : Z) (argv : list Z)
         (cbid : Z) (tag : bool) (s s' : State W) (r : Z) (tr : list Action),
    p4runcb B fuel cmd user passwd input joined argc argv cbid tag s =
      Done r s' tr ->
    (forall x, In x (clients_ tag s) -> of_variant tag x) ->
    (forall x, In x (clients_ tag s') -> of_variant tag x) /\
    (forall c cmd', In (RunBegin c cmd') tr -> of_variant tag c) /\
    (forall c e, In (ApiInit c e) tr -> of_variant tag c).
Proof.
  intros W B fuel cmd user passwd input joined argc argv cbid tag s s' r tr H.
  unfold p4runcb in H.
  assert (Hround : forall init_us s0 ctl u s1 t1,
    iteration B {| cbid_ := cbid; input_ := input |} cmd user passwd joined argc
      argv tag init_us s0 = Done (ctl, u) s1 t1 ->
    (forall x, In x (clients_ tag s0) -> of_variant tag x) ->
    (forall x, In x (clients_ tag s1) -> of_variant tag x) /\
    (forall c cmd', In (RunBegin c cmd') t1 -> of_variant tag c) /\
    (forall c e, In (ApiInit c e) t1 -> of_variant tag c)).
  { intros init_us s0 ctl u s1 t1 Hit Hpool.
    apply (round_attempt B) in Hit
      as (Hinit & [(_ & Hnorun & Hq)
                  | (c & crun & c' & Hc & _ & Hrun & (Hcs & Hpr) & Hcs' & Hpr'
                     & _ & Hq)]).
    - split; [intros x Hx; apply Hpool, Hq, Hx|].
      split; [intros c cmd' Hin; destruct (Hnorun _ _ Hin)|].
      intros c e Hin. apply (Hinit _ _ Hin).
    - assert (Hvc : of_variant tag c).
      { destruct Hc as [Hc | (Hc & _)]; [apply Hpool, Hc | exact Hc]. }
      split; [|split].
      + intros x Hx. apply Hq in Hx as [Hx | ->]; [apply Hpool, Hx|].
        unfold of_variant in *. rewrite Hcs', Hpr'. exact Hvc.
      + intros c1 cmd' Hin. apply Hrun in Hin as (-> & _).
        unfold of_variant in *. rewrite Hcs, Hpr. exact Hvc.
      + intros c1 e Hin. apply (Hinit _ _ Hin). }
  refine (p4runcb_loop_rounds B _ _ _ _ _ _ _ _
            (fun _ s _ s' tr =>
               (forall x, In x (clients_ tag s) -> of_variant tag x) ->
               (forall x, In x (clients_ tag s') -> of_variant tag x) /\
               (forall c cmd', In (RunBegin c cmd') tr -> of_variant tag c) /\
               (forall c e, In (ApiInit c e) tr -> of_variant tag c))
            _ _ _ _ _ _ _ _ H).
  - intros init_us s0 ctl u s1 t1 Hit _. eapply Hround, Hit.
  - intros init_us s0 u s1 t1 r0 s0' t2 Hit IH Hpool.
    destruct (Hround _ _ _ _ _ _ Hit Hpool) as (Hp1 & Hr1 & Hi1).
    destruct (IH Hp1) as (Hp2 & Hr2 & Hi2).
    split; [exact Hp2|]. split.
    + intros c cmd' Hin. apply in_app_or in Hin as [Hin | Hin]; eauto.
    + intros c e Hin. apply in_app_or in Hin as [Hin | Hin]; eauto.
Qed.

Lemma pools_keep_their_variant_witness :
  exists r s' tr,
    p4runcb scripted 2 "sync" "alice" "pw" "" "" 0 [] 7 false
      {| defaultPool := [idle_session 4]; tagPool := []; world := loud_drop |} =
      Done r s' tr /\
    (forall x, In x (clients_ false s') -> of_variant false x) /\
    (forall c cmd', In (RunBegin c cmd') tr -> of_variant false c) /\
    (forall c e, In (ApiInit c e) tr -> of_variant false c).
Proof.
  eexists _, _, _. split; [vm_compute; reflexivity|].
  refine (pools_keep_their_variant Script scripted 2%nat "sync" "alice" "pw" ""
            "" 0 [] 7 false
            {| defaultPool := [idle_session 4]; tagPool := []; world := loud_drop |}
            _ _ _ _ _).
  - vm_compute. reflexivity.
  - intros x [<- | []]. split; reflexivity.
Defined.

(** X8.  Every attempt of a call runs the same command on the same arguments:
    when the idle sessions hold no pending variables (and the packed buffer
    is no longer than an [int] can tell), each [Run] of the call is given the
    command of the call up to its first NUL, on a handle whose variables are
    exactly the slices of the packed buffer, and, when the call has an
    override, under the user and the password of the override, each up to
    its first NUL; and the sessions idle afterwards hold no pending
    variables again. *)
Theorem attempts_run_same_command :
  forall (W : Type) (B : Backend W) (fuel : nat)
         (cmd user passwd input joined : strview) (argc : Z) (argv : list Z)
         (cbid : Z) (tag : bool) (s s' : State W) (r : Z) (tr : list Action),
    p4runcb B fuel cmd user passwd input joined argc argv cbid tag s =
      Done r s' tr ->
    sv_len joined <= INT_MAX ->
    (forall x, In x (clients_ tag s) -> c_vars x = []) ->
    (forall c cmd', In (RunBegin c cmd') tr ->
       cmd' = c_str cmd /\
       c_vars c = arg_slices joined argv argc /\
       (user <> "" -> passwd <> "" -> c_user c = c_str user /\ c_password c = c_str passwd)) /\
    (forall x, In x (clients_ tag s') -> c_vars x = []).
Proof.
  intros W B fuel cmd user passwd input joined argc argv cbid tag s s' r tr H
         Hmax.
  unfold p4runcb in H.
  assert (Hround : forall init_us s0 ctl u s1 t1,
    iteration B {| cbid_ := cbid; input_ := input |} cmd user passwd joined argc
      argv tag init_us s0 = Done (ctl, u) s1 t1 ->
    (forall x, In x (clients_ tag s0) -> c_vars x = []) ->
    (forall c cmd', In (RunBegin c cmd') t1 ->
       cmd' = c_str cmd /\
       c_vars c = arg_slices joined argv argc /\
       (user <> "" -> passwd <> "" -> c_user c = c_str user /\ c_password c = c_str passwd)) /\
    (forall x, In x (clients_ tag s1) -> c_vars x = [])).
  { intros init_us s0 ctl u s1 t1 Hit Hpool.
    apply (round_attempt B) in Hit
      as (_ & [(_ & Hnorun & Hq)
              | (c & crun & c' & Hc & Hargs & Hrun & _ & _ & _ & Hv' & Hq)]).
    - split; [intros c cmd' Hin; destruct (Hnorun _ _ Hin)|].
      intros x Hx. apply Hpool, Hq, Hx.
    - assert (Hvc : c_vars c = []).
      { destruct Hc as [Hc | (_ & Hc & _)]; [apply Hpool, Hc | exact Hc]. }
      split.
      + intros c1 cmd' Hin. apply Hrun in Hin as (-> & ->).
        split; [reflexivity|].
        apply (SetArgs_are_slices joined argv Hmax (Z.to_nat argc) 0) in Hargs.
        subst crun. split.
        * rewrite c_vars_fold_SetVar. unfold arg_slices.
          destruct (override user passwd); cbn [c_vars SetPassword SetUser];
            rewrite Hvc; reflexivity.
        * intros Hu Hp.
          pose proof (creds_fold_SetVar
                        (map (arg_slice joined argv) (seq 0 (Z.to_nat argc)))
                        (if override user passwd
                         then SetPassword (SetUser c (c_str user)) (c_str passwd)
                         else c)) as Hcr.
          rewrite (override_on _ _ Hu Hp) in *. unfold creds in Hcr.
          injection Hcr as -> ->. split; reflexivity.
      + intros x Hx. apply Hq in Hx as [Hx | ->]; [apply Hpool, Hx | exact Hv']. }
  refine (p4runcb_loop_rounds B _ _ _ _ _ _ _ _
            (fun _ s _ s' tr =>
               (forall x, In x (clients_ tag s) -> c_vars x = []) ->
               (forall c cmd', In (RunBegin c cmd') tr ->
                  cmd' = c_str cmd /\
                  c_vars c = arg_slices joined argv argc /\
                  (user <> "" -> passwd <> "" ->
                   c_user c = c_str user /\ c_password c = c_str passwd)) /\
               (forall x, In x (clients_ tag s') -> c_vars x = []))
            _ _ _ _ _ _ _ _ H).
  - intros init_us s0 ctl u s1 t1 Hit _. eapply Hround, Hit.
  - intros init_us s0 u s1 t1 r0 s0' t2 Hit IH Hpool.
    destruct (Hround _ _ _ _ _ _ Hit Hpool) as (Hr1 & Hp1).
    destruct (IH Hp1) as (Hr2 & Hp2).
    split; [|exact Hp2].
    intros c cmd' Hin. apply in_app_or in Hin as [Hin | Hin]; eauto.
Qed.

Lemma attempts_run_same_command_witness :
  exists r s' tr,
    p4runcb scripted 2 "sync" user_with_nul passwd_with_nul "" "foobarbaz" 3
      [3; 3; 3] 7 false (start_state loud_drop) = Done r s' tr /\
    (forall c cmd', In (RunBegin c cmd') tr ->
       cmd' = "sync" /\
       c_vars c = arg_slices "foobarbaz" [3; 3; 3] 3 /\
       (user_with_nul <> "" -> passwd_with_nul <> "" ->
        c_user c = "al" /\ c_password c = "pw")) /\
    (forall x, In x (clients_ false s') -> c_vars x = []).
Proof.
  eexists _, _, _. split; [vm_compute; reflexivity|].
  refine (attempts_run_same_command Script scripted 2%nat "sync" user_with_nul
            passwd_with_nul "" "foobarbaz" 3 [3; 3; 3] 7 false
            (start_state loud_drop) _ _ _ _ _ _).
  - vm_compute. reflexivity.
  - vm_compute. discriminate.
  - intros x [].
Defined.

(** X9.  An override needs both strings: with the user or the password empty,
    the attempt runs the command (as [c_str()] gives it, up to its first NUL)
    once, under the credentials the session had when leased, and hands the
    session on with them. *)
Theorem partial_override_is_ignored :
  forall (W : Type) (B : Backend W) (cb : ClientCb)
         (cmdstr userStr passwdStr : string) (joined : strview) (argc : Z)
         (argv : list Z) (c c' : ClientApi) (s s' : State W) (ctl : Ctl)
         (t : list Action),
    userStr = "" \/ passwdStr = "" ->
    lease_body B cb cmdstr userStr passwdStr joined argc argv c s =
      Done (ctl, c') s' t ->
    creds c' = creds c /\
    exists crun rest,
      t = RunBegin crun (c_str cmdstr) :: rest /\ creds crun = creds c /\
      forall crun' cmd', In (RunBegin crun' cmd') rest -> False.
Proof.
  intros W B cb cmdstr userStr passwdStr joined argc argv c c' s s' ctl t Hpart H.
  assert (Hov : override userStr passwdStr = false).
  { unfold override. destruct Hpart as [-> | ->]; [reflexivity|].
    destruct userStr; reflexivity. }
  apply lease_body_inv in H as (crun & tfin & Hargs & Ht & _ & Hc' & Hfin & _).
  cbv zeta in Ht, Hc', Hfin. rewrite Hov in Hargs, Hc'.
  apply SetArgs_sets_vars in Hargs as (vs & Hcrun & _).
  assert (Hcr : creds crun = creds c) by (subst crun; apply creds_fold_SetVar).
  split.
  - subst c'. destruct (snd (fst (be_Run B crun (c_str cmdstr) (world s)))); exact Hcr.
  - eexists crun, _. split; [exact Ht|]. split; [exact Hcr|].
    intros crun' cmd' Hin.
    apply in_app_or in Hin as [Hin | Hin];
      [eapply In_sink_not; [|exact Hin]; reflexivity|].
    destruct Hin as [Hin | Hin]; [discriminate|].
    destruct (snd (fst (be_Run B crun (c_str cmdstr) (world s)))).
    + destruct Hfin as (e & ->). destruct Hin as [Hin | Hin]; [discriminate|].
      destruct (Test e); [|destruct Hin]. destruct Hin as [Hin | []]. discriminate.
    + subst tfin. destruct Hin.
Qed.

Lemma partial_override_is_ignored_witness :
  exists ctl c' s' t,
    lease_body scripted {| cbid_ := 7; input_ := "" |} "sync" "alice" "" "" 0 []
      (idle_session 1) (start_state clean_run) = Done (ctl, c') s' t /\
    creds c' = ("builder", "hunter2").
Proof.
  eexists _, _, _, _. split; [vm_compute; reflexivity|].
  refine (proj1 (partial_override_is_ignored Script scripted
                   {| cbid_ := 7; input_ := "" |} "sync" "alice" "" "" 0 []
                   (idle_session 1) _ (start_state clean_run) _ _ _
                   (or_intror eq_refl) _)).
  vm_compute. reflexivity.
Defined.

(** X10.  An attempt hands Go the events of the calls the library made on the
    adapter during [Run], in their order.  When [Run] leaves the connection
    up, the attempt adds nothing, calls no [Final] and breaks out of the
    loop.  When [Run] leaves it dropped, the attempt calls [Final] once, on
    the handle [Run] left, and adds the retry notice exactly when that
    [Final] reports an error, with the text of that error; then the loop
    goes on. *)
Theorem attempt_forwards_library_calls :
  forall (W : Type) (B : Backend W) (cb : ClientCb)
         (cmdstr userStr passwdStr : string) (joined : strview) (argc : Z)
         (argv : list Z) (c c' : ClientApi) (s s' : State W) (ctl : Ctl)
         (t : list Action),
    lease_body B cb cmdstr userStr passwdStr joined argc argv c s =
      Done (ctl, c') s' t ->
    exists crun,
      SetArgs (Z.to_nat argc)
        (if override userStr passwdStr
         then SetPassword (SetUser c (c_str userStr)) (c_str passwdStr) else c)
        joined argv 0 0 = Some crun /\
      In (RunBegin crun (c_str cmdstr)) t /\
      let ran := be_Run B crun (c_str cmdstr) (world s) in
      let calls := fst (fst ran) in
      let err := fst (be_Final B (after_Run crun true) (snd ran)) in
      if snd (fst ran)
      then ctl = CtlContinue /\
           filter is_final t = [ApiFinal (after_Run crun true) err] /\
           go_events t =
             flat_map (forward cb) calls ++
             (if Test err
              then [gop4apiRetry (cbid_ cb) "p4 connection dropped: " (Fmt err)
                      (Z.of_nat (String.length (Fmt err)))]
              else [])
      else ctl = CtlBreak /\
           filter is_final t = [] /\
           go_events t = flat_map (forward cb) calls.
Proof.
  intros W B cb cmdstr userStr passwdStr joined argc argv c c' s s' ctl t H.
  apply lease_body_trace in H as (crun & Hargs & Hctl & Ht).
  cbv zeta in Hctl, Ht. exists crun. split; [exact Hargs|].
  split; [subst t; left; reflexivity|]. cbv zeta.
  assert (Hsink : filter is_final
                    (flat_map (sink cb)
                       (fst (fst (be_Run B crun (c_str cmdstr) (world s))))) = []).
  { generalize (fst (fst (be_Run B crun (c_str cmdstr) (world s)))).
    intros calls. induction calls as [|call calls IH]; [reflexivity|].
    cbn [flat_map]. rewrite filter_app, IH, app_nil_r.
    destruct call; cbn [sink]; try reflexivity.
    - unfold HandleError. destruct (Test err); reflexivity.
    - unfold OutputStat. destruct (OutputStat_loop _ _ _ _ _). reflexivity. }
  destruct (snd (fst (be_Run B crun (c_str cmdstr) (world s)))).
  - split; [exact Hctl|]. subst t. split.
    + rewrite !filter_app, Hsink. cbn [filter is_final app].
      destruct (Test _); reflexivity.
    + rewrite !go_events_app, go_events_sink.
      destruct (Test _); reflexivity.
  - split; [exact Hctl|]. subst t. split.
    + rewrite !filter_app, Hsink. reflexivity.
    + rewrite !go_events_app, go_events_sink. apply app_nil_r.
Qed.

Lemma attempt_forwards_library_calls_witness :
  (exists ctl c' s' t,
      lease_body scripted {| cbid_ := 7; input_ := "" |} "sync" "" "" "" 0 []
        (idle_session 1) (start_state clean_run) = Done (ctl, c') s' t /\
      ctl = CtlBreak /\ filter is_final t = [] /\
      go_events t = [gop4apiOutputText 7 "ok" 2]) /\
  (exists ctl c' s' t,
      lease_body scripted {| cbid_ := 7; input_ := "" |} "sync" "" "" "" 0 []
        (idle_session 1) (start_state quiet_drop) = Done (ctl, c') s' t /\
      ctl = CtlContinue /\
      filter is_final t =
        [ApiFinal (after_Run (idle_session 1) true) no_error] /\
      go_events t = []).
Proof.
  split.
  - eexists _, _, _, _. split; [vm_compute; reflexivity|].
    match goal with
    | |- ?ctl = _ /\ filter is_final ?t = _ /\ _ =>
        assert (Hrun : exists c' s',
                  lease_body scripted {| cbid_ := 7; input_ := "" |} "sync" ""
                    "" "" 0 [] (idle_session 1) (start_state clean_run) =
                  Done (ctl, c') s' t)
          by (eexists _, _; vm_compute; reflexivity)
    end.
    destruct Hrun as (c' & s' & Hrun).
    destruct (attempt_forwards_library_calls Script scripted _ _ _ _ _ _ _ _ _
                _ _ _ _ Hrun) as (crun & _ & _ & H).
    exact H.
  - eexists _, _, _, _. split; [vm_compute; reflexivity|].
    match goal with
    | |- ?ctl = _ /\ filter is_final ?t = _ /\ _ =>
        assert (Hrun : exists c' s',
                  lease_body scripted {| cbid_ := 7; input_ := "" |} "sync" ""
                    "" "" 0 [] (idle_session 1) (start_state quiet_drop) =
                  Done (ctl, c') s' t)
          by (eexists _, _; vm_compute; reflexivity)
    end.
    destruct Hrun as (c' & s' & Hrun).
    destruct (attempt_forwards_library_calls Script scripted _ _ _ _ _ _ _ _ _
                _ _ _ _ Hrun) as (crun & Hargs & _ & H).
    vm_compute in Hargs. injection Hargs as <-. exact H.
Defined.

(* ------------------------------------------------------------------------- *)
(** ** Reads stay inside the packed buffer *)

Section Safety.

Context {W : Type} (B : Backend W).
Variables (cb : ClientCb) (cmdstr userStr passwdStr : string)
  (joined : strview) (argc : Z) (argv : list Z) (tag : bool).

Lemma bind_Undefined {A C : Type} (m : M W A) (k : A -> M W C) (s : State W) :
  bind m k s = Undefined ->
  m s = Undefined \/ exists a s1 t1, m s = Done a s1 t1 /\ k a s1 = Undefined.
Proof.
  unfold bind. intros H.
  destruct (m s) as [a s1 t1| |]; [|left; reflexivity|discriminate].
  right. exists a, s1, t1. split; [reflexivity|].
  destruct (k a s1); [discriminate|reflexivity|discriminate].
Qed.

Hypothesis table_in_range :
  forall c : ClientApi, SetArgs (Z.to_nat argc) c joined argv 0 0 <> None.

Lemma lease_body_defined (c : ClientApi) (s : State W) :
  lease_body B cb cmdstr userStr passwdStr joined argc argv c s <> Undefined.
Proof.
  unfold lease_body, set_arguments, bind.
  match goal with
  | |- context [SetArgs ?n ?x joined argv 0 0] =>
      destruct (SetArgs n x joined argv 0 0) as [crun|] eqn:E;
        [|destruct (table_in_range _ E)]
  end.
  unfold ret at 1. unfold api_Run.
  destruct (be_Run B crun (c_str cmdstr) (world s)) as [[calls d] w].
  destruct d; cbn [Dropped after_Run c_dropped negb fst snd].
  - unfold api_Final. cbn [world set_world].
    match goal with |- context [Test ?e] => destruct (Test e) end;
      cbn; discriminate.
  - cbn. discriminate.
Qed.

Lemma iteration_defined (init_us : Z) (s : State W) :
  iteration B cb cmdstr userStr passwdStr joined argc argv tag init_us s <>
    Undefined.
Proof.
  unfold iteration. intros H.
  apply bind_Undefined in H as [H | (a & s1 & t1 & Hacq & H)].
  - destruct (Pool_Client_cases B tag init_us s)
      as (s0 & _ & [(c & rest & _ & HPC) | [(c & err & _ & _ & HPC)
                                          | (c & err & start & stop & _ & _ & HPC)]]);
      rewrite HPC in H; discriminate.
  - destruct a as [[[[c|] ns] errmsg] fresh].
    + apply bind_Undefined in H as [H | ([ctl c'] & s2 & t2 & _ & H)].
      * exact (lease_body_defined c s1 H).
      * discriminate.
    + discriminate.
Qed.

Lemma p4runcb_loop_defined (fuel : nat) :
  forall (init_us : Z) (s : State W),
    p4runcb_loop B fuel cb cmdstr userStr passwdStr joined argc argv tag init_us s
      <> Undefined.
Proof.
  induction fuel as [|fuel IH]; intros init_us s; [discriminate|].
  cbn [p4runcb_loop]. intros H.
  apply bind_Undefined in H as [H | ([ctl u] & s1 & t1 & _ & H)].
  - exact (iteration_defined init_us s H).
  - destruct ctl; [discriminate|discriminate|exact (IH u s1 H)].
Qed.

End Safety.

(** X11.  A call whose length table has at least [argc] lengths, none negative,
    that stay inside the packed buffer (whose own length fits an [int]) reads
    only inside the buffer and the table, on every attempt and however often
    it retries: its behaviour is never undefined. *)
Theorem call_reads_inside_buffer :
  forall (W : Type) (B : Backend W) (fuel : nat)
         (cmd user passwd input joined : strview) (argc : Z) (argv : list Z)
         (cbid : Z) (tag : bool) (s : State W),
    argc <= Z.of_nat (List.length argv) ->
    Forall (fun len => 0 <= len) argv ->
    sum_Z argv <= sv_len joined ->
    sv_len joined <= INT_MAX ->
    p4runcb B fuel cmd user passwd input joined argc argv cbid tag s <> Undefined.
Proof.
  intros W B fuel cmd user passwd input joined argc argv cbid tag s
         Hargc Hpos Hsum Hmax.
  unfold p4runcb. apply p4runcb_loop_defined. intros c.
  assert (E : (0 + Z.to_nat argc <= List.length argv)%nat) by lia.
  apply (SetArgs_slices joined argv Hpos Hsum Hmax (Z.to_nat argc) 0 c) in E.
  cbn [firstn sum_Z fold_right] in E. rewrite E. discriminate.
Qed.

Lemma call_reads_inside_buffer_witness :
  p4runcb scripted 2 "sync" "alice" "pw" "" "foobarbaz" 3 [3; 3; 3] 7 false
    (start_state loud_drop) <> Undefined.
Proof.
  apply (call_reads_inside_buffer Script scripted 2%nat "sync" "alice" "pw" ""
           "foobarbaz" 3 [3; 3; 3] 7 false (start_state loud_drop)).
  - simpl. lia.
  - repeat constructor; lia.
  - vm_compute. discriminate.
  - vm_compute. discriminate.
Defined.

(* ========================================================================= *)
(** * The shader packer's helpers *)

Section CaseInsensitive.

Variable tolower : ascii -> Z.

Lemma equal_tolower_lists (a : string) :
  forall b : string,
    String.length a = String.length b ->
    (equal_tolower tolower a b = true <->
     tolower_string tolower a = tolower_string tolower b).
Proof.
  induction a as [|x a IH]; intros [|y b] Hlen; simpl in *; try discriminate.
  - split; reflexivity.
  - injection Hlen as Hlen. specialize (IH b Hlen).
    rewrite andb_true_iff, Z.eqb_eq, IH. split.
    + intros [-> ->]. reflexivity.
    + intros H. injection H as -> ->. auto.
Qed.

Lemma tolower_string_length (a : string) :
  List.length (tolower_string tolower a) = String.length a.
Proof. induction a as [|x a IH]; simpl; [reflexivity | now rewrite IH]. Qed.

Lemma CompareString_lists (a b : string) :
  CompareString tolower a b = true <->
  tolower_string tolower a = tolower_string tolower b.
Proof.
  unfold CompareString. rewrite andb_true_iff, Nat.eqb_eq. split.
  - intros [Hlen Heq]. apply equal_tolower_lists; assumption.
  - intros H.
    assert (Hlen : String.length a = String.length b).
    { rewrite <- !tolower_string_length. now rewrite H. }
    split; [exact Hlen|]. apply equal_tolower_lists; assumption.
Qed.

Lemma CompareString_7bit (a b : string) :
  (forall c, is_7bit c = true -> tolower c = tolower_C c) ->
  all_7bit a = true -> all_7bit b = true ->
  CompareString tolower a b = CompareString tolower_C a b.
Proof.
  intros H7. unfold CompareString. revert b.
  induction a as [|x a IH]; intros [|y b] Ha Hb; simpl in *; try reflexivity.
  apply andb_true_iff in Ha as [Hx Ha]. apply andb_true_iff in Hb as [Hy Hb].
  rewrite (H7 x Hx), (H7 y Hy).
  specialize (IH b Ha Hb).
  destruct (String.length a =? String.length b)%nat; simpl in *;
    [|reflexivity].
  now rewrite IH.
Qed.

End CaseInsensitive.

(** X12.  [CompareString] is an equivalence, whatever [tolower] does: two strings
    compare equal exactly when they have the same characters after
    [tolower], so a string equals itself, the order of the arguments does not
    matter, equality passes along, and strings of different sizes never
    compare equal. *)
Theorem CompareString_is_equivalence :
  forall tolower : ascii -> Z,
    (forall a b, CompareString tolower a b = true <->
                 tolower_string tolower a = tolower_string tolower b) /\
    (forall a, CompareString tolower a a = true) /\
    (forall a b, CompareString tolower a b = CompareString tolower b a) /\
    (forall a b c, CompareString tolower a b = true ->
                   CompareString tolower b c = true ->
                   CompareString tolower a c = true) /\
    (forall a b, String.length a <> String.length b ->
                 CompareString tolower a b = false).
Proof.
  intros tolower. split; [apply CompareString_lists|]. split; [|split; [|split]].
  - intros a. now apply CompareString_lists.
  - intros a b.
    destruct (CompareString tolower a b) eqn:Hab;
      destruct (CompareString tolower b a) eqn:Hba; try reflexivity.
    + apply CompareString_lists in Hab. symmetry in Hab.
      apply CompareString_lists in Hab. congruence.
    + apply CompareString_lists in Hba. symmetry in Hba.
      apply CompareString_lists in Hba. congruence.
  - intros a b c Hab Hbc. apply CompareString_lists in Hab, Hbc.
    apply CompareString_lists. congruence.
  - intros a b Hlen. unfold CompareString.
    apply Nat.eqb_neq in Hlen. now rewrite Hlen.
Qed.

Lemma no_other_name (tolower : ascii -> Z) (s n n' : string) :
  (forall c, is_7bit c = true -> tolower c = tolower_C c) ->
  all_7bit n = true -> all_7bit n' = true ->
  CompareString tolower_C n' n = false ->
  CompareString tolower s n = true -> CompareString tolower s n' = false.
Proof.
  intros H7 Hn Hn' Hdiff Hs.
  destruct (CompareString tolower s n') eqn:Hs'; [|reflexivity].
  apply CompareString_lists in Hs, Hs'.
  assert (H : CompareString tolower n' n = true)
    by (apply CompareString_lists; congruence).
  rewrite (CompareString_7bit tolower n' n H7 Hn' Hn) in H. congruence.
Qed.

Lemma GetShaderType_reads_names_aux :
  forall (tolower : ascii -> Z) (NDEBUG : bool),
    (forall c, is_7bit c = true -> tolower c = tolower_C c) ->
    (forall type name s,
        type_name type = Some name ->
        CompareString tolower s name = true ->
        GetShaderType tolower NDEBUG s = Value type) /\
    (forall s,
        (forall type name, type_name type = Some name ->
                           CompareString tolower s name = false) ->
        GetShaderType tolower NDEBUG s =
          if NDEBUG then Value ShaderType_Vertex
          else AssertionFailed "Unsupported shader type!!!").
Proof.
  intros tolower NDEBUG H7. split.
  - intros type name s Hname Hs. unfold GetShaderType.
    destruct type; cbn in Hname; try discriminate; injection Hname as <-;
      repeat match goal with
             | Hs : CompareString tolower s ?n = true
               |- (if CompareString tolower s ?n' then _ else _) = _ =>
                 first
                   [ rewrite Hs; reflexivity
                   | rewrite (no_other_name tolower s n n' H7 eq_refl eq_refl
                                eq_refl Hs) ]
             end.
  - intros s Hnone. unfold GetShaderType.
    rewrite (Hnone ShaderType_Vertex _ eq_refl),
            (Hnone ShaderType_Pixel _ eq_refl),
            (Hnone ShaderType_Geometry _ eq_refl),
            (Hnone ShaderType_Hull _ eq_refl),
            (Hnone ShaderType_Domain _ eq_refl),
            (Hnone ShaderType_Compute _ eq_refl).
    reflexivity.
Qed.

(** On 7-bit strings [tolower] of the "C" locale is [tolower_C], and
    [CompareString] tells whether the strings are the same up to the case of
    their ASCII letters. *)
Lemma tolower_string_lower (tolower : ascii -> Z) (a : string) :
  (forall c, is_7bit c = true -> tolower c = tolower_C c) ->
  all_7bit a = true -> tolower_string tolower a = lower_string a.
Proof.
  intros H7. induction a as [|x a IH]; intros Ha; [reflexivity|].
  cbn [all_7bit] in Ha. apply andb_true_iff in Ha as [Hx Ha].
  cbn [tolower_string lower_string]. now rewrite (H7 x Hx), IH.
Qed.

Lemma CompareString_lower (tolower : ascii -> Z) (a b : string) :
  (forall c, is_7bit c = true -> tolower c = tolower_C c) ->
  all_7bit a = true -> all_7bit b = true ->
  (CompareString tolower a b = true <-> lower_string a = lower_string b).
Proof.
  intros H7 Ha Hb. rewrite CompareString_lists.
  now rewrite !(tolower_string_lower tolower _ H7) by assumption.
Qed.

(** A string that is a 7-bit string up to letter case is a 7-bit string. *)
Lemma lower_string_7bit (a : string) :
  forall b : string,
    lower_string a = lower_string b -> all_7bit b = true -> all_7bit a = true.
Proof.
  induction a as [|x a IH]; intros [|y b] H Hb; try discriminate; [reflexivity|].
  cbn [lower_string] in H. injection H as Hxy Hab.
  cbn [all_7bit] in Hb |- *. apply andb_true_iff in Hb as [Hy Hb].
  rewrite (IH b Hab Hb), andb_true_r.
  unfold is_7bit in *. apply Nat.ltb_lt in Hy. apply Nat.ltb_lt.
  unfold tolower_C in Hxy.
  destruct ((65 <=? Z.of_nat (nat_of_ascii x)) && (Z.of_nat (nat_of_ascii x) <=? 90));
    destruct ((65 <=? Z.of_nat (nat_of_ascii y)) && (Z.of_nat (nat_of_ascii y) <=? 90))
      eqn:Ey;
    try (apply andb_true_iff in Ey as [_ Ey]; apply Z.leb_le in Ey); lia.
Qed.

Lemma type_name_7bit (type : ShaderType) (name : string) :
  type_name type = Some name -> all_7bit name = true.
Proof.
  destruct type; cbn; intros H; try discriminate; injection H as <-; reflexivity.
Qed.

(** [GetShaderType] by the letters of its argument. *)
Lemma GetShaderType_by_letters :
  forall (tolower : ascii -> Z) (NDEBUG : bool),
    (forall c, is_7bit c = true -> tolower c = tolower_C c) ->
    (forall type name s,
        type_name type = Some name ->
        lower_string s = lower_string name ->
        GetShaderType tolower NDEBUG s = Value type) /\
    (forall s,
        all_7bit s = true ->
        (forall type name, type_name type = Some name ->
                           lower_string s <> lower_string name) ->
        GetShaderType tolower NDEBUG s =
          if NDEBUG then Value ShaderType_Vertex
          else AssertionFailed "Unsupported shader type!!!").
Proof.
  intros tolower NDEBUG H7.
  destruct (GetShaderType_reads_names_aux tolower NDEBUG H7) as [Hname Hnone].
  split.
  - intros type name s Hn Hs. apply (Hname type name s Hn).
    pose proof (type_name_7bit type name Hn) as H7n.
    apply (CompareString_lower tolower s name H7); [|exact H7n|exact Hs].
    exact (lower_string_7bit s name Hs H7n).
  - intros s H7s Hs. apply Hnone. intros type name Hn.
    destruct (CompareString tolower s name) eqn:E; [|reflexivity].
    apply (CompareString_lower tolower s name H7 H7s
             (type_name_7bit type name Hn)) in E.
    destruct (Hs type name Hn E).
Qed.

(** X13.  With [tolower] as the "C" locale has it on 7-bit characters, a string
    that is a type name up to the case of its letters ("VERTEX", "Pixel",
    "GeoMETRY") is read as that type, with or without [NDEBUG]; a 7-bit
    string that is none of the six names up to letter case fails the
    assertion, and with [NDEBUG] is read as a vertex shader. *)
Theorem GetShaderType_reads_names :
  forall (tolower : ascii -> Z) (NDEBUG : bool),
    (forall c, is_7bit c = true -> tolower c = tolower_C c) ->
    (forall type name s,
        type_name type = Some name ->
        lower_string s = lower_string name ->
        GetShaderType tolower NDEBUG s = Value type) /\
    (forall s,
        all_7bit s = true ->
        (forall type name, type_name type = Some name ->
                           lower_string s <> lower_string name) ->
        GetShaderType tolower NDEBUG s =
          if NDEBUG then Value ShaderType_Vertex
          else AssertionFailed "Unsupported shader type!!!").
Proof.
  intros tolower NDEBUG H7.
  destruct (GetShaderType_by_letters tolower NDEBUG H7) as [Hname Hnone].
  split.
  - intros type name s Hn Hs. exact (Hname type name s Hn Hs).
  - intros s H7s Hs. exact (Hnone s H7s Hs).
Qed.

Lemma GetShaderType_reads_names_witness :
  GetShaderType tolower_C false "GeoMETRY" = Value ShaderType_Geometry /\
  GetShaderType tolower_C true "VERTEX" = Value ShaderType_Vertex /\
  GetShaderType tolower_C true "fragment" = Value ShaderType_Vertex /\
  GetShaderType tolower_C false "fragment" =
    AssertionFailed "Unsupported shader type!!!".
Proof.
  pose proof (GetShaderType_reads_names tolower_C false (fun c _ => eq_refl))
    as [Hname Hnone].
  pose proof (GetShaderType_reads_names tolower_C true (fun c _ => eq_refl))
    as [Hname' Hnone'].
  split; [|split; [|split]].
  - apply (Hname ShaderType_Geometry "geometry"); reflexivity.
  - apply (Hname' ShaderType_Vertex "vertex"); reflexivity.
  - apply Hnone'; [reflexivity|].
    intros [| | | | | |v] name Hn; cbn in Hn; try discriminate;
      injection Hn as <-; vm_compute; discriminate.
  - apply Hnone; [reflexivity|].
    intros [| | | | | |v] name Hn; cbn in Hn; try discriminate;
      injection Hn as <-; vm_compute; discriminate.
Defined.

(** X14.  An entry whose type is given as one of the six names, up to the case
    of its letters, is compiled for the profile made of the first letter of
    that name and "s_6_0"; different types get different profiles; and with
    [NDEBUG] an entry whose 7-bit type string is none of the six names is
    compiled as a vertex shader, "vs_6_0". *)
Theorem entry_profile_follows_type_name :
  forall (tolower : ascii -> Z) (NDEBUG : bool),
    (forall c, is_7bit c = true -> tolower c = tolower_C c) ->
    (forall type name s,
        type_name type = Some name ->
        lower_string s = lower_string name ->
        entry_profile tolower NDEBUG s =
          Value (substring 0 1 name ++ "s_6_0")%string) /\
    (forall t1 t2,
        type_name t1 <> None ->
        GetTargetProfile NDEBUG t1 = GetTargetProfile NDEBUG t2 -> t1 = t2) /\
    (forall s,
        all_7bit s = true ->
        (forall type name, type_name type = Some name ->
                           lower_string s <> lower_string name) ->
        entry_profile tolower NDEBUG s =
          if NDEBUG then Value "vs_6_0"
          else AssertionFailed "Unsupported shader type!!!").
Proof.
  intros tolower NDEBUG H7.
  destruct (GetShaderType_by_letters tolower NDEBUG H7) as [Hname Hnone].
  split; [|split].
  - intros type name s Hn Hs. unfold entry_profile.
    rewrite (Hname type name s Hn Hs).
    destruct type; cbn in Hn; try discriminate; injection Hn as <-; reflexivity.
  - intros t1 t2 Hn1 Heq.
    destruct t1; try (exfalso; apply Hn1; reflexivity);
      destruct t2; try reflexivity; cbn in Heq;
      try discriminate; destruct NDEBUG; discriminate.
  - intros s H7s Hs. unfold entry_profile. rewrite (Hnone s H7s Hs).
    destruct NDEBUG; reflexivity.
Qed.

Lemma entry_profile_follows_type_name_witness :
  entry_profile tolower_C false "PIXEL" = Value "ps_6_0" /\
  entry_profile tolower_C false "Compute" = Value "cs_6_0" /\
  entry_profile tolower_C true "fragment" = Value "vs_6_0".
Proof.
  pose proof (entry_profile_follows_type_name tolower_C false (fun c _ => eq_refl))
    as [Hname _].
  pose proof (entry_profile_follows_type_name tolower_C true (fun c _ => eq_refl))
    as (_ & _ & Hnone).
  split; [|split].
  - apply (Hname ShaderType_Pixel "pixel"); reflexivity.
  - apply (Hname ShaderType_Compute "compute"); reflexivity.
  - apply Hnone; [reflexivity|].
    intros [| | | | | |v] name Hn; cbn in Hn; try discriminate;
      injection Hn as <-; vm_compute; discriminate.
Defined.

(* ------------------------------------------------------------------------- *)
(** ** The file names of [main] *)

Lemma length_append (a b : string) :
  String.length (a ++ b) = (String.length a + String.length b)%nat.
Proof. induction a as [|x a IH]; simpl; [reflexivity | now rewrite IH]. Qed.

Lemma append_associative (a b c : string) :
  ((a ++ b) ++ c = a ++ (b ++ c))%string.
Proof. induction a as [|x a IH]; simpl; [reflexivity | now rewrite IH]. Qed.

Lemma find_last_of_lt (chars : string) (s : string) :
  forall i, find_last_of s chars = Some i -> (i < String.length s)%nat.
Proof.
  induction s as [|x s IH]; intros i H; simpl in H; [discriminate|].
  destruct (find_last_of s chars) as [k|].
  - injection H as <-. specialize (IH k eq_refl). simpl. lia.
  - destruct (mem_char x chars); [|discriminate]. injection H as <-. simpl. lia.
Qed.

Lemma find_last_of_app (chars a b : string) :
  find_last_of (a ++ b) chars =
  match find_last_of b chars with
  | Some i => Some (String.length a + i)%nat
  | None => find_last_of a chars
  end.
Proof.
  induction a as [|x a IH]; simpl.
  - destruct (find_last_of b chars); reflexivity.
  - rewrite IH. destruct (find_last_of b chars); reflexivity.
Qed.

Lemma substring_0_length (s : string) :
  forall i, (i <= String.length s)%nat -> String.length (substring 0 i s) = i.
Proof.
  induction s as [|x s IH]; intros [|i] Hi; simpl in *; try reflexivity; try lia.
  rewrite IH; [reflexivity | lia].
Qed.

Lemma substring_whole (s : string) :
  forall m, (String.length s <= m)%nat -> substring 0 m s = s.
Proof.
  induction s as [|x s IH]; intros [|m] Hm; simpl in *; try reflexivity; try lia.
  rewrite IH; [reflexivity | lia].
Qed.

Lemma substring_prefix (a b : string) :
  substring 0 (String.length a) (a ++ b) = a.
Proof.
  induction a as [|x a IH]; simpl.
  - destruct b; reflexivity.
  - now rewrite IH.
Qed.

Lemma substring_skip (a b : string) (k m : nat) :
  substring (String.length a + k) m (a ++ b) = substring k m b.
Proof. induction a as [|x a IH]; simpl; [reflexivity | exact IH]. Qed.

(** X15.  For a shader file [dir/base.ext] (either separator; no separator in
    [base] or [ext], no dot in [ext]) [main] takes [dir] as the shader path
    and [base] as the shader name, so that path, separator, name, dot and
    extension make up the argument again. *)
Theorem shader_names_of_usual_path :
  forall (dir base ext : string) (sep : ascii),
    mem_char sep "\/" = true ->
    find_last_of base "\/" = None ->
    find_last_of ext "\/" = None ->
    find_last_of ext "." = None ->
    shader_names (dir ++ String sep (base ++ "." ++ ext)) =
      Some ((dir ++ String sep base)%string, dir, base).
Proof.
  intros dir base ext sep Hsep Hbase Hext Hdot.
  assert (Hsepdot : mem_char sep "." = false).
  { cbn in Hsep |- *. rewrite orb_false_r in *.
    apply orb_true_iff in Hsep as [H | H];
      apply Ascii.eqb_eq in H; subst sep; reflexivity. }
  assert (Hpath : (dir ++ String sep (base ++ "." ++ ext) =
                   (dir ++ String sep base) ++ String "." ext)%string).
  { rewrite append_associative. reflexivity. }
  assert (Hlastdot :
    find_last_of (dir ++ String sep (base ++ "." ++ ext)) "." =
    Some (String.length (dir ++ String sep base))).
  { rewrite Hpath, find_last_of_app. cbn [find_last_of]. rewrite Hdot.
    cbn. now rewrite Nat.add_0_r. }
  assert (Hlastslash :
    find_last_of (dir ++ String sep (base ++ "." ++ ext)) "\/" =
    Some (String.length dir)).
  { rewrite find_last_of_app. cbn [find_last_of].
    rewrite find_last_of_app. cbn [find_last_of append]. rewrite Hext, Hbase.
    change (mem_char "." "\/") with false. cbv iota. rewrite Hsep.
    now rewrite Nat.add_0_r. }
  unfold shader_names. rewrite Hlastdot, Hlastslash. unfold substr.
  cbn [Nat.leb].
  assert (Hne : substring 0 (String.length (dir ++ String sep base))
                  (dir ++ String sep (base ++ "." ++ ext)) =
                (dir ++ String sep base)%string)
    by (rewrite Hpath; apply substring_prefix).
  rewrite !Hne, substring_prefix.
  replace (String.length dir + 1 <=? String.length (dir ++ String sep base))%nat
    with true
    by (symmetry; apply Nat.leb_le; rewrite length_append; simpl; lia).
  rewrite substring_skip. cbn [substring].
  rewrite substring_whole by (rewrite length_append; simpl; lia).
  reflexivity.
Qed.

Lemma shader_names_of_usual_path_witness :
  shader_names "C:\shaders/blur.v2.hlsl" = Some ("C:\shaders/blur.v2", "C:\shaders", "blur.v2").
Proof.
  apply (shader_names_of_usual_path "C:\shaders" "blur.v2" "hlsl" "/");
    reflexivity.
Defined.

(** X16.  Taking the names throws [std::out_of_range] exactly when the argument
    has a dot and a separator and its last dot does not come after its last
    separator, as in [shaders.v2/blur]; otherwise the names are found. *)
Theorem shader_names_throws_iff :
  forall path : string,
    shader_names path = None <->
    exists i j,
      find_last_of path "." = Some i /\ find_last_of path "\/" = Some j /\
      (i <= j)%nat.
Proof.
  intros path. unfold shader_names, substr. cbn [Nat.leb].
  destruct (find_last_of path ".") as [i|] eqn:Hdot;
    destruct (find_last_of path "\/") as [j|] eqn:Hslash.
  - apply find_last_of_lt in Hdot.
    rewrite substring_0_length by lia.
    destruct (j + 1 <=? i)%nat eqn:Hle.
    + apply Nat.leb_le in Hle. split; [discriminate|].
      intros (i' & j' & Hi & Hj & Hij). injection Hi as <-. injection Hj as <-. lia.
    + apply Nat.leb_gt in Hle. split; [|reflexivity].
      intros _. exists i, j. repeat split. lia.
  - split; [discriminate|]. intros (i' & j' & _ & Hj & _). discriminate.
  - destruct (j + 1 <=? String.length path)%nat eqn:Hle.
    + split; [discriminate|]. intros (i' & j' & Hi & _). discriminate.
    + apply find_last_of_lt in Hslash. apply Nat.leb_gt in Hle. lia.
  - split; [discriminate|]. intros (i' & j' & Hi & _). discriminate.
Qed.

Lemma shader_names_throws_iff_witness :
  shader_names "shaders.v2/blur" = None.
Proof.
  apply (proj2 (shader_names_throws_iff "shaders.v2/blur")).
  exists 7%nat, 10%nat. repeat split. lia.
Defined.

(** X17.  An argument without a separator is taken as its own directory: the
    shader path is the whole file name, and so is the output path that
    [main] goes on to create as a directory; the shader name is the file
    name up to its last dot. *)
Theorem names_without_separator :
  forall path : string,
    find_last_of path "\/" = None ->
    output_path_of path = Some path /\
    exists name,
      shader_names path = Some (name, path, name) /\
      match find_last_of path "." with
      | Some i => name = substring 0 i path /\ (String.length name = i)%nat
      | None => name = path
      end.
Proof.
  intros path Hslash. unfold output_path_of, shader_names, substr.
  rewrite Hslash. split; [reflexivity|]. cbn [Nat.leb].
  destruct (find_last_of path ".") as [i|] eqn:Hdot.
  - eexists. split; [reflexivity|]. split; [reflexivity|].
    apply find_last_of_lt in Hdot. apply substring_0_length. lia.
  - exists path. split; reflexivity.
Qed.

Lemma names_without_separator_witness :
  output_path_of "out.bin" = Some "out.bin" /\
  shader_names "blur.hlsl" = Some ("blur", "blur.hlsl", "blur").
Proof.
  split.
  - apply (proj1 (names_without_separator "out.bin" eq_refl)).
  - destruct (names_without_separator "blur.hlsl" eq_refl)
      as (_ & name & Hnames & Hname).
    cbn in Hname. destruct Hname as [-> _]. exact Hnames.
Defined.
